(** * nova-renderer: the shader program and the render orchestrator

    A shallow embedding of
      - [render/objects/shaders/gl_shader_program.h]  (class [gl_shader_program]),
      - [render/objects/renderpasses/materials.h]     (the material model),
      - [render/nova_renderer.cpp]                    (class [nova_renderer]).

    Every call that leaves the renderer (OpenGL, the mesh store, the texture
    manager, the window, the uniform buffer store, the logger, the profiler)
    is recorded as an [event]; a member function becomes a computation that
    reads and updates the renderer, emits events and may throw or reach
    undefined behaviour. *)

From Stdlib Require Import ZArith QArith_base Qfield String List Bool Lia Sorted.
From stdpp Require Import gmap strings list fin_maps pretty.

Local Open Scope string_scope.
Local Open Scope Z_scope.
Local Open Scope list_scope.

(** ** Numbers and matrices

    Single-precision arithmetic is not evaluated: a [float] is the literal or
    configured number it was converted from, or a division left as written.
    The glm calls of the source build a [mat4] term. *)

Inductive float : Type :=
| float_lit (q : Q)
| float_div (a b : float).

Record vec3 : Type := Vec3 { vec3_x : float; vec3_y : float; vec3_z : float }.

Inductive mat4 : Type :=
| mat4_diag (d : float)               (* glm::mat4(d) *)
| glm_translate (m : mat4) (v : vec3) (* glm::translate(m, v) *)
| glm_scale (m : mat4) (v : vec3).    (* glm::scale(m, v) *)

Definition lit (z : Z) : float := float_lit (inject_Z z).

(** What a matrix does to a point, read in exact arithmetic: the value of a
    [float] as a rational, and the image of a point in homogeneous
    coordinates. [glm::translate(m, v)] is [m] times the translation by [v]
    and [glm::scale(m, v)] is [m] times the scaling by [v], so the point goes
    through the last call first. Rounding is left out. *)
Fixpoint float_value (x : float) : Q :=
  match x with
  | float_lit q => q
  | float_div a b => (float_value a / float_value b)%Q
  end.

Fixpoint mat4_apply (m : mat4) (point : Q * Q * Q * Q) : Q * Q * Q * Q :=
  let '(x, y, z, w) := point in
  match m with
  | mat4_diag d =>
      (float_value d * x, float_value d * y, float_value d * z, float_value d * w)%Q
  | glm_translate m' v =>
      mat4_apply m' (x + float_value (vec3_x v) * w, y + float_value (vec3_y v) * w,
                     z + float_value (vec3_z v) * w, w)%Q
  | glm_scale m' v =>
      mat4_apply m' (float_value (vec3_x v) * x, float_value (vec3_y v) * y,
                     float_value (vec3_z v) * z, w)%Q
  end.

(** Two points with equal rational coordinates. *)
Definition same_point (p q : Q * Q * Q * Q) : Prop :=
  (p.1.1.1 == q.1.1.1 ∧ p.1.1.2 == q.1.1.2 ∧ p.1.2 == q.1.2 ∧ p.2 == q.2)%Q.

(** ** JSON values (nlohmann::json) *)

Inductive json : Type :=
| json_null
| json_boolean (b : bool)
| json_number (q : Q)
| json_string (s : string)
| json_array      (* an array; no code here reads its elements *)
| json_object.    (* an object; no code here reads its members *)

(** ** Events *)

Inductive log_level : Type := TRACE | DEBUG | INFO | ERROR.

Inductive log_item : Type :=
| Text (s : string)
| Json (j : json).

Inductive framebuffer_id : Type := main_fb | shadow_fb.

Record framebuffer : Type := Framebuffer {
  fb_width : Z;
  fb_height : Z;
  fb_attachments : gset Z
}.

Record per_frame_uniforms : Type := PerFrameUniforms {
  gbufferProjection : mat4;
  gbufferModelView : mat4
}.

Inductive event : Type :=
| ELog (lvl : log_level) (msg : list log_item)       (* LOG(lvl) << ... *)
| EProfilerLogAll                                    (* profiler::log_all_profiler_data *)
| EProfilerStart (what : string)                     (* profiler::start *)
| EProfilerEnd (what : string)                       (* profiler::end *)
| ERecalculateFrustum                                (* camera::recalculate_frustum *)
| EUploadNewGeometry                                 (* mesh_store::upload_new_geometry *)
| EClear (color depth : bool)                        (* glClear(mask) *)
| ESendData (data : per_frame_uniforms)              (* per-frame UBO send_data *)
| EUseProgram (program : Z)                          (* gl_shader_program::bind *)
| EGetUniformLocation (program : Z) (uniform : string) (* glGetUniformLocation *)
| EUniformMatrix4fv (location : Z) (m : mat4)        (* glUniformMatrix4fv *)
| EBindTexture (binding : Z) (tex : Z)               (* texture2D::bind(binding) *)
| ESetActive (mesh : Z)                              (* gl_mesh::set_active *)
| EDraw (mesh : Z)                                   (* gl_mesh::draw *)
| EGetMeshesForShader (key : string)                 (* mesh_store::get_meshes_for_shader *)
| EEndFrame                                          (* glfw_gl_window::end_frame *)
| ELoadShaderpack (pack : string)                    (* load_shaderpack *)
| ERegisterAllBuffers (program : Z)                  (* register_all_buffers_with_shader *)
| EDeleteProgram (program : Z)                       (* glDeleteProgram *)
| EBuildFramebuffer (which : framebuffer_id) (fb : framebuffer).

(** ** materials.h *)

Module Materials.

Inductive state_enum : Type :=
| blending
| invert_culing
| disable_culling
| disable_depth_write
| enable_stencil_test
| stencil_write
| disable_color_write
| enable_alpha_to_coverage.

Inductive texture_filter_enum : Type := texel_aa | bilinear | point.

Inductive texture_wrap_mode_enum : Type := repeat | clamp.

Record sampler_state : Type := {
  sampler_index : Z;
  filter : texture_filter_enum;
  wrap_mode : texture_wrap_mode_enum
}.

Inductive vertex_field : Type :=
| position
| color
| main_uv
| lightmap_uv
| normal
| tangent
| mid_tex_coord
| virtual_texture_id
| mc_entity_id
| empty.

Inductive texture_location_enum : Type := dynamic | in_user_package.

Record texture : Type := {
  index : Z;
  texture_location : texture_location_enum;
  texture_name : string;
  calculate_mipmaps : bool
}.

Record framebuffer_output : Type := {
  output_index : Z;
  format : string
}.

Record material_state : Type := {
  name : string;
  parent : string;
  defines : list string;
  states : list state_enum;
  vertex_shader : string;
  fragment_shader : string;
  geometry_shader : string;
  tessellation_evaluation_shader : string;
  tessellation_control_shader : string;
  vertex_fields : list vertex_field;
  sampler_states : list sampler_state;
  textures : list texture;
  filters : string;
  fallback : string;
  pass_index : Z;
  outputs : list framebuffer_output;
  output_width : Z;
  output_height : Z
}.

End Materials.

(** ** gl_shader_program.h *)

Module Shader.

(** The data members of [gl_shader_program]. [gl_name] is the OpenGL
    program object, 0 being the null handle; [uniform_locations] is the
    cache of [get_uniform_location]. *)
Record gl_shader_program : Type := {
  gl_name : Z;
  name : string;
  added_shaders : list Z;
  uniform_locations : gmap string Z;
  filter : string
}.

(** [gl_shader_program(const gl_shader_program &other) = default]: the
    defaulted copy constructor copies every data member. *)
Definition copy_construct (other : gl_shader_program) : gl_shader_program :=
  {| gl_name := gl_name other;
     name := name other;
     added_shaders := added_shaders other;
     uniform_locations := uniform_locations other;
     filter := filter other |}.

(** Modelled from the spec: the body of the move constructor
    [gl_shader_program(gl_shader_program &&other)] (gl_shader_program.cpp).
    It transfers the GPU resource to the new object and nulls the handle of
    [other]; the result is (new object, [other] afterwards). The spec fixes
    nothing else about the moved-from object, whose remaining members are
    left as they were. *)
Definition move_construct (other : gl_shader_program)
  : gl_shader_program * gl_shader_program :=
  ({| gl_name := gl_name other;
      name := name other;
      added_shaders := added_shaders other;
      uniform_locations := uniform_locations other;
      filter := filter other |},
   {| gl_name := 0;
      name := name other;
      added_shaders := added_shaders other;
      uniform_locations := uniform_locations other;
      filter := filter other |}).

(** Modelled from the spec: the body of the destructor [~gl_shader_program]
    (gl_shader_program.cpp). It releases the GPU program of a live object
    and does nothing on a nulled one. *)
Definition destroy (p : gl_shader_program) : list event :=
  if Z.eqb (gl_name p) 0 then [] else [EDeleteProgram (gl_name p)].

(** What the spec says a copy is: the logical descriptor (name, filter)
    and no GPU resource. *)
Definition spec_copy_construct (other : gl_shader_program) : gl_shader_program :=
  {| gl_name := 0;
     name := name other;
     added_shaders := [];
     uniform_locations := ∅;
     filter := filter other |}.

(** Modelled from the spec: the body of [gl_shader_program::bind]
    (gl_shader_program.cpp), which makes this program the active one. *)
Definition bind (p : gl_shader_program) : list event :=
  [EUseProgram (gl_name p)].

Definition get_filter (p : gl_shader_program) : string := filter p.

Definition get_name (p : gl_shader_program) : string := name p.

Section UniformLocations.

(** The driver's answer to [glGetUniformLocation(program, name)]; -1 when
    the program has no active uniform of that name. *)
Variable glGetUniformLocation : Z → string → Z.

(** Modelled from the spec: the body of
    [gl_shader_program::get_uniform_location] (gl_shader_program.cpp),
    after its documentation in the header: the first call for a name asks
    the driver and caches the answer, later calls return the cached
    value. The result is (events, program afterwards, location). *)
Definition get_uniform_location (p : gl_shader_program) (uniform_name : string)
  : list event * gl_shader_program * Z :=
  match uniform_locations p !! uniform_name with
  | Some location => ([], p, location)
  | None =>
      let location := glGetUniformLocation (gl_name p) uniform_name in
      ([EGetUniformLocation (gl_name p) uniform_name],
       {| gl_name := gl_name p;
          name := name p;
          added_shaders := added_shaders p;
          uniform_locations := <[uniform_name := location]> (uniform_locations p);
          filter := filter p |},
       location)
  end.

(** [n] successive calls of [get_uniform_location] with one name: all
    events, the program afterwards, and the values returned, in order. *)
Fixpoint get_uniform_location_times (n : nat) (p : gl_shader_program)
  (uniform_name : string) : list event * gl_shader_program * list Z :=
  match n with
  | O => ([], p, [])
  | S n' =>
      let '(evs, p', location) := get_uniform_location p uniform_name in
      let '(evs', p'', locations) := get_uniform_location_times n' p' uniform_name in
      (evs ++ evs', p'', location :: locations)
  end.

(** Successive calls of [get_uniform_location] with the names of
    [uniform_names], in order. *)
Fixpoint get_uniform_locations (uniform_names : list string) (p : gl_shader_program)
  : list event * gl_shader_program * list Z :=
  match uniform_names with
  | [] => ([], p, [])
  | uniform_name :: rest =>
      let '(evs, p', location) := get_uniform_location p uniform_name in
      let '(evs', p'', locations) := get_uniform_locations rest p' in
      (evs ++ evs', p'', location :: locations)
  end.

End UniformLocations.

(** The native lookups among some events. *)
Definition native_lookups (evs : list event) : list (Z * string) :=
  omap (λ e, match e with
             | EGetUniformLocation h u => Some (h, u)
             | _ => None
             end) evs.

(** The GPU programs released by some events. *)
Definition released (evs : list event) : list Z :=
  omap (λ e, match e with EDeleteProgram h => Some h | _ => None end) evs.

End Shader.

(** ** The collaborators' data, as nova_renderer.cpp uses it *)

(** Modelled from the spec: the class [shaderpack] (shaderpack.h is not in
    the sources). [pack_name] is [get_name()], [loaded_shaders] is
    [get_loaded_shaders()], the compiled programs keyed by shader name;
    [passes] is the pipeline-state metadata the spec says a Shaderpack
    retains, in discovery order. *)
Record shaderpack : Type := Shaderpack {
  pack_name : string;
  loaded_shaders : gmap string Shader.gl_shader_program;
  passes : list Materials.material_state
}.

(** Modelled from the spec: [gl_mesh] (its header is not in the sources), the
    geometry handle of a renderable: an identity for [set_active] and [draw],
    and the answer of [has_data()]. *)
Record gl_mesh : Type := GlMesh {
  mesh_id : Z;
  has_data : bool
}.

(** Modelled from the spec: [render_object] (its header is not in the
    sources), with the members nova_renderer.cpp reads: the colour texture is
    a name, empty when there is none; normal map and data texture are
    optional names. *)
Record render_object : Type := RenderObject {
  geometry : gl_mesh;
  color_texture : string;
  normalmap : option string;
  data_texture : option string;
  position : vec3
}.

(** Modelled from the spec: the ["settings"] object of the configuration
    (the settings class is not in the sources), with the keys read here. *)
Record settings : Type := Settings {
  viewWidth : Z;
  viewHeight : Z;
  shadowMapResolution : Z;
  scalefactor : Q
}.

(** Modelled from the spec: the [camera] (its header is not in the sources),
    with the two matrices [update_gbuffer_ubos] reads and the frustum that
    [recalculate_frustum] maintains, kept as the pair of matrices it was last
    computed from, if it was. *)
Record camera : Type := Camera {
  projection_matrix : mat4;
  view_matrix : mat4;
  frustum : option (mat4 * mat4)
}.

(** Modelled from the spec: [framebuffer_builder] (its header is not in the
    sources): a size, once set, and the set of enabled colour attachments. *)
Record framebuffer_builder : Type := FramebufferBuilder {
  builder_size : option (Z * Z);
  builder_attachments : gset Z
}.

Definition set_framebuffer_size (width height : Z) (b : framebuffer_builder)
  : framebuffer_builder :=
  {| builder_size := Some (width, height);
     builder_attachments := builder_attachments b |}.

Definition enable_color_attachment (index : Z) (b : framebuffer_builder)
  : framebuffer_builder :=
  {| builder_size := builder_size b;
     builder_attachments := {[ index ]} ∪ builder_attachments b |}.

Definition build (b : framebuffer_builder) : option framebuffer :=
  match builder_size b with
  | Some (width, height) =>
      Some {| fb_width := width; fb_height := height;
              fb_attachments := builder_attachments b |}
  | None => None
  end.

(** ** The renderer and its computations *)

Record nova_renderer : Type := NovaRenderer {
  loaded_shaderpack : option shaderpack;
  (* mesh_store: the bucket of renderables of every shader name *)
  meshes : string → list render_object;
  (* texture_manager: the texture object of every known texture name *)
  textures : gmap string Z;
  render_settings : settings;
  player_camera : camera;
  main_framebuffer_builder : framebuffer_builder;
  shadow_framebuffer_builder : framebuffer_builder;
  main_framebuffer : option framebuffer;
  shadow_framebuffer : option framebuffer
}.

Inductive exn : Type :=
| json_type_error                    (* nlohmann: the value is not a string *)
| shader_not_found (key : string)    (* shaderpack::get_shader *)
| texture_not_found (key : string)   (* texture_manager::get_texture *)
| framebuffer_without_size.          (* framebuffer_builder::build *)

(** Why a computation stops before its end: a C++ exception leaves it, or it
    reaches undefined behaviour (here, the dereference of an empty pointer).
    After undefined behaviour C++ promises nothing: the process may crash,
    nothing can be caught, and neither the events nor the renderer recorded
    with such a run stand for what happens. *)
Inductive stop : Type :=
| exception (e : exn)
| undefined_behaviour.

Inductive outcome (A : Type) : Type :=
| Returned (a : A)
| Stopped (why : stop).
Arguments Returned {A} a.
Arguments Stopped {A} why.

(** The computation threw [e]. *)
Abbreviation Thrown e := (Stopped (exception e)).

(** The computation reached undefined behaviour. *)
Abbreviation Undefined := (Stopped undefined_behaviour).

Record result (A : Type) : Type := Result {
  events : list event;
  final : nova_renderer;
  outcome_of : outcome A
}.
Arguments Result {A} events final outcome_of.
Arguments events {A} r.
Arguments final {A} r.
Arguments outcome_of {A} r.

(** A member function of the renderer: from the renderer before the call to
    the events emitted, the renderer afterwards, and a value or the reason
    why the computation stopped. An exception or undefined behaviour ends the
    computation where it occurs. *)
Definition M (A : Type) : Type := nova_renderer → result A.

#[global] Instance M_ret : MRet M := λ A a s, Result [] s (Returned a).

#[global] Instance M_bind : MBind M := λ A B f m s,
  let r1 := m s in
  match outcome_of r1 with
  | Returned a =>
      let r2 := f a (final r1) in
      Result (events r1 ++ events r2) (final r2) (outcome_of r2)
  | Stopped why => Result (events r1) (final r1) (Stopped why)
  end.

Definition emit (evs : list event) : M unit := λ s, Result evs s (Returned tt).

Definition throw {A : Type} (e : exn) : M A := λ s, Result [] s (Thrown e).

Definition undefined {A : Type} : M A := λ s, Result [] s Undefined.

Definition get_renderer : M nova_renderer := λ s, Result [] s (Returned s).

Definition put_renderer (s : nova_renderer) : M unit := λ _, Result [] s (Returned tt).

(** [for (auto& x : xs) body(x);] *)
Fixpoint for_each {A : Type} (xs : list A) (body : A → M unit) : M unit :=
  match xs with
  | [] => mret tt
  | x :: xs' => body x ;; for_each xs' body
  end.

(** [LOG(lvl) << ...] *)
Definition LOG (lvl : log_level) (msg : list log_item) : M unit :=
  emit [ELog lvl msg].

Module profiler.
Definition log_all_profiler_data : M unit := emit [EProfilerLogAll].
Definition start (what : string) : M unit := emit [EProfilerStart what].
Definition end_ (what : string) : M unit := emit [EProfilerEnd what].
End profiler.

(** ** A small scene

    A shaderpack with three gbuffer passes and the GUI pass, a few
    renderables and textures, and stand-ins for the driver, the loader and the
    geometry upload. The examples below run the renderer on it. *)

Module Scene.

Definition program (handle : Z) (name filter : string) : Shader.gl_shader_program :=
  {| Shader.gl_name := handle;
     Shader.name := name;
     Shader.added_shaders := [];
     Shader.uniform_locations := ∅;
     Shader.filter := filter |}.

Definition terrain : Shader.gl_shader_program :=
  program 1 "gbuffers_terrain" "geometry_type::block".

Definition water : Shader.gl_shader_program :=
  program 2 "gbuffers_water" "geometry_type::block AND transparent".

Definition gui : Shader.gl_shader_program :=
  program 3 "gui" "geometry_type::gui".

Definition entities : Shader.gl_shader_program :=
  program 5 "gbuffers_entities" "geometry_type::entity".

Definition pass (name filters : string) (pass_index : Z) : Materials.material_state :=
  {| Materials.name := name;
     Materials.parent := "";
     Materials.defines := [];
     Materials.states := [];
     Materials.vertex_shader := name;
     Materials.fragment_shader := name;
     Materials.geometry_shader := "";
     Materials.tessellation_evaluation_shader := "";
     Materials.tessellation_control_shader := "";
     Materials.vertex_fields := [Materials.position; Materials.main_uv];
     Materials.sampler_states := [];
     Materials.textures := [];
     Materials.filters := filters;
     Materials.fallback := "";
     Materials.pass_index := pass_index;
     Materials.outputs := [];
     Materials.output_width := 0;
     Materials.output_height := 0 |}.

(** Discovered in the order water, gui, entities, terrain; by pass index
    the gbuffer passes run water (0), terrain (1), entities (2). *)
Definition pack (name : string) : shaderpack :=
  {| pack_name := name;
     loaded_shaders :=
       <["gbuffers_terrain" := terrain]>
         (<["gbuffers_water" := water]>
            (<["gui" := gui]> (<["gbuffers_entities" := entities]> ∅)));
     passes :=
       [pass "gbuffers_water" "geometry_type::block AND transparent" 0;
        pass "gui" "geometry_type::gui" 9;
        pass "gbuffers_entities" "geometry_type::entity" 2;
        pass "gbuffers_terrain" "geometry_type::block" 1] |}.

Definition origin : vec3 := Vec3 (lit 0) (lit 0) (lit 0).

Definition chunk (id : Z) (uploaded : bool) (color : string)
  (normalmap data : option string) : render_object :=
  {| geometry := {| mesh_id := id; has_data := uploaded |};
     color_texture := color;
     normalmap := normalmap;
     data_texture := data;
     position := Vec3 (lit (16 * id)) (lit 64) (lit 0) |}.

Definition buckets (shader_name : string) : list render_object :=
  if String.eqb shader_name "gbuffers_terrain" then
    [chunk 100 true "atlas.terrain" (Some "atlas.normals") None;
     chunk 101 false "atlas.terrain" None None;
     chunk 102 true "" None (Some "atlas.data")]
  else if String.eqb shader_name "gbuffers_water" then
    [chunk 200 true "atlas.terrain" None None]
  else if String.eqb shader_name "gui" then
    [chunk 300 false "gui.widgets" None None;
     chunk 301 true "" None None]
  else [].

Definition known_textures : gmap string Z :=
  <["lightmap" := 10]>
    (<["atlas.terrain" := 11]>
       (<["atlas.normals" := 12]>
          (<["atlas.data" := 13]> (<["gui.widgets" := 14]> ∅)))).

Definition empty_builder : framebuffer_builder :=
  {| builder_size := None; builder_attachments := ∅ |}.

Definition renderer (loaded : option shaderpack) (T : gmap string Z) : nova_renderer :=
  {| loaded_shaderpack := loaded;
     meshes := buckets;
     textures := T;
     render_settings :=
       {| viewWidth := 1920; viewHeight := 1080;
          shadowMapResolution := 2048; scalefactor := Qmake 2 1 |};
     player_camera :=
       {| projection_matrix := mat4_diag (lit 1); view_matrix := mat4_diag (lit 1);
          frustum := None |};
     main_framebuffer_builder := empty_builder;
     shadow_framebuffer_builder := empty_builder;
     main_framebuffer := None;
     shadow_framebuffer := None |}.

(** The renderer with the pack "A" loaded and every texture known. *)
Definition ready : nova_renderer := renderer (Some (pack "A")) known_textures.

(** The driver knows the uniform "gbufferModel" of every program, at
    location 4, and no other. *)
Definition driver (program : Z) (uniform : string) : Z :=
  if String.eqb uniform "gbufferModel" then 4 else -1.

(** The upload leaves the buckets as they are. *)
Definition upload (buckets : string → list render_object) : string → list render_object :=
  buckets.

(** The camera computes its frustum from its two matrices. *)
Definition recalculate (c : camera) : camera :=
  {| projection_matrix := projection_matrix c;
     view_matrix := view_matrix c;
     frustum := Some (projection_matrix c, view_matrix c) |}.

End Scene.

(** ** nova_renderer.cpp *)

Section Renderer.

(** The OpenGL driver's [glGetUniformLocation]. *)
Variable glGetUniformLocation : Z → string → Z.

(** [load_shaderpack] of data_loading/loaders/loaders.h: the shaderpack
    found under a name. *)
Variable load_shaderpack : string → shaderpack.

(** What [mesh_store::upload_new_geometry] does to the buckets. *)
Variable upload_new_geometry : (string → list render_object) → string → list render_object.

(** What [camera::recalculate_frustum] does to the camera (camera.cpp is
    not in the sources). *)
Variable recalculate_frustum : camera → camera.

(** *** References into the loaded shaderpack

    [gl_shader_program &] is the key of the program in the loaded
    shaderpack: reading and writing go through the shaderpack, as they do
    through the C++ reference. *)

Abbreviation shader_ref := string (only parsing).

(** [*loaded_shaderpack] and [loaded_shaderpack->]. Dereferencing the
    empty pointer is undefined behaviour: no exception is thrown, the
    computation has no defined continuation. *)
Definition the_shaderpack : M shaderpack :=
  s ← get_renderer;
  match loaded_shaderpack s with
  | Some pack => mret pack
  | None => undefined
  end.

Definition set_loaded_shaderpack (pack : shaderpack) : M unit :=
  s ← get_renderer;
  put_renderer
    {| loaded_shaderpack := Some pack;
       meshes := meshes s;
       textures := textures s;
       render_settings := render_settings s;
       player_camera := player_camera s;
       main_framebuffer_builder := main_framebuffer_builder s;
       shadow_framebuffer_builder := shadow_framebuffer_builder s;
       main_framebuffer := main_framebuffer s;
       shadow_framebuffer := shadow_framebuffer s |}.

(** Modelled from the spec: [shaderpack::get_shader] (shaderpack.cpp is not
    in the sources) returns the compiled program of that name or fails with
    a not-found error. *)
Definition get_shader (shader_name : string) : M shader_ref :=
  pack ← the_shaderpack;
  match loaded_shaders pack !! shader_name with
  | Some _ => mret shader_name
  | None => throw (shader_not_found shader_name)
  end.

Definition read_shader (shader : shader_ref) : M Shader.gl_shader_program :=
  pack ← the_shaderpack;
  match loaded_shaders pack !! shader with
  | Some p => mret p
  | None => throw (shader_not_found shader)
  end.

Definition write_shader (shader : shader_ref) (p : Shader.gl_shader_program) : M unit :=
  pack ← the_shaderpack;
  set_loaded_shaderpack
    {| pack_name := pack_name pack;
       loaded_shaders := <[shader := p]> (loaded_shaders pack);
       passes := passes pack |}.

Definition shader_bind (shader : shader_ref) : M unit :=
  p ← read_shader shader;
  emit (Shader.bind p).

Definition shader_get_name (shader : shader_ref) : M string :=
  p ← read_shader shader;
  mret (Shader.get_name p).

Definition shader_get_uniform_location (shader : shader_ref) (uniform_name : string) : M Z :=
  p ← read_shader shader;
  let '(evs, p', location) := Shader.get_uniform_location glGetUniformLocation p uniform_name in
  emit evs ;;
  write_shader shader p' ;;
  mret location.

(** *** The texture manager and the mesh store *)

(** Modelled from the spec: [texture_manager::get_texture]
    (texture_manager.cpp is not in the sources) returns the texture of that
    name and fails if there is none. *)
Definition get_texture (texture_name : string) : M Z :=
  s ← get_renderer;
  match textures s !! texture_name with
  | Some tex => mret tex
  | None => throw (texture_not_found texture_name)
  end.

(** [texture2D::bind(binding)] *)
Definition texture_bind (tex : Z) (binding : Z) : M unit :=
  emit [EBindTexture binding tex].

(** Modelled from the spec: [mesh_store::get_meshes_for_shader]
    (mesh_store.cpp is not in the sources) hands out the bucket of
    renderables stored under a name. *)
Definition get_meshes_for_shader (shader_name : string) : M (list render_object) :=
  emit [EGetMeshesForShader shader_name] ;;
  s ← get_renderer;
  mret (meshes s shader_name).

(** [meshes->upload_new_geometry()] *)
Definition mesh_upload_new_geometry : M unit :=
  emit [EUploadNewGeometry] ;;
  s ← get_renderer;
  put_renderer
    {| loaded_shaderpack := loaded_shaderpack s;
       meshes := upload_new_geometry (meshes s);
       textures := textures s;
       render_settings := render_settings s;
       player_camera := player_camera s;
       main_framebuffer_builder := main_framebuffer_builder s;
       shadow_framebuffer_builder := shadow_framebuffer_builder s;
       main_framebuffer := main_framebuffer s;
       shadow_framebuffer := shadow_framebuffer s |}.

(** [player_camera.recalculate_frustum()] *)
Definition camera_recalculate_frustum : M unit :=
  emit [ERecalculateFrustum] ;;
  s ← get_renderer;
  put_renderer
    {| loaded_shaderpack := loaded_shaderpack s;
       meshes := meshes s;
       textures := textures s;
       render_settings := render_settings s;
       player_camera := recalculate_frustum (player_camera s);
       main_framebuffer_builder := main_framebuffer_builder s;
       shadow_framebuffer_builder := shadow_framebuffer_builder s;
       main_framebuffer := main_framebuffer s;
       shadow_framebuffer := shadow_framebuffer s |}.

(** [gl_mesh::set_active] and [gl_mesh::draw] *)
Definition set_active (mesh : gl_mesh) : M unit := emit [ESetActive (mesh_id mesh)].

Definition draw (mesh : gl_mesh) : M unit := emit [EDraw (mesh_id mesh)].

(** [std::string::empty] *)
Definition string_empty (s : string) : bool :=
  match s with
  | EmptyString => true
  | String _ _ => false
  end.

(** *** Uniform uploads *)

Definition upload_model_matrix (geom : render_object) (program : shader_ref) : M unit :=
  let model_matrix := glm_translate (mat4_diag (lit 1)) (position geom) in
  model_matrix_location ← shader_get_uniform_location program "gbufferModel";
  emit [EUniformMatrix4fv model_matrix_location model_matrix].

Definition gui_model_matrix (config : settings) : mat4 :=
  let view_width := lit (viewWidth config) in
  let view_height := lit (viewHeight config) in
  let scalefactor := float_lit (scalefactor config) in
  let gui_model := mat4_diag (lit 1) in
  let gui_model := glm_translate gui_model (Vec3 (lit (-1)) (lit 1) (lit 0)) in
  let gui_model := glm_scale gui_model (Vec3 scalefactor scalefactor (lit 1)) in
  let gui_model :=
    glm_scale gui_model
      (Vec3 (float_div (lit 1) view_width) (float_div (lit 1) view_height) (lit 1)) in
  glm_scale gui_model (Vec3 (lit 1) (lit (-1)) (lit 1)).

Definition upload_gui_model_matrix (program : shader_ref) : M unit :=
  s ← get_renderer;
  let gui_model := gui_model_matrix (render_settings s) in
  model_matrix_location ← shader_get_uniform_location program "gbufferModel";
  emit [EUniformMatrix4fv model_matrix_location gui_model].

Definition update_gbuffer_ubos : M unit :=
  s ← get_renderer;
  let per_frame_uniform_data :=
    {| gbufferProjection := projection_matrix (player_camera s);
       gbufferModelView := view_matrix (player_camera s) |} in
  emit [ESendData per_frame_uniform_data].

(** *** The passes *)

(** The body of the loop of [render_shader]. *)
Definition process_renderable (shader : shader_ref) (geom : render_object) : M unit :=
  profiler.start "process_renderable" ;;
  (if has_data (geometry geom) then
     (if negb (string_empty (color_texture geom)) then
        color_texture ← get_texture (color_texture geom);
        texture_bind color_texture 0
      else mret tt) ;;
     match normalmap geom with
     | Some normalmap => tex ← get_texture normalmap; texture_bind tex 1
     | None => mret tt
     end ;;
     match data_texture geom with
     | Some data_texture => tex ← get_texture data_texture; texture_bind tex 2
     | None => mret tt
     end ;;
     (tex ← get_texture "lightmap"; texture_bind tex 3) ;;
     upload_model_matrix geom shader ;;
     profiler.start "drawcall" ;;
     set_active (geometry geom) ;;
     draw (geometry geom) ;;
     profiler.end_ "drawcall"
   else
     LOG TRACE [Text "Skipping some geometry since it has no data"]) ;;
  profiler.end_ "process_renderable".

Definition render_shader (shader : shader_ref) : M unit :=
  name ← shader_get_name shader;
  LOG TRACE [Text "Rendering everything for shader "; Text name] ;;
  profiler.start name ;;
  shader_bind shader ;;
  profiler.start "get_meshes_for_shader" ;;
  geometry ← get_meshes_for_shader name;
  profiler.end_ "get_meshes_for_shader" ;;
  profiler.start "process_all" ;;
  for_each geometry (process_renderable shader) ;;
  profiler.end_ "process_all" ;;
  profiler.end_ name.

Definition render_shadow_pass : M unit :=
  LOG TRACE [Text "Rendering shadow pass"].

Definition render_gbuffers : M unit :=
  LOG TRACE [Text "Rendering gbuffer pass"] ;;
  terrain_shader ← get_shader "gbuffers_terrain";
  render_shader terrain_shader ;;
  water_shader ← get_shader "gbuffers_water";
  render_shader water_shader.

Definition render_composite_passes : M unit :=
  LOG TRACE [Text "Rendering composite passes"].

Definition render_final_pass : M unit :=
  LOG TRACE [Text "Rendering final pass"].

(** The body of the loop of [render_gui]. *)
Definition render_gui_object (geom : render_object) : M unit :=
  (if negb (string_empty (color_texture geom)) then
     color_texture ← get_texture (color_texture geom);
     texture_bind color_texture 0
   else mret tt) ;;
  set_active (geometry geom) ;;
  draw (geometry geom).

Definition render_gui : M unit :=
  LOG TRACE [Text "Rendering GUI"] ;;
  emit [EClear false true] ;;
  gui_shader ← get_shader "gui";
  shader_bind gui_shader ;;
  upload_gui_model_matrix gui_shader ;;
  gui_geometry ← get_meshes_for_shader "gui";
  for_each gui_geometry render_gui_object.

Definition render_frame : M unit :=
  profiler.log_all_profiler_data ;;
  camera_recalculate_frustum ;;
  mesh_upload_new_geometry ;;
  render_shadow_pass ;;
  emit [EClear true true] ;;
  update_gbuffer_ubos ;;
  render_gbuffers ;;
  render_composite_passes ;;
  render_final_pass ;;
  render_gui ;;
  emit [EEndFrame].

(** *** Reaction to a configuration change *)

(** [link_up_uniform_buffers]: the lambda takes each entry of the map by
    value ([auto shader]), so the uniform buffer store registers a copy of
    the program, which is destroyed when the lambda returns. *)
Definition link_up_uniform_buffers (shaders : gmap string Shader.gl_shader_program) : M unit :=
  for_each (map_to_list shaders) (λ entry,
    let shader := Shader.copy_construct entry.2 in
    emit [ERegisterAllBuffers (Shader.gl_name shader)] ;;
    emit (Shader.destroy shader)).

Definition set_main_framebuffer_builder (b : framebuffer_builder) : M unit :=
  s ← get_renderer;
  put_renderer
    {| loaded_shaderpack := loaded_shaderpack s;
       meshes := meshes s;
       textures := textures s;
       render_settings := render_settings s;
       player_camera := player_camera s;
       main_framebuffer_builder := b;
       shadow_framebuffer_builder := shadow_framebuffer_builder s;
       main_framebuffer := main_framebuffer s;
       shadow_framebuffer := shadow_framebuffer s |}.

Definition set_shadow_framebuffer_builder (b : framebuffer_builder) : M unit :=
  s ← get_renderer;
  put_renderer
    {| loaded_shaderpack := loaded_shaderpack s;
       meshes := meshes s;
       textures := textures s;
       render_settings := render_settings s;
       player_camera := player_camera s;
       main_framebuffer_builder := main_framebuffer_builder s;
       shadow_framebuffer_builder := b;
       main_framebuffer := main_framebuffer s;
       shadow_framebuffer := shadow_framebuffer s |}.

Definition set_main_framebuffer (fb : framebuffer) : M unit :=
  s ← get_renderer;
  put_renderer
    {| loaded_shaderpack := loaded_shaderpack s;
       meshes := meshes s;
       textures := textures s;
       render_settings := render_settings s;
       player_camera := player_camera s;
       main_framebuffer_builder := main_framebuffer_builder s;
       shadow_framebuffer_builder := shadow_framebuffer_builder s;
       main_framebuffer := Some fb;
       shadow_framebuffer := shadow_framebuffer s |}.

Definition set_shadow_framebuffer (fb : framebuffer) : M unit :=
  s ← get_renderer;
  put_renderer
    {| loaded_shaderpack := loaded_shaderpack s;
       meshes := meshes s;
       textures := textures s;
       render_settings := render_settings s;
       player_camera := player_camera s;
       main_framebuffer_builder := main_framebuffer_builder s;
       shadow_framebuffer_builder := shadow_framebuffer_builder s;
       main_framebuffer := main_framebuffer s;
       shadow_framebuffer := Some fb |}.

(** [std::make_unique<framebuffer>(builder.build())] *)
Definition build_framebuffer (which : framebuffer_id) (b : framebuffer_builder)
  : M framebuffer :=
  match build b with
  | Some fb => emit [EBuildFramebuffer which fb] ;; mret fb
  | None => throw framebuffer_without_size
  end.

Definition create_framebuffers_from_shaderpack : M unit :=
  s ← get_renderer;
  let settings := render_settings s in
  let main_builder :=
    enable_color_attachment 7 (enable_color_attachment 6
      (enable_color_attachment 5 (enable_color_attachment 4
        (enable_color_attachment 3 (enable_color_attachment 2
          (enable_color_attachment 1 (enable_color_attachment 0
            (set_framebuffer_size (viewWidth settings) (viewHeight settings)
               (main_framebuffer_builder s))))))))) in
  set_main_framebuffer_builder main_builder ;;
  (fb ← build_framebuffer main_fb main_builder; set_main_framebuffer fb) ;;
  let shadow_builder :=
    enable_color_attachment 3 (enable_color_attachment 2
      (enable_color_attachment 1 (enable_color_attachment 0
        (set_framebuffer_size (shadowMapResolution settings) (shadowMapResolution settings)
           (shadow_framebuffer_builder s))))) in
  set_shadow_framebuffer_builder shadow_builder ;;
  (fb ← build_framebuffer shadow_fb shadow_builder; set_shadow_framebuffer fb).

(** [load_new_shaderpack]. What the release of the previous shaderpack and
    framebuffers does is not recorded: the shaderpack is shared with whoever
    called [get_shaders], and the framebuffer class is not in the sources. *)
Definition load_new_shaderpack (new_shaderpack_name : string) : M unit :=
  LOG INFO [Text "Loading a new shaderpack"] ;;
  LOG INFO [Text "Name of shaderpack "; Text new_shaderpack_name] ;;
  emit [ELoadShaderpack new_shaderpack_name] ;;
  set_loaded_shaderpack (load_shaderpack new_shaderpack_name) ;;
  LOG DEBUG [Text "Shaderpack loaded, wiring everything together"] ;;
  LOG INFO [Text "Loading complete"] ;;
  (pack ← the_shaderpack; link_up_uniform_buffers (loaded_shaders pack)) ;;
  LOG DEBUG [Text "Linked up UBOs"] ;;
  create_framebuffers_from_shaderpack.

(** The conversion of a [json] to [const std::string &] at a call. *)
Definition json_to_string (j : json) : M string :=
  match j with
  | json_string s => mret s
  | _ => throw json_type_error
  end.

(** [j != s] for a [json] and a [std::string]: the string is converted to a
    json string, and values of different kinds differ. *)
Definition json_ne_string (j : json) (s : string) : bool :=
  match j with
  | json_string t => negb (String.eqb t s)
  | _ => true
  end.

(** [on_config_change(new_config)]; [shaderpack_name] is
    [new_config["loadedShaderpack"]]. *)
Definition on_config_change (shaderpack_name : json) : M unit :=
  LOG INFO [Text "Shaderpack in settings: "; Json shaderpack_name] ;;
  s ← get_renderer;
  match loaded_shaderpack s with
  | None =>
      LOG DEBUG [Text "There's currenty no shaderpack, so we're loading a new one"] ;;
      new_shaderpack_name ← json_to_string shaderpack_name;
      load_new_shaderpack new_shaderpack_name
  | Some loaded =>
      let shaderpack_in_settings_is_new := json_ne_string shaderpack_name (pack_name loaded) in
      (if shaderpack_in_settings_is_new then
         LOG DEBUG [Text "Shaderpack "; Json shaderpack_name;
                    Text " is about to replace shaderpack "; Text (pack_name loaded)] ;;
         new_shaderpack_name ← json_to_string shaderpack_name;
         load_new_shaderpack new_shaderpack_name
       else mret tt) ;;
      LOG DEBUG [Text "Finished dealing with possible new shaderpack"]
  end.

Definition on_config_loaded (config : json) : M unit := mret tt.

(** ** Observations on the events of a computation *)

(** The events other than logging and profiling: the commands sent to
    OpenGL and to the collaborators. *)
Definition is_command (e : event) : bool :=
  match e with
  | ELog _ _ | EProfilerLogAll | EProfilerStart _ | EProfilerEnd _ => false
  | _ => true
  end.

Definition commands (evs : list event) : list event :=
  omap (λ e, if is_command e then Some e else None) evs.

Definition drawn (evs : list event) : list Z :=
  omap (λ e, match e with EDraw m => Some m | _ => None end) evs.

Definition used_programs (evs : list event) : list Z :=
  omap (λ e, match e with EUseProgram h => Some h | _ => None end) evs.

Definition fetched_buckets (evs : list event) : list string :=
  omap (λ e, match e with EGetMeshesForShader k => Some k | _ => None end) evs.

Definition texture_binds (evs : list event) : list (Z * Z) :=
  omap (λ e, match e with EBindTexture u t => Some (u, t) | _ => None end) evs.

Definition matrix_uploads (evs : list event) : list (Z * mat4) :=
  omap (λ e, match e with EUniformMatrix4fv l m => Some (l, m) | _ => None end) evs.

Definition clears (evs : list event) : list (bool * bool) :=
  omap (λ e, match e with EClear c d => Some (c, d) | _ => None end) evs.

Definition loads (evs : list event) : list string :=
  omap (λ e, match e with ELoadShaderpack n => Some n | _ => None end) evs.

Definition registered (evs : list event) : list Z :=
  omap (λ e, match e with ERegisterAllBuffers h => Some h | _ => None end) evs.

Definition built (evs : list event) : list (framebuffer_id * framebuffer) :=
  omap (λ e, match e with EBuildFramebuffer w fb => Some (w, fb) | _ => None end) evs.


(** The steps of a frame, and the event that marks the start of each. *)
Inductive frame_step : Type :=
| UploadNewGeometry
| ShadowPass
| ClearMainTargets
| UpdateFrameUniforms
| GBufferPasses
| CompositePasses
| FinalPass
| GUIPass
| Present.

Definition step_of_message (msg : string) : option frame_step :=
  if String.eqb msg "Rendering shadow pass" then Some ShadowPass
  else if String.eqb msg "Rendering gbuffer pass" then Some GBufferPasses
  else if String.eqb msg "Rendering composite passes" then Some CompositePasses
  else if String.eqb msg "Rendering final pass" then Some FinalPass
  else if String.eqb msg "Rendering GUI" then Some GUIPass
  else None.

Definition step_of_event (e : event) : option frame_step :=
  match e with
  | EUploadNewGeometry => Some UploadNewGeometry
  | ELog TRACE [Text msg] => step_of_message msg
  | EClear true true => Some ClearMainTargets
  | ESendData _ => Some UpdateFrameUniforms
  | EEndFrame => Some Present
  | _ => None
  end.

Definition steps (evs : list event) : list frame_step := omap step_of_event evs.





(** *** When a frame can run to its end *)

Definition texture_known (T : gmap string Z) (texture_name : option string) : bool :=
  match texture_name with
  | Some n => match T !! n with Some _ => true | None => false end
  | None => true
  end.

(** The colour texture a renderable names, if it names one. *)
Definition color_name (geom : render_object) : option string :=
  if string_empty (color_texture geom) then None else Some (color_texture geom).

(** A renderable of a gbuffer pass is ready when it has no data yet, or
    every texture it names and the lightmap are known. *)
Definition renderable_ready (T : gmap string Z) (geom : render_object) : bool :=
  negb (has_data (geometry geom))
  || (texture_known T (color_name geom)
      && texture_known T (normalmap geom)
      && texture_known T (data_texture geom)
      && texture_known T (Some "lightmap")).

Definition gui_object_ready (T : gmap string Z) (geom : render_object) : bool :=
  texture_known T (color_name geom).

Definition gui_ready (s : nova_renderer) : bool :=
  match loaded_shaderpack s with
  | Some pack =>
      match loaded_shaders pack !! "gui" with
      | Some _ => forallb (gui_object_ready (textures s)) (meshes s "gui")
      | None => false
      end
  | None => false
  end.

Definition shader_ready (s : nova_renderer) (key : string) : bool :=
  match loaded_shaderpack s with
  | Some pack =>
      match loaded_shaders pack !! key with
      | Some p => forallb (renderable_ready (textures s)) (meshes s (Shader.name p))
      | None => false
      end
  | None => false
  end.

Definition passes_ready (s : nova_renderer) : bool :=
  shader_ready s "gbuffers_terrain" && shader_ready s "gbuffers_water" && gui_ready s.

(** The renderer once the pending geometry is uploaded. *)
Definition after_upload (s : nova_renderer) : nova_renderer :=
  final (mesh_upload_new_geometry s).

(** The renderer when the passes of a frame start: the frustum is
    recalculated and the pending geometry uploaded. *)
Definition frame_start (s : nova_renderer) : nova_renderer :=
  after_upload (final (camera_recalculate_frustum s)).

Definition frame_ready (s : nova_renderer) : bool := passes_ready (after_upload s).

(** The bind of an optional texture that is known. *)
Definition optional_bind (T : gmap string Z) (texture_name : option string) (binding : Z)
  : list event :=
  match texture_name with
  | Some n => match T !! n with Some t => [EBindTexture binding t] | None => [] end
  | None => []
  end.

(** The textures a drawn renderable of a gbuffer pass asks the texture
    manager for, each with its binding point, in the order of the requests:
    the colour texture, the normal map and the data texture if the
    renderable names them, then the lightmap. *)
Definition requested_textures (geom : render_object) : list (Z * string) :=
  match color_name geom with Some n => [(0, n)] | None => [] end
  ++ match normalmap geom with Some n => [(1, n)] | None => [] end
  ++ match data_texture geom with Some n => [(2, n)] | None => [] end
  ++ [(3, "lightmap")].

(** Binding the requested textures in order: the binds made, and the
    first name the texture manager does not know, where binding stops. *)
Fixpoint bind_requested (T : gmap string Z) (requests : list (Z * string))
  : list event * option string :=
  match requests with
  | [] => ([], None)
  | (binding, n) :: rest =>
      match T !! n with
      | Some tex =>
          let '(binds, missing) := bind_requested T rest in
          (EBindTexture binding tex :: binds, missing)
      | None => ([], Some n)
      end
  end.

(** *** The gbuffer passes as the spec describes them *)

Definition is_gbuffer_pass (m : Materials.material_state) : bool :=
  String.prefix "gbuffers" (Materials.name m).

(** Stable insertion by [pass_index]: [sort_passes] inserts the passes from
    the last to the first, each before the passes of equal index. *)
Fixpoint insert_pass (m : Materials.material_state) (sorted : list Materials.material_state)
  : list Materials.material_state :=
  match sorted with
  | [] => [m]
  | m' :: rest =>
      if Materials.pass_index m <=? Materials.pass_index m'
      then m :: m' :: rest
      else m' :: insert_pass m rest
  end.

Definition sort_passes (ms : list Materials.material_state) : list Materials.material_state :=
  foldr insert_pass [] ms.

(** The programs of the gbuffer stage in the order of the spec: the
    shaderpack's passes of that stage, sorted by [pass_index], ties in
    discovery order. *)
Definition spec_gbuffer_programs (pack : shaderpack) : list Shader.gl_shader_program :=
  omap (λ m, loaded_shaders pack !! Materials.name m)
       (sort_passes (List.filter is_gbuffer_pass (passes pack))).

(** *** What a pass leaves alone

    A pass changes the renderer only by filling the uniform-location cache
    of a program: meshes, textures and settings stay, and so do the handle
    and the name of every loaded program. *)

Definition handle_of (p : Shader.gl_shader_program) : Z * string :=
  (Shader.gl_name p, Shader.name p).

Definition same_handles (s0 s : nova_renderer) : Prop :=
  meshes s = meshes s0
  ∧ textures s = textures s0
  ∧ render_settings s = render_settings s0
  ∧ match loaded_shaderpack s0, loaded_shaderpack s with
    | Some pack0, Some pack =>
        ∀ k, handle_of <$> loaded_shaders pack !! k = handle_of <$> loaded_shaders pack0 !! k
    | None, None => True
    | _, _ => False
    end.

(** *** Statements about a run

    [wp m s Q]: the run of [m] from [s] satisfies [Q], a property of its
    events, of the renderer afterwards and of what it returns or throws. *)
Definition wp {A : Type} (m : M A) (s : nova_renderer)
  (Q : list event → nova_renderer → outcome A → Prop) : Prop :=
  Q (events (m s)) (final (m s)) (outcome_of (m s)).

(** The loaded shaderpack holds the program [p] under [key]. *)
Definition has_shader (s : nova_renderer) (key : string) (p : Shader.gl_shader_program)
  : Prop :=
  ∃ pack, loaded_shaderpack s = Some pack ∧ loaded_shaders pack !! key = Some p.

(** The commands of the GUI pass for one renderable whose colour texture,
    if it names one, is known. *)
Definition gui_object_commands (T : gmap string Z) (geom : render_object) : list event :=
  optional_bind T (color_name geom) 0
  ++ [ESetActive (mesh_id (geometry geom)); EDraw (mesh_id (geometry geom))].

(** Every texture bind of [evs] is at binding point 0. *)
Definition binds_unit0_only (evs : list event) : Prop :=
  Forall (λ b : Z * Z, b.1 = 0) (texture_binds evs).

(** *** The reaction to a configuration change, observed *)

(** The events of one wiring pass over the programs of a shaderpack. *)
Definition wiring_events (shaders : gmap string Shader.gl_shader_program) : list event :=
  concat (map (λ entry : string * Shader.gl_shader_program,
                 ERegisterAllBuffers (Shader.gl_name entry.2) :: Shader.destroy entry.2)
              (map_to_list shaders)).

(** The framebuffers [create_framebuffers_from_shaderpack] builds from the
    settings and the builders of [s]. *)
Definition main_framebuffer_of (s : nova_renderer) : framebuffer :=
  {| fb_width := viewWidth (render_settings s);
     fb_height := viewHeight (render_settings s);
     fb_attachments :=
       {[ 7 ]} ∪ ({[ 6 ]} ∪ ({[ 5 ]} ∪ ({[ 4 ]} ∪ ({[ 3 ]} ∪ ({[ 2 ]} ∪ ({[ 1 ]} ∪ ({[ 0 ]}
         ∪ builder_attachments (main_framebuffer_builder s)))))))) |}.

Definition shadow_framebuffer_of (s : nova_renderer) : framebuffer :=
  {| fb_width := shadowMapResolution (render_settings s);
     fb_height := shadowMapResolution (render_settings s);
     fb_attachments :=
       {[ 3 ]} ∪ ({[ 2 ]} ∪ ({[ 1 ]} ∪ ({[ 0 ]}
         ∪ builder_attachments (shadow_framebuffer_builder s)))) |}.

(** The run [r], started in [s], loaded the shaderpack [name] once, then
    wired its programs once, then built the main and the shadow
    framebuffer once each. *)
Definition reloaded (name : string) (s : nova_renderer) (r : result unit) : Prop :=
  let pack := load_shaderpack name in
  commands (events r) =
    [ELoadShaderpack name]
    ++ wiring_events (loaded_shaders pack)
    ++ [EBuildFramebuffer main_fb (main_framebuffer_of s);
        EBuildFramebuffer shadow_fb (shadow_framebuffer_of s)]
  ∧ loads (events r) = [name]
  ∧ registered (events r)
    = map (λ entry, Shader.gl_name entry.2) (map_to_list (loaded_shaders pack))
  ∧ built (events r)
    = [(main_fb, main_framebuffer_of s); (shadow_fb, shadow_framebuffer_of s)]
  ∧ loaded_shaderpack (final r) = Some pack
  ∧ main_framebuffer (final r) = Some (main_framebuffer_of s)
  ∧ shadow_framebuffer (final r) = Some (shadow_framebuffer_of s).

(** The run [r], started in [s], sent no command and changed nothing. *)
Definition untouched (s : nova_renderer) (r : result unit) : Prop :=
  commands (events r) = [] ∧ final r = s.

(** ** What rendering changes, and what it costs

    Rendering changes the renderer in one way only: the uniform-location
    cache of a loaded program gains entries. *)

Definition program_grows (p p' : Shader.gl_shader_program) : Prop :=
  Shader.gl_name p' = Shader.gl_name p
  ∧ Shader.name p' = Shader.name p
  ∧ Shader.added_shaders p' = Shader.added_shaders p
  ∧ Shader.filter p' = Shader.filter p
  ∧ Shader.uniform_locations p ⊆ Shader.uniform_locations p'.

Definition only_caches_grow (s s' : nova_renderer) : Prop :=
  meshes s' = meshes s
  ∧ textures s' = textures s
  ∧ render_settings s' = render_settings s
  ∧ player_camera s' = player_camera s
  ∧ main_framebuffer_builder s' = main_framebuffer_builder s
  ∧ shadow_framebuffer_builder s' = shadow_framebuffer_builder s
  ∧ main_framebuffer s' = main_framebuffer s
  ∧ shadow_framebuffer s' = shadow_framebuffer s
  ∧ match loaded_shaderpack s, loaded_shaderpack s' with
    | Some pack, Some pack' =>
        pack_name pack' = pack_name pack
        ∧ passes pack' = passes pack
        ∧ ∀ k, option_Forall2 program_grows
                 (loaded_shaders pack !! k) (loaded_shaders pack' !! k)
    | None, None => True
    | _, _ => False
    end.

(** The native lookups of "gbufferModel" the program under [key] can
    still cause: one while the location is not cached, none afterwards or
    when there is no such program. *)
Definition pending (s : nova_renderer) (key : string) : nat :=
  match loaded_shaderpack s with
  | Some pack =>
      match loaded_shaders pack !! key with
      | Some p =>
          match Shader.uniform_locations p !! "gbufferModel" with
          | Some _ => 0%nat
          | None => 1%nat
          end
      | None => 0%nat
      end
  | None => 0%nat
  end.

(** [h] is the handle of a program of the loaded shaderpack. *)
Definition loaded_handle (s : nova_renderer) (h : Z) : Prop :=
  ∃ k p, has_shader s k p ∧ Shader.gl_name p = h.

(** The events rendering may emit: anything but loading a shaderpack,
    wiring uniform buffers, deleting a program or building a framebuffer. *)
Definition render_only (e : event) : Prop :=
  match e with
  | ELoadShaderpack _ | ERegisterAllBuffers _ | EDeleteProgram _
  | EBuildFramebuffer _ _ => False
  | _ => True
  end.

(** What a pass over the program under [key] does, from [s] to [s'] with
    events [evs]. *)
Definition pass_effect (key : string) (s : nova_renderer) (evs : list event)
  (s' : nova_renderer) : Prop :=
  only_caches_grow s s'
  ∧ Forall (loaded_handle s) (used_programs evs)
  ∧ Forall render_only evs
  ∧ (length (Shader.native_lookups evs) + pending s' key ≤ pending s key)%nat.

(** The meshes a gbuffer-style pass draws from a bucket: those with
    uploaded data, in the order of the bucket. *)
Definition drawn_of_bucket (bucket : list render_object) : list Z :=
  map (λ g, mesh_id (geometry g))
      (List.filter (λ g, has_data (geometry g)) bucket).

(** What rendering with the programs under [keys] does, from [s] to [s']
    with events [evs]: over these programs together, every native lookup
    uses up one pending lookup. *)
Definition frame_effect (keys : list string) (s : nova_renderer) (evs : list event)
  (s' : nova_renderer) : Prop :=
  only_caches_grow s s'
  ∧ Forall (loaded_handle s) (used_programs evs)
  ∧ Forall render_only evs
  ∧ (length (Shader.native_lookups evs) + sum_list_with (pending s') keys
     ≤ sum_list_with (pending s) keys)%nat.

(** The keys of the programs a frame uses. *)
Definition frame_keys : list string := ["gbuffers_terrain"; "gbuffers_water"; "gui"].

(** The bucket a gbuffer-style pass over the program under [key] fetches:
    the one stored under the program's name. *)
Definition bucket_of (s : nova_renderer) (key : string) : list render_object :=
  match loaded_shaderpack s with
  | Some pack =>
      match loaded_shaders pack !! key with
      | Some p => meshes s (Shader.name p)
      | None => []
      end
  | None => []
  end.



(** The meshes a frame draws, in order: the terrain bucket's and the water
    bucket's renderables with data, then every GUI renderable. *)
Definition frame_draws (s : nova_renderer) : list Z :=
  drawn_of_bucket (bucket_of (after_upload s) "gbuffers_terrain")
  ++ drawn_of_bucket (bucket_of (after_upload s) "gbuffers_water")
  ++ map (λ g, mesh_id (geometry g)) (meshes (after_upload s) "gui").

(** ** What a draw call sees *)

(** The texture bound at [binding] after [evs], given the one bound there
    before. *)
Fixpoint bound_after (binding : Z) (bound : option Z) (evs : list event) : option Z :=
  match evs with
  | [] => bound
  | EBindTexture u t :: evs' =>
      bound_after binding (if u =? binding then Some t else bound) evs'
  | _ :: evs' => bound_after binding bound evs'
  end.

(** The texture bound at [binding] at each draw call of [evs]. *)
Fixpoint unit_at_draws (binding : Z) (bound : option Z) (evs : list event)
  : list (Z * option Z) :=
  match evs with
  | [] => []
  | EBindTexture u t :: evs' =>
      unit_at_draws binding (if u =? binding then Some t else bound) evs'
  | EDraw m :: evs' => (m, bound) :: unit_at_draws binding bound evs'
  | _ :: evs' => unit_at_draws binding bound evs'
  end.

(** The matrix of the last [glUniformMatrix4fv] after [evs]. *)
Fixpoint matrix_after (uploaded : option mat4) (evs : list event) : option mat4 :=
  match evs with
  | [] => uploaded
  | EUniformMatrix4fv _ m :: evs' => matrix_after (Some m) evs'
  | _ :: evs' => matrix_after uploaded evs'
  end.

(** The matrix of the last [glUniformMatrix4fv] before each draw call of
    [evs]. *)
Fixpoint matrix_at_draws (uploaded : option mat4) (evs : list event)
  : list (Z * option mat4) :=
  match evs with
  | [] => []
  | EUniformMatrix4fv _ m :: evs' => matrix_at_draws (Some m) evs'
  | EDraw mesh :: evs' => (mesh, uploaded) :: matrix_at_draws uploaded evs'
  | _ :: evs' => matrix_at_draws uploaded evs'
  end.

(** The model matrix [upload_model_matrix] builds for a renderable. *)
Definition model_matrix (geom : render_object) : mat4 :=
  glm_translate (mat4_diag (lit 1)) (position geom).

(** A draw call of a pass started in [s] sees the lightmap at its binding
    point. *)
Definition sees_lightmap (s : nova_renderer) (draw : Z * option Z) : Prop :=
  is_Some draw.2 ∧ draw.2 = textures s !! "lightmap".

Definition lit_pass (s : nova_renderer) (evs : list event) (s' : nova_renderer) : Prop :=
  same_handles s s' ∧ ∀ bound, Forall (sees_lightmap s) (unit_at_draws 3 bound evs).

(** The draw calls of a gbuffer-style pass over a bucket, each with the
    model matrix of its own renderable. *)
Definition own_matrices (bucket : list render_object) : list (Z * option mat4) :=
  map (λ g, (mesh_id (geometry g), Some (model_matrix g)))
      (List.filter (λ g, has_data (geometry g)) bucket).

(** The draw calls of the GUI pass over a bucket, each with the GUI model
    matrix of the settings. *)
Definition gui_matrices (config : settings) (bucket : list render_object)
  : list (Z * option mat4) :=
  map (λ g, (mesh_id (geometry g), Some (gui_model_matrix config))) bucket.

(** ** The exception of a failed link (gl_shader_program.h)

    [program_linking_failure(name)] is a [std::runtime_error] built from
    the [std::string] ["Program " + name + " failed to link"]. The
    exception hands its message out through [what()], a C string: what a
    reader of the exception sees ends at the first NUL character. *)

(** [std::string::c_str], read as a C string. *)
Fixpoint c_str (s : string) : string :=
  match s with
  | EmptyString => EmptyString
  | String c rest =>
      if Ascii.eqb c Ascii.zero then EmptyString else String c (c_str rest)
  end.

(** The string given to the constructor of [std::runtime_error]. *)
Definition program_linking_failure (name : string) : string :=
  "Program " +:+ name +:+ " failed to link".

(** [std::runtime_error::what] *)
Definition what (message : string) : string := c_str message.

(** ** The debug-output callback

    The values of the OpenGL enumerators the callback switches on. The
    labels of a C++ [switch] are pairwise distinct, so each [switch] is the
    chain of comparisons in the order of its labels. *)
Variables GL_DEBUG_SOURCE_API GL_DEBUG_SOURCE_WINDOW_SYSTEM
  GL_DEBUG_SOURCE_SHADER_COMPILER GL_DEBUG_SOURCE_THIRD_PARTY
  GL_DEBUG_SOURCE_APPLICATION GL_DEBUG_SOURCE_OTHER : Z.
Variables GL_DEBUG_TYPE_ERROR GL_DEBUG_TYPE_DEPRECATED_BEHAVIOR
  GL_DEBUG_TYPE_UNDEFINED_BEHAVIOR GL_DEBUG_TYPE_PORTABILITY
  GL_DEBUG_TYPE_PERFORMANCE GL_DEBUG_TYPE_MARKER GL_DEBUG_TYPE_PUSH_GROUP
  GL_DEBUG_TYPE_POP_GROUP GL_DEBUG_TYPE_OTHER : Z.
Variables GL_DEBUG_SEVERITY_HIGH GL_DEBUG_SEVERITY_MEDIUM GL_DEBUG_SEVERITY_LOW
  GL_DEBUG_SEVERITY_NOTIFICATION : Z.

Definition translate_debug_source (source : Z) : string :=
  if source =? GL_DEBUG_SOURCE_API then "API"
  else if source =? GL_DEBUG_SOURCE_WINDOW_SYSTEM then "window system"
  else if source =? GL_DEBUG_SOURCE_SHADER_COMPILER then "shader compiler"
  else if source =? GL_DEBUG_SOURCE_THIRD_PARTY then "third party"
  else if source =? GL_DEBUG_SOURCE_APPLICATION then "application"
  else if source =? GL_DEBUG_SOURCE_OTHER then "other"
  else "something else somehow".

Definition translate_debug_type (type : Z) : string :=
  if type =? GL_DEBUG_TYPE_ERROR then "error"
  else if type =? GL_DEBUG_TYPE_DEPRECATED_BEHAVIOR
    then "some behavior marked deprecated has been used"
  else if type =? GL_DEBUG_TYPE_UNDEFINED_BEHAVIOR
    then "something has invoked undefined behavior"
  else if type =? GL_DEBUG_TYPE_PORTABILITY
    then "some functionality the user relies upon is not portable"
  else if type =? GL_DEBUG_TYPE_PERFORMANCE
    then "code has triggered possible performance issues"
  else if type =? GL_DEBUG_TYPE_MARKER then "command stream annotation"
  else if type =? GL_DEBUG_TYPE_PUSH_GROUP then "group pushing"
  else if type =? GL_DEBUG_TYPE_POP_GROUP then "group popping"
  else if type =? GL_DEBUG_TYPE_OTHER then "other"
  else "something else somwhow".

(** [debug_logger(source, type, id, severity, length, message, user_param)];
    [id] is streamed in decimal, [length] and [user_param] are not used. *)
Definition debug_logger (source type : Z) (id : N) (severity : Z) (message : string)
  : M unit :=
  let source_name := translate_debug_source source in
  let type_name := translate_debug_type type in
  if severity =? GL_DEBUG_SEVERITY_HIGH then
    LOG ERROR [Text (pretty id); Text " - Message from "; Text source_name;
               Text " of type "; Text type_name; Text ": "; Text message]
  else if severity =? GL_DEBUG_SEVERITY_MEDIUM then
    LOG INFO [Text (pretty id); Text " - Message from "; Text source_name;
              Text " of type "; Text type_name; Text ": "; Text message]
  else if severity =? GL_DEBUG_SEVERITY_LOW then
    LOG DEBUG [Text (pretty id); Text " - Message from "; Text source_name;
               Text " of type "; Text type_name; Text ": "; Text message]
  else if severity =? GL_DEBUG_SEVERITY_NOTIFICATION then
    LOG TRACE [Text (pretty id); Text " - Message from "; Text source_name;
               Text " of type "; Text type_name; Text ": "; Text message]
  else
    LOG INFO [Text (pretty id); Text " - Message from "; Text source_name;
              Text " of type "; Text type_name; Text ": "; Text message].

(** The enumerators [translate_debug_source] and [translate_debug_type]
    know. *)
Definition known_sources : list Z :=
  [GL_DEBUG_SOURCE_API; GL_DEBUG_SOURCE_WINDOW_SYSTEM;
   GL_DEBUG_SOURCE_SHADER_COMPILER; GL_DEBUG_SOURCE_THIRD_PARTY;
   GL_DEBUG_SOURCE_APPLICATION; GL_DEBUG_SOURCE_OTHER].

Definition known_types : list Z :=
  [GL_DEBUG_TYPE_ERROR; GL_DEBUG_TYPE_DEPRECATED_BEHAVIOR;
   GL_DEBUG_TYPE_UNDEFINED_BEHAVIOR; GL_DEBUG_TYPE_PORTABILITY;
   GL_DEBUG_TYPE_PERFORMANCE; GL_DEBUG_TYPE_MARKER; GL_DEBUG_TYPE_PUSH_GROUP;
   GL_DEBUG_TYPE_POP_GROUP; GL_DEBUG_TYPE_OTHER].

(** ** Running computations *)

Lemma run_bind {A B : Type} (m : M A) (f : A → M B) (s : nova_renderer) :
  (m ≫= f) s =
  match outcome_of (m s) with
  | Returned a =>
      Result (events (m s) ++ events (f a (final (m s))))
             (final (f a (final (m s))))
             (outcome_of (f a (final (m s))))
  | Stopped why => Result (events (m s)) (final (m s)) (Stopped why)
  end.
Proof. reflexivity. Qed.

Lemma run_bind_returned {A B : Type} (m : M A) (f : A → M B) s evs s' a :
  m s = Result evs s' (Returned a) →
  (m ≫= f) s = Result (evs ++ events (f a s')) (final (f a s')) (outcome_of (f a s')).
Proof. intros H. rewrite run_bind, H. reflexivity. Qed.

Lemma run_bind_stopped {A B : Type} (m : M A) (f : A → M B) s evs s' why :
  m s = Result evs s' (Stopped why) →
  (m ≫= f) s = Result evs s' (Stopped why).
Proof. intros H. rewrite run_bind, H. reflexivity. Qed.

Lemma result_eta {A : Type} (r : result A) :
  r = Result (events r) (final r) (outcome_of r).
Proof. by destruct r. Qed.

Lemma for_each_cons {A : Type} (x : A) (xs : list A) (body : A → M unit) :
  for_each (x :: xs) body = (body x ;; for_each xs body).
Proof. reflexivity. Qed.

(** ** The shader program *)

Lemma get_uniform_location_hit p u location :
  Shader.uniform_locations p !! u = Some location →
  Shader.get_uniform_location glGetUniformLocation p u = ([], p, location).
Proof. intros H. unfold Shader.get_uniform_location. by rewrite H. Qed.

Lemma get_uniform_location_miss p u :
  Shader.uniform_locations p !! u = None →
  Shader.get_uniform_location glGetUniformLocation p u =
  ([EGetUniformLocation (Shader.gl_name p) u],
   {| Shader.gl_name := Shader.gl_name p;
      Shader.name := Shader.name p;
      Shader.added_shaders := Shader.added_shaders p;
      Shader.uniform_locations :=
        <[u := glGetUniformLocation (Shader.gl_name p) u]> (Shader.uniform_locations p);
      Shader.filter := Shader.filter p |},
   glGetUniformLocation (Shader.gl_name p) u).
Proof. intros H. unfold Shader.get_uniform_location. by rewrite H. Qed.

(** A lookup changes neither the handle nor the name nor the filter. *)
Lemma get_uniform_location_handle p u :
  let p' := (Shader.get_uniform_location glGetUniformLocation p u).1.2 in
  Shader.gl_name p' = Shader.gl_name p ∧ Shader.name p' = Shader.name p
  ∧ Shader.filter p' = Shader.filter p.
Proof.
  unfold Shader.get_uniform_location.
  by destruct (Shader.uniform_locations p !! u).
Qed.

Lemma get_uniform_location_times_hit n p u location :
  Shader.uniform_locations p !! u = Some location →
  Shader.get_uniform_location_times glGetUniformLocation n p u
  = ([], p, replicate n location).
Proof.
  intros H. induction n as [|n IH]; [done|].
  cbn [Shader.get_uniform_location_times].
  rewrite (get_uniform_location_hit _ _ _ H), IH. reflexivity.
Qed.

(** C4. From a compiled program that has not yet been asked for a uniform
    name, N >= 1 calls of [get_uniform_location] with that name issue
    exactly one native lookup, the one of the first call, and every call
    returns the driver's answer to it, whatever it is, the not-found
    sentinel -1 included; the answer stays cached in the program. *)
Theorem get_uniform_location_one_native_lookup p u (N : nat) :
  Shader.uniform_locations p !! u = None →
  (0 < N)%nat →
  let location := glGetUniformLocation (Shader.gl_name p) u in
  let r := Shader.get_uniform_location_times glGetUniformLocation N p u in
  (Shader.get_uniform_location glGetUniformLocation p u).1.1
    = [EGetUniformLocation (Shader.gl_name p) u]
  ∧ r.1.1 = [EGetUniformLocation (Shader.gl_name p) u]
  ∧ Shader.native_lookups r.1.1 = [(Shader.gl_name p, u)]
  ∧ r.2 = replicate N location
  ∧ Shader.uniform_locations r.1.2 !! u = Some location.
Proof.
  intros Hmiss HN. destruct N as [|n]; [lia|].
  cbn zeta. cbn [Shader.get_uniform_location_times].
  rewrite (get_uniform_location_miss _ _ Hmiss).
  erewrite get_uniform_location_times_hit by (cbn; apply lookup_insert_eq).
  cbn. rewrite lookup_insert_eq. done.
Qed.

(** At most one native lookup per uniform name, whatever names are
    requested and in whatever order: the lookups of a sequence of requests
    are pairwise distinct, each is for a requested name the program had not
    cached, and every request returns the value cached beforehand or else
    the driver's answer. *)
Lemma get_uniform_locations_no_repeat names :
  ∀ p,
    let r := Shader.get_uniform_locations glGetUniformLocation names p in
    NoDup (Shader.native_lookups r.1.1)
    ∧ (∀ h u, (h, u) ∈ Shader.native_lookups r.1.1 →
         h = Shader.gl_name p ∧ Shader.uniform_locations p !! u = None ∧ u ∈ names)
    ∧ Shader.gl_name r.1.2 = Shader.gl_name p
    ∧ r.2 = map (λ u, default (glGetUniformLocation (Shader.gl_name p) u)
                        (Shader.uniform_locations p !! u)) names.
Proof.
  induction names as [|u names IH]; intros p.
  - cbn. split_and!; [constructor|set_solver|done..].
  - cbn [Shader.get_uniform_locations].
    destruct (Shader.uniform_locations p !! u) as [location|] eqn:Hu.
    + rewrite (get_uniform_location_hit _ _ _ Hu).
      specialize (IH p).
      destruct (Shader.get_uniform_locations glGetUniformLocation names p)
        as [[evs p'] locations].
      cbn in *. destruct IH as (Hnodup & Hin & Hname & ->).
      split_and!; [done| |done|by rewrite Hu].
      intros h u' Hu'. destruct (Hin h u' Hu') as (? & ? & ?).
      split_and!; [done..|]. by right.
    + rewrite (get_uniform_location_miss _ _ Hu).
      match goal with
      | |- context [Shader.get_uniform_locations _ names ?q] =>
          specialize (IH q); set (p1 := q) in *
      end.
      destruct (Shader.get_uniform_locations glGetUniformLocation names p1)
        as [[evs p'] locations].
      cbn in IH. cbn.
      destruct IH as (Hnodup & Hin & Hname & ->).
      split_and!.
      * constructor; [|done]. intros Hdup.
        destruct (Hin _ _ Hdup) as (_ & Hnone & _).
        by rewrite lookup_insert_eq in Hnone.
      * intros h u' [Heq|Hu']%elem_of_cons.
        { simplify_eq. split_and!; [done..|]. by left. }
        destruct (Hin h u' Hu') as (-> & Hnone & ?).
        split_and!; [done| |by right].
        destruct (decide (u = u')) as [<-|Hne]; [done|].
        by rewrite lookup_insert_ne in Hnone.
      * done.
      * rewrite Hu. cbn. f_equal. apply map_ext. intros u'.
        destruct (decide (u = u')) as [<-|Hne].
        -- by rewrite lookup_insert_eq, Hu.
        -- by rewrite lookup_insert_ne.
Qed.

(** C3, as amended. Copy-construction duplicates every member, the GPU
    handle included, so destroying the copy releases what destroying the
    original releases; move-construction hands the handle, the name and the
    filter to the new object and nulls the handle of the source, whose
    destruction then releases nothing. *)
Theorem copy_duplicates_handle_move_transfers p :
  Shader.copy_construct p = p
  ∧ Shader.destroy (Shader.copy_construct p) = Shader.destroy p
  ∧ Shader.gl_name (Shader.move_construct p).1 = Shader.gl_name p
  ∧ Shader.name (Shader.move_construct p).1 = Shader.name p
  ∧ Shader.filter (Shader.move_construct p).1 = Shader.filter p
  ∧ Shader.gl_name (Shader.move_construct p).2 = 0
  ∧ Shader.destroy (Shader.move_construct p).2 = [].
Proof. by destruct p. Qed.

(** ** Rules for [wp] *)

Lemma wp_bind {A B : Type} (m : M A) (f : A → M B) s Q :
  wp m s (λ evs1 s1 o1,
    match o1 with
    | Returned a => wp (f a) s1 (λ evs2 s2 o2, Q (evs1 ++ evs2) s2 o2)
    | Stopped why => Q evs1 s1 (Stopped why)
    end) →
  wp (m ≫= f) s Q.
Proof.
  unfold wp. rewrite run_bind. by destruct (outcome_of (m s)).
Qed.

Lemma wp_ret {A : Type} (a : A) s (Q : list event → nova_renderer → outcome A → Prop) :
  Q [] s (Returned a) → wp (mret a) s Q.
Proof. done. Qed.

Lemma wp_emit evs s (Q : list event → nova_renderer → outcome unit → Prop) :
  Q evs s (Returned tt) → wp (emit evs) s Q.
Proof. done. Qed.

Lemma wp_throw {A : Type} e s (Q : list event → nova_renderer → outcome A → Prop) :
  Q [] s (Thrown e) → wp (throw e) s Q.
Proof. done. Qed.

Lemma wp_undefined {A : Type} s (Q : list event → nova_renderer → outcome A → Prop) :
  Q [] s Undefined → wp undefined s Q.
Proof. done. Qed.

Lemma wp_get s (Q : list event → nova_renderer → outcome nova_renderer → Prop) :
  Q [] s (Returned s) → wp get_renderer s Q.
Proof. done. Qed.

Lemma wp_put s' s (Q : list event → nova_renderer → outcome unit → Prop) :
  Q [] s' (Returned tt) → wp (put_renderer s') s Q.
Proof. done. Qed.

Lemma wp_mono {A : Type} (m : M A) s (Q Q' : list event → nova_renderer → outcome A → Prop) :
  wp m s Q → (∀ evs s' o, Q evs s' o → Q' evs s' o) → wp m s Q'.
Proof. unfold wp. auto. Qed.

Lemma wp_run {A : Type} (m : M A) s evs s' o :
  wp m s (λ evs0 s0 o0, evs0 = evs ∧ s0 = s' ∧ o0 = o) → m s = Result evs s' o.
Proof. unfold wp. intros (<- & <- & <-). apply result_eta. Qed.

(** One step of a run: through a bind, a primitive, or a branch. *)
Ltac wp_step :=
  lazymatch goal with
  | |- wp (_ ≫= _) _ _ => apply wp_bind
  | |- wp (mret _) _ _ => apply wp_ret
  | |- wp (emit _) _ _ => apply wp_emit
  | |- wp (throw _) _ _ => apply wp_throw
  | |- wp undefined _ _ => apply wp_undefined
  | |- wp get_renderer _ _ => apply wp_get
  | |- wp (put_renderer _) _ _ => apply wp_put
  | |- wp (if ?b then _ else _) _ _ => destruct b eqn:?
  | |- wp (match ?x with _ => _ end) _ _ => destruct x eqn:?
  | |- wp (let '(_, _) := ?x in _) _ _ => destruct x eqn:?
  end; cbv beta iota.

Ltac wp_steps := repeat wp_step.

Lemma wp_and {A : Type} (m : M A) s (Q1 Q2 : list event → nova_renderer → outcome A → Prop) :
  wp m s Q1 → wp m s Q2 → wp m s (λ evs s' o, Q1 evs s' o ∧ Q2 evs s' o).
Proof. unfold wp. auto. Qed.

(** A loop whose body always keeps [R] and emits events in [P]. *)
Lemma wp_for_each_always {A : Type} (P : list event → Prop)
  (R : nova_renderer → nova_renderer → Prop) (body : A → M unit) (xs : list A) :
  P [] → (∀ a b, P a → P b → P (a ++ b)) →
  (∀ s, R s s) → (∀ s1 s2 s3, R s1 s2 → R s2 s3 → R s1 s3) →
  (∀ x s, wp (body x) s (λ evs s' _, R s s' ∧ P evs)) →
  ∀ s, wp (for_each xs body) s (λ evs s' _, R s s' ∧ P evs).
Proof.
  intros Pnil Papp Rrefl Rtrans Hbody.
  induction xs as [|x xs IH]; intros s.
  - apply wp_ret. auto.
  - rewrite for_each_cons. apply wp_bind.
    eapply wp_mono; [apply (Hbody x s)|]. cbv beta.
    intros evs s' o [HR HP]. destruct o as [[]|e]; [|auto].
    eapply wp_mono; [apply (IH s')|]. cbv beta.
    intros evs2 s2 _ [HR2 HP2]. eauto.
Qed.

(** A loop whose body, under the invariant [Inv], returns, keeps [Inv] and
    shows [f x] through the selection [sel]. *)
Lemma wp_for_each {A B : Type} (sel : event → option B) (f : A → list B)
  (Inv : nova_renderer → Prop) (body : A → M unit) (xs : list A) :
  (∀ x s, x ∈ xs → Inv s →
     wp (body x) s (λ evs s' o, Inv s' ∧ o = Returned tt ∧ omap sel evs = f x)) →
  ∀ s, Inv s →
    wp (for_each xs body) s
       (λ evs s' o, Inv s' ∧ o = Returned tt ∧ omap sel evs = concat (map f xs)).
Proof.
  induction xs as [|x xs IH]; intros Hbody s HInv.
  - apply wp_ret. auto.
  - rewrite for_each_cons. apply wp_bind.
    eapply wp_mono; [apply (Hbody x s); [left|done]|]. cbv beta.
    intros evs s' o (HI & -> & Hsel).
    eapply wp_mono; [apply IH; [|done]|].
    + intros y s0 Hy. apply Hbody. by right.
    + cbv beta. intros evs2 s2 o2 (HI2 & -> & Hsel2).
      split_and!; [done..|]. by rewrite omap_app, Hsel, Hsel2.
Qed.

(** ** What a pass leaves alone *)

Lemma same_handles_refl s : same_handles s s.
Proof. unfold same_handles. by destruct (loaded_shaderpack s). Qed.

Lemma same_handles_trans s1 s2 s3 :
  same_handles s1 s2 → same_handles s2 s3 → same_handles s1 s3.
Proof.
  unfold same_handles. intros (Hm & Ht & Hr & Hp) (Hm' & Ht' & Hr' & Hp').
  split_and!; [congruence..|].
  destruct (loaded_shaderpack s1), (loaded_shaderpack s2), (loaded_shaderpack s3);
    try done.
  intros k. by rewrite Hp', Hp.
Qed.

Lemma handle_of_insert (shaders : gmap string Shader.gl_shader_program) k p p' :
  shaders !! k = Some p → handle_of p' = handle_of p →
  ∀ k', handle_of <$> <[k := p']> shaders !! k' = handle_of <$> shaders !! k'.
Proof.
  intros Hk Hh k'. destruct (decide (k = k')) as [<-|Hne].
  - by rewrite lookup_insert_eq, Hk; cbn; rewrite Hh.
  - by rewrite lookup_insert_ne.
Qed.

(** The equations a run leaves about [get_uniform_location]. *)
Ltac uniform_lookup :=
  repeat match goal with
  | H : Shader.get_uniform_location _ ?p ?u = _ |- _ =>
      unfold Shader.get_uniform_location in H;
      destruct (Shader.uniform_locations p !! u) eqn:?;
      simplify_eq
  end.

Ltac unfold_calls :=
  unfold upload_model_matrix, upload_gui_model_matrix, update_gbuffer_ubos,
    camera_recalculate_frustum, mesh_upload_new_geometry,
    shader_get_uniform_location, shader_bind, shader_get_name, get_shader,
    read_shader, write_shader, the_shaderpack, set_loaded_shaderpack,
    get_texture, texture_bind, get_meshes_for_shader, set_active, draw, LOG,
    profiler.start, profiler.end_, profiler.log_all_profiler_data.

Ltac same_handles_goal :=
  lazymatch goal with
  | |- same_handles ?s ?s => apply same_handles_refl
  | |- same_handles _ _ =>
      unfold same_handles; cbn;
      repeat match goal with H : loaded_shaderpack _ = _ |- _ => rewrite H end;
      split_and!; [done..|];
      cbn; eapply handle_of_insert; [eassumption|reflexivity]
  end.

Lemma process_renderable_quiet k g s :
  wp (process_renderable k g) s (λ evs s' _,
    same_handles s s'
    ∧ steps evs = [] ∧ clears evs = []
    ∧ used_programs evs = [] ∧ fetched_buckets evs = []).
Proof.
  unfold process_renderable. unfold_calls. wp_steps; uniform_lookup.
  all: split; [same_handles_goal | done].
Qed.

Lemma same_handles_has_shader s s' k p :
  same_handles s s' → has_shader s k p →
  ∃ p', has_shader s' k p' ∧ handle_of p' = handle_of p.
Proof.
  intros (_ & _ & _ & Hp) (pack & Hpack & Hk). unfold has_shader.
  rewrite Hpack in Hp. destruct (loaded_shaderpack s') as [pack'|]; [|done].
  specialize (Hp k). rewrite Hk in Hp.
  destruct (loaded_shaders pack' !! k) as [p'|] eqn:Hk'; [|done].
  exists p'. split; [eauto|]. cbn in Hp. congruence.
Qed.

(** Rewrites with the equations of the context, then evaluates. *)
Ltac rewrite_eqs :=
  repeat match goal with
  | H : ?x = _ |- context [?x] => rewrite H
  end.

(** Closes the runs that throw although the renderable is ready. *)
Ltac not_ready Hready :=
  exfalso; revert Hready;
  repeat match goal with
  | H : negb _ = true |- _ => apply negb_true_iff in H
  | H : negb _ = false |- _ => apply negb_false_iff in H
  end;
  unfold renderable_ready, gui_object_ready, color_name, texture_known;
  rewrite_eqs; cbn; rewrite_eqs; done.

Lemma process_renderable_returns k g s p :
  has_shader s k p → renderable_ready (textures s) g = true →
  wp (process_renderable k g) s (λ _ _ o, o = Returned tt).
Proof.
  intros (pack & Hpack & Hk) Hready.
  unfold process_renderable. unfold_calls. wp_steps; uniform_lookup.
  all: try done.
  all: try congruence.
  all: not_ready Hready.
Qed.

Lemma omap_none {A B : Type} (l : list A) : omap (λ _, @None B) l = [].
Proof. by induction l. Qed.

(** The loop of [render_shader]. *)
Lemma process_all_spec k gs s p :
  has_shader s k p →
  wp (for_each gs (process_renderable k)) s (λ evs s' o,
    (same_handles s s'
     ∧ steps evs = [] ∧ clears evs = []
     ∧ used_programs evs = [] ∧ fetched_buckets evs = [])
    ∧ (forallb (renderable_ready (textures s)) gs = true → o = Returned tt)).
Proof.
  intros Hk. apply wp_and.
  - apply (wp_for_each_always
             (λ evs, steps evs = [] ∧ clears evs = []
                     ∧ used_programs evs = [] ∧ fetched_buckets evs = [])
             same_handles).
    + done.
    + unfold steps, clears, used_programs, fetched_buckets.
      intros a b Ha Hb. rewrite !omap_app.
      destruct Ha as (-> & -> & -> & ->), Hb as (-> & -> & -> & ->). done.
    + apply same_handles_refl.
    + apply same_handles_trans.
    + apply process_renderable_quiet.
  - unfold wp. intros Hready.
    rewrite forallb_forall in Hready.
    pose proof (wp_for_each (B := unit) (λ _, None) (λ _, [])
                  (same_handles s) (process_renderable k) gs) as Hloop.
    unfold wp in Hloop. apply Hloop; [|apply same_handles_refl].
    intros g s1 Hg Hs1.
    destruct (same_handles_has_shader _ _ _ _ Hs1 Hk) as (p1 & Hk1 & _).
    pose proof (process_renderable_quiet k g s1) as (Hsame & _).
    pose proof (process_renderable_returns k g s1 p1 Hk1) as Hret.
    unfold wp in Hret.
    split_and!.
    + eapply same_handles_trans; [exact Hs1|exact Hsame].
    + apply Hret. destruct Hs1 as (_ & -> & _). by apply Hready, list_elem_of_In.
    + apply omap_none.
Qed.

(** Simplifies a selection of a list of events built with [++]. *)
Ltac select_events :=
  unfold steps, clears, used_programs, fetched_buckets, drawn, texture_binds,
    matrix_uploads, commands, loads, registered, built in *;
  rewrite ?omap_app; cbn; rewrite_eqs; cbn.

Lemma render_shader_spec k s p :
  has_shader s k p →
  wp (render_shader k) s (λ evs s' o,
    same_handles s s'
    ∧ steps evs = [] ∧ clears evs = []
    ∧ used_programs evs = [Shader.gl_name p]
    ∧ fetched_buckets evs = [Shader.name p]
    ∧ (shader_ready s k = true → o = Returned tt)).
Proof.
  intros Hk. pose proof Hk as (pack & Hpack & Hp).
  unfold render_shader. unfold_calls. wp_steps; try congruence.
  eapply wp_mono; [apply (process_all_spec k _ s p Hk)|]. cbv beta.
  intros evs s' o ((Hsame & Hst & Hcl & Hup & Hfb) & Hret).
  assert (shader_ready s k = true → o = Returned tt) as Hret'.
  { unfold shader_ready. simplify_eq. rewrite_eqs. exact Hret. }
  destruct o as [[]|e]; wp_steps; simplify_eq.
  all: split_and!; [done|select_events; done..|done].
Qed.

Lemma same_handles_shader_ready s s' k :
  same_handles s s' → shader_ready s' k = shader_ready s k.
Proof.
  intros (Hm & Ht & _ & Hp). unfold shader_ready. rewrite Hm, Ht.
  destruct (loaded_shaderpack s) as [pack|], (loaded_shaderpack s') as [pack'|];
    try done.
  specialize (Hp k).
  destruct (loaded_shaders pack !! k) as [p|], (loaded_shaders pack' !! k) as [p'|];
    try done.
  cbn in Hp. unfold handle_of in Hp. injection Hp as _ Hn. by rewrite Hn.
Qed.

Lemma same_handles_gui_ready s s' :
  same_handles s s' → gui_ready s' = gui_ready s.
Proof.
  intros (Hm & Ht & _ & Hp). unfold gui_ready. rewrite Hm, Ht.
  destruct (loaded_shaderpack s) as [pack|], (loaded_shaderpack s') as [pack'|];
    try done.
  specialize (Hp "gui").
  by destruct (loaded_shaders pack !! "gui"), (loaded_shaders pack' !! "gui").
Qed.

Ltac has_shader_goal := eexists; split; eassumption.

Lemma render_gbuffers_spec s :
  wp render_gbuffers s (λ evs s' o,
    same_handles s s'
    ∧ steps evs = [GBufferPasses] ∧ clears evs = []
    ∧ ∀ terrain water,
        has_shader s "gbuffers_terrain" terrain →
        has_shader s "gbuffers_water" water →
        shader_ready s "gbuffers_terrain" = true →
        shader_ready s "gbuffers_water" = true →
        o = Returned tt
        ∧ used_programs evs = [Shader.gl_name terrain; Shader.gl_name water]
        ∧ fetched_buckets evs = [Shader.name terrain; Shader.name water]).
Proof.
  unfold render_gbuffers, get_shader, the_shaderpack, LOG. wp_steps.
  - eapply wp_mono; [eapply render_shader_spec; has_shader_goal|].
    cbv beta. intros evsA sA oA (Hsame1 & Hst1 & Hcl1 & Hup1 & Hfb1 & Hret1).
    destruct oA as [[]|eA]; wp_steps.
    + eapply wp_mono; [eapply render_shader_spec; has_shader_goal|].
      cbv beta. intros evsB sB oB (Hsame2 & Hst2 & Hcl2 & Hup2 & Hfb2 & Hret2).
      split_and!.
      * by eapply same_handles_trans.
      * select_events. done.
      * select_events. done.
      * intros terrain water Ht Hw Hrt Hrw.
        destruct Ht as (pack & ? & ?). simplify_eq.
        destruct (same_handles_has_shader _ _ _ _ Hsame1 Hw) as (w1 & (pack1 & ? & ?) & Hh).
        unfold handle_of in Hh. simplify_eq.
        rewrite <- (same_handles_shader_ready _ _ _ Hsame1) in Hrw.
        split_and!; [by apply Hret2|select_events; congruence..].
    + split_and!; [done|select_events; done..|].
      intros terrain water Ht Hw Hrt Hrw. exfalso.
      destruct (same_handles_has_shader _ _ _ _ Hsame1 Hw) as (w1 & (pack1 & ? & ?) & Hh).
      congruence.
    + split_and!; [done|select_events; done..|].
      intros terrain water Ht Hw Hrt Hrw. exfalso.
      destruct (same_handles_has_shader _ _ _ _ Hsame1 Hw) as (w1 & (pack1 & ? & ?) & Hh).
      congruence.
    + split_and!; [done|select_events; done..|].
      intros terrain water (pack & ? & ?) Hw Hrt Hrw. simplify_eq.
      specialize (Hret1 Hrt). done.
  - split_and!; [apply same_handles_refl|done..|].
    intros terrain water (pack & ? & ?). congruence.
  - split_and!; [apply same_handles_refl|done..|].
    intros terrain water (pack & ? & ?). congruence.
Qed.

(** ** The GUI pass *)

Lemma binds_unit0_only_app a b :
  binds_unit0_only a → binds_unit0_only b → binds_unit0_only (a ++ b).
Proof.
  unfold binds_unit0_only, texture_binds. rewrite omap_app. apply Forall_app_2.
Qed.

Lemma render_gui_object_spec g s :
  wp (render_gui_object g) s (λ evs s' o,
    (s' = s
     ∧ steps evs = [] ∧ clears evs = [] ∧ matrix_uploads evs = []
     ∧ used_programs evs = [] ∧ binds_unit0_only evs)
    ∧ (gui_object_ready (textures s) g = true →
       o = Returned tt ∧ commands evs = gui_object_commands (textures s) g)).
Proof.
  unfold render_gui_object. unfold_calls. wp_steps.
  all: split; [split_and!; try done; repeat constructor|].
  all: intros Hready; try (not_ready Hready).
  all: split; [done|].
  all: unfold gui_object_commands, optional_bind, color_name.
  all: repeat match goal with
       | H : negb _ = true |- _ => apply negb_true_iff in H
       | H : negb _ = false |- _ => apply negb_false_iff in H
       end.
  all: rewrite_eqs; done.
Qed.

Lemma render_gui_objects_spec gs s :
  wp (for_each gs render_gui_object) s (λ evs s' o,
    (s' = s
     ∧ steps evs = [] ∧ clears evs = [] ∧ matrix_uploads evs = []
     ∧ used_programs evs = [] ∧ binds_unit0_only evs)
    ∧ (forallb (gui_object_ready (textures s)) gs = true →
       o = Returned tt
       ∧ commands evs = concat (map (gui_object_commands (textures s)) gs))).
Proof.
  apply wp_and.
  - pose proof (wp_for_each_always
             (λ evs, steps evs = [] ∧ clears evs = [] ∧ matrix_uploads evs = []
                     ∧ used_programs evs = [] ∧ binds_unit0_only evs)
             eq render_gui_object gs) as Hloop.
    eapply wp_mono; [apply Hloop|].
    + split_and!; try done. constructor.
    + unfold steps, clears, matrix_uploads, used_programs.
      intros a b Ha Hb. rewrite !omap_app.
      destruct Ha as (-> & -> & -> & -> & ?), Hb as (-> & -> & -> & -> & ?).
      split_and!; try done. by apply binds_unit0_only_app.
    + done.
    + congruence.
    + intros g s0. eapply wp_mono; [apply render_gui_object_spec|].
      cbv beta. intros evs s' o ((-> & ?) & _). done.
    + cbv beta. intros evs s' o (-> & ?). done.
  - unfold wp. intros Hready. rewrite forallb_forall in Hready.
    pose proof (wp_for_each (λ e, if is_command e then Some e else None)
                  (gui_object_commands (textures s))
                  (λ s', s' = s) render_gui_object gs) as Hloop.
    unfold wp in Hloop. apply Hloop; [|done].
    intros g s1 Hg ->.
    pose proof (render_gui_object_spec g s) as ((-> & _) & Hret).
    split; [done|]. by apply Hret, Hready, list_elem_of_In.
Qed.

Lemma render_gui_spec s :
  wp render_gui s (λ evs s' o,
    same_handles s s'
    ∧ steps evs = [GUIPass] ∧ clears evs = [(false, true)]
    ∧ binds_unit0_only evs
    ∧ ∀ p, has_shader s "gui" p → gui_ready s = true →
        let lookup := Shader.get_uniform_location glGetUniformLocation p "gbufferModel" in
        o = Returned tt
        ∧ commands evs =
            [EClear false true; EUseProgram (Shader.gl_name p)]
            ++ lookup.1.1
            ++ [EUniformMatrix4fv lookup.2 (gui_model_matrix (render_settings s));
                EGetMeshesForShader "gui"]
            ++ concat (map (gui_object_commands (textures s)) (meshes s "gui"))).
Proof.
  unfold render_gui. unfold_calls. wp_steps; uniform_lookup.
  all: try (eapply wp_mono; [apply render_gui_objects_spec|]; cbv beta;
            intros evsL sL oL ((-> & HstL & HclL & HmuL & HupL & HbL) & HretL);
            cbn [textures meshes] in HretL).
  all: split; [same_handles_goal|].
  all: split; [select_events; done|].
  all: split; [select_events; done|].
  all: split;
    [repeat first [apply binds_unit0_only_app|done|constructor]|].
  all: intros p (pack & Hpack & Hp) Hready; try congruence.
  all: simplify_eq.
  all: revert Hready; unfold gui_ready; rewrite_eqs; intros Hready.
  all: destruct (HretL Hready) as (-> & Hcmd).
  - erewrite get_uniform_location_hit by eassumption.
    split; [done|]. select_events. done.
  - rewrite get_uniform_location_miss by assumption.
    split; [done|]. select_events. done.
Qed.

(** ** The frame *)

Lemma shader_ready_has_shader s k :
  shader_ready s k = true → ∃ p, has_shader s k p.
Proof.
  unfold shader_ready, has_shader.
  destruct (loaded_shaderpack s) as [pack|]; [|done].
  destruct (loaded_shaders pack !! k) as [p|] eqn:Hp; [|done]. eauto.
Qed.

Lemma gui_ready_has_shader s :
  gui_ready s = true → ∃ p, has_shader s "gui" p.
Proof.
  unfold gui_ready, has_shader.
  destruct (loaded_shaderpack s) as [pack|]; [|done].
  destruct (loaded_shaders pack !! "gui") as [p|] eqn:Hp; [|done]. eauto.
Qed.


(** ** Selections of the commands *)

Lemma drawn_commands evs : drawn evs = drawn (commands evs).
Proof.
  unfold drawn, commands.
  induction evs as [|e evs IH]; [done|].
  destruct e; cbn; rewrite ?IH; done.
Qed.

Lemma texture_binds_commands evs : texture_binds evs = texture_binds (commands evs).
Proof.
  unfold texture_binds, commands.
  induction evs as [|e evs IH]; [done|].
  destruct e; cbn; rewrite ?IH; done.
Qed.

Lemma matrix_uploads_commands evs : matrix_uploads evs = matrix_uploads (commands evs).
Proof.
  unfold matrix_uploads, commands.
  induction evs as [|e evs IH]; [done|].
  destruct e; cbn; rewrite ?IH; done.
Qed.

(** ** Renderables in a gbuffer pass *)

Lemma process_renderable_skip k g s :
  has_data (geometry g) = false →
  process_renderable k g s
  = Result [EProfilerStart "process_renderable";
            ELog TRACE [Text "Skipping some geometry since it has no data"];
            EProfilerEnd "process_renderable"] s (Returned tt).
Proof.
  intros Hdata. apply wp_run.
  unfold process_renderable. unfold_calls. rewrite Hdata. by wp_steps.
Qed.

Lemma process_all_filter k gs :
  ∀ s,
    let r := for_each gs (process_renderable k) s in
    let r' := for_each (List.filter (λ g, has_data (geometry g)) gs)
                (process_renderable k) s in
    commands (events r) = commands (events r')
    ∧ final r = final r' ∧ outcome_of r = outcome_of r'.
Proof.
  induction gs as [|g gs IH]; intros s; [done|].
  cbn [List.filter]. destruct (has_data (geometry g)) eqn:Hdata.
  - cbv zeta. rewrite !for_each_cons, !run_bind.
    destruct (outcome_of (process_renderable k g s)) as [[]|e]; [|done].
    cbn [events final outcome_of].
    destruct (IH (final (process_renderable k g s))) as (Hc & Hf & Ho).
    cbv zeta in Hc, Hf, Ho. unfold commands in *.
    by rewrite !omap_app, Hc, Hf, Ho.
  - cbv zeta. rewrite for_each_cons.
    rewrite (run_bind_returned _ _ _ _ _ _ (process_renderable_skip k g s Hdata)).
    cbn [events final outcome_of]. apply IH.
Qed.

Lemma filter_skip (g : render_object) l1 l2 :
  has_data (geometry g) = false →
  List.filter (λ g, has_data (geometry g)) (l1 ++ g :: l2)
  = List.filter (λ g, has_data (geometry g)) (l1 ++ l2).
Proof.
  intros Hdata. rewrite !List.filter_app. cbn. by rewrite Hdata.
Qed.

(** C5. In the loop of a gbuffer-style pass a renderable whose geometry
    has no uploaded data is skipped: it only logs, changes nothing and
    raises no error; and wherever it stands in the bucket, the pass sends
    the same commands, in the same order (texture binds, uniform uploads,
    draws), ends in the same renderer and with the same outcome as if the
    renderable were not in the bucket. *)
Theorem renderable_without_data_is_skipped k g l1 l2 s :
  has_data (geometry g) = false →
  process_renderable k g s
  = Result [EProfilerStart "process_renderable";
            ELog TRACE [Text "Skipping some geometry since it has no data"];
            EProfilerEnd "process_renderable"] s (Returned tt)
  ∧ let r := for_each (l1 ++ g :: l2) (process_renderable k) s in
    let r' := for_each (l1 ++ l2) (process_renderable k) s in
    commands (events r) = commands (events r')
    ∧ drawn (events r) = drawn (events r')
    ∧ texture_binds (events r) = texture_binds (events r')
    ∧ final r = final r'
    ∧ outcome_of r = outcome_of r'.
Proof.
  intros Hdata. split; [by apply process_renderable_skip|]. cbv zeta.
  destruct (process_all_filter k (l1 ++ g :: l2) s) as (Hc & Hf & Ho).
  destruct (process_all_filter k (l1 ++ l2) s) as (Hc' & Hf' & Ho').
  cbv zeta in *. rewrite (filter_skip g l1 l2 Hdata) in Hc, Hf, Ho.
  assert (commands (events (for_each (l1 ++ g :: l2) (process_renderable k) s))
          = commands (events (for_each (l1 ++ l2) (process_renderable k) s)))
    as Hcommands by congruence.
  split_and!; [done| | |congruence..].
  - rewrite (drawn_commands (events (for_each (l1 ++ g :: l2) _ s))).
    rewrite (drawn_commands (events (for_each (l1 ++ l2) _ s))).
    by rewrite Hcommands.
  - rewrite (texture_binds_commands (events (for_each (l1 ++ g :: l2) _ s))).
    rewrite (texture_binds_commands (events (for_each (l1 ++ l2) _ s))).
    by rewrite Hcommands.
Qed.

(** Closes the runs excluded by what is known of the textures. *)
Ltac known_textures :=
  repeat match goal with
  | H : negb _ = true |- _ => apply negb_true_iff in H
  | H : negb _ = false |- _ => apply negb_false_iff in H
  end;
  repeat match goal with
  | H : texture_known _ _ = true |- _ => revert H
  end;
  unfold color_name, texture_known, optional_bind;
  rewrite_eqs; cbn; rewrite_eqs.

(** C6, as amended. A renderable with uploaded data, in a pass whose
    program is loaded, asks the texture manager for its colour texture, its
    normal map and its data texture, each only if it names one, then for the
    "lightmap", and binds them at 0, 1, 2 and 3 as they are found. If all
    of them are known the pass returns normally after these binds, then
    uploads the model matrix (the translation to the renderable's position)
    and only then issues the draw call. At the first name the texture
    manager does not know, optional texture or lightmap alike, the pass
    throws the lookup's not-found error after the binds made so far, and
    neither uploads nor draws. A texture the renderable does not name is
    never asked for and cannot fail. *)
Theorem drawn_renderable_bindings k g s p :
  has_data (geometry g) = true →
  has_shader s k p →
  let r := process_renderable k g s in
  let lookup := Shader.get_uniform_location glGetUniformLocation p "gbufferModel" in
  let bound := bind_requested (textures s) (requested_textures g) in
  match bound.2 with
  | None =>
      outcome_of r = Returned tt
      ∧ commands (events r) =
          bound.1
          ++ lookup.1.1
          ++ [EUniformMatrix4fv lookup.2 (glm_translate (mat4_diag (lit 1)) (position g));
              ESetActive (mesh_id (geometry g));
              EDraw (mesh_id (geometry g))]
  | Some missing =>
      outcome_of r = Thrown (texture_not_found missing)
      ∧ commands (events r) = bound.1
  end.
Proof.
  intros Hdata (pack & Hpack & Hp). cbv zeta.
  change (wp (process_renderable k g) s (λ evs _ o,
    match (bind_requested (textures s) (requested_textures g)).2 with
    | None =>
        o = Returned tt
        ∧ commands evs =
            (bind_requested (textures s) (requested_textures g)).1
            ++ (Shader.get_uniform_location glGetUniformLocation p "gbufferModel").1.1
            ++ [EUniformMatrix4fv
                  (Shader.get_uniform_location glGetUniformLocation p "gbufferModel").2
                  (glm_translate (mat4_diag (lit 1)) (position g));
                ESetActive (mesh_id (geometry g));
                EDraw (mesh_id (geometry g))]
    | Some missing =>
        o = Thrown (texture_not_found missing)
        ∧ commands evs = (bind_requested (textures s) (requested_textures g)).1
    end)).
  unfold process_renderable. unfold_calls. rewrite Hdata.
  wp_steps; simplify_eq.
  all: repeat match goal with
       | H : negb _ = true |- _ => apply negb_true_iff in H
       | H : negb _ = false |- _ => apply negb_false_iff in H
       end.
  all: unfold requested_textures, color_name; rewrite_eqs; cbn; rewrite_eqs; cbn.
  all: uniform_lookup; select_events; done.
Qed.


(** ** The order of the spec *)

Lemma insert_pass_perm m sorted : insert_pass m sorted ≡ₚ m :: sorted.
Proof.
  induction sorted as [|m' rest IH]; [done|]. cbn.
  destruct (Materials.pass_index m <=? Materials.pass_index m'); [done|].
  rewrite IH. apply Permutation_swap.
Qed.

Lemma sort_passes_perm ms : sort_passes ms ≡ₚ ms.
Proof.
  induction ms as [|m ms IH]; [done|]. cbn.
  by rewrite insert_pass_perm, IH.
Qed.

Lemma insert_pass_sorted m sorted :
  Sorted (λ a b, Materials.pass_index a ≤ Materials.pass_index b) sorted →
  Sorted (λ a b, Materials.pass_index a ≤ Materials.pass_index b) (insert_pass m sorted).
Proof.
  induction 1 as [|m' rest Hrest IH Hhd]; cbn.
  - by repeat constructor.
  - destruct (Materials.pass_index m <=? Materials.pass_index m') eqn:Hle.
    + apply Z.leb_le in Hle. by repeat constructor.
    + apply Z.leb_gt in Hle. constructor; [done|].
      destruct Hhd as [|m'' rest' Hle']; cbn.
      * constructor. lia.
      * destruct (Materials.pass_index m <=? Materials.pass_index m'');
          constructor; lia.
Qed.

Lemma sort_passes_sorted ms :
  Sorted (λ a b, Materials.pass_index a ≤ Materials.pass_index b) (sort_passes ms).
Proof.
  induction ms as [|m ms IH]; [constructor|]. by apply insert_pass_sorted.
Qed.

(** ** The claims on the passes and on the frame *)

(** C2, as amended. With "gbuffers_terrain" and "gbuffers_water" loaded and
    their buckets ready, the gbuffer step runs exactly these two programs,
    terrain first and water second, whatever the pass indices and whatever
    other passes the shaderpack has: it binds each program and fetches the
    bucket of geometry stored under the program's name. *)
Theorem render_gbuffers_two_fixed_passes s terrain water :
  has_shader s "gbuffers_terrain" terrain →
  has_shader s "gbuffers_water" water →
  shader_ready s "gbuffers_terrain" = true →
  shader_ready s "gbuffers_water" = true →
  let r := render_gbuffers s in
  outcome_of r = Returned tt
  ∧ used_programs (events r) = [Shader.gl_name terrain; Shader.gl_name water]
  ∧ fetched_buckets (events r) = [Shader.name terrain; Shader.name water].
Proof.
  intros Ht Hw Hrt Hrw.
  pose proof (render_gbuffers_spec s) as (_ & _ & _ & H).
  by apply H.
Qed.

(** *** A pass that returns was ready, and what it then sent *)













(** *** The viewport transform of the GUI *)

Lemma inject_Z_nonzero (z : Z) : z ≠ 0 → ¬ (inject_Z z == 0)%Q.
Proof.
  intros Hz Heq. apply Hz. unfold Qeq in Heq. cbn in Heq. lia.
Qed.

(** What the matrix of [upload_gui_model_matrix] does to a point of the
    GUI. *)
Lemma gui_model_matrix_viewport config (x y z : Q) :
  viewWidth config ≠ 0 → viewHeight config ≠ 0 →
  same_point
    (mat4_apply (gui_model_matrix config) (x, y, z, 1%Q))
    (scalefactor config * x / inject_Z (viewWidth config) - 1,
     1 - scalefactor config * y / inject_Z (viewHeight config),
     z, 1)%Q.
Proof.
  intros Hw%inject_Z_nonzero Hh%inject_Z_nonzero.
  unfold same_point, gui_model_matrix, lit. cbn.
  split_and!; field; assumption.
Qed.

(** C8. With the "gui" program loaded and the colour textures of the GUI
    renderables known, the GUI pass returns normally and sends exactly:
    one clear, of the depth buffer only; the bind of the "gui" program; the
    upload of one matrix; the fetch of the "gui" bucket; and then, for
    every renderable of the bucket in order, its colour-texture bind (if it
    names one), set_active and draw. The matrix uploaded is the viewport
    transform of the configured view width, view height and scale factor:
    read in exact arithmetic, it is the orthographic map that sends the
    point (x, y, z) of the GUI to
    (scalefactor * x / viewWidth - 1, 1 - scalefactor * y / viewHeight, z),
    the origin to the top-left corner (-1, 1), with y pointing down. *)
Theorem render_gui_commands s p :
  has_shader s "gui" p →
  gui_ready s = true →
  let r := render_gui s in
  let lookup := Shader.get_uniform_location glGetUniformLocation p "gbufferModel" in
  let config := render_settings s in
  ∃ transform,
    outcome_of r = Returned tt
    ∧ clears (events r) = [(false, true)]
    ∧ commands (events r) =
        [EClear false true; EUseProgram (Shader.gl_name p)]
        ++ lookup.1.1
        ++ [EUniformMatrix4fv lookup.2 transform; EGetMeshesForShader "gui"]
        ++ concat (map (gui_object_commands (textures s)) (meshes s "gui"))
    ∧ (viewWidth config ≠ 0 → viewHeight config ≠ 0 →
       ∀ x y z : Q,
         same_point
           (mat4_apply transform (x, y, z, 1%Q))
           (scalefactor config * x / inject_Z (viewWidth config) - 1,
            1 - scalefactor config * y / inject_Z (viewHeight config),
            z, 1)%Q).
Proof.
  intros Hp Hready. cbv zeta.
  pose proof (render_gui_spec s) as (_ & _ & Hclears & _ & H).
  destruct (H p Hp Hready) as (Hret & Hcommands).
  exists (gui_model_matrix (render_settings s)).
  split_and!; [done..|].
  intros Hw Hh x y z. by apply gui_model_matrix_viewport.
Qed.

Lemma gui_objects_drawn T gs :
  drawn (concat (map (gui_object_commands T) gs))
  = map (λ g, mesh_id (geometry g)) gs
  ∧ matrix_uploads (concat (map (gui_object_commands T) gs)) = [].
Proof.
  induction gs as [|g gs (IHd & IHm)]; [done|].
  cbn [map concat]. unfold drawn, matrix_uploads in *. rewrite !omap_app, IHd, IHm.
  unfold gui_object_commands, optional_bind.
  by destruct (color_name g) as [c|]; [destruct (T !! c)|].
Qed.

(** C9. With the "gui" program loaded and the colour textures of the GUI
    renderables known, the GUI pass draws every renderable of the "gui"
    bucket, in order, whether its geometry has uploaded data or not; it
    binds textures at binding point 0 only, so no lightmap at 3; and its
    only matrix upload is the one viewport transform, none per renderable.
    The gbuffer-style path, in contrast, draws nothing for a renderable
    without data. *)
Theorem render_gui_draws_unconditionally s p :
  has_shader s "gui" p →
  gui_ready s = true →
  let r := render_gui s in
  let lookup := Shader.get_uniform_location glGetUniformLocation p "gbufferModel" in
  drawn (events r) = map (λ g, mesh_id (geometry g)) (meshes s "gui")
  ∧ binds_unit0_only (events r)
  ∧ matrix_uploads (events r) = [(lookup.2, gui_model_matrix (render_settings s))]
  ∧ ∀ k g s0, has_data (geometry g) = false →
      drawn (events (process_renderable k g s0)) = [].
Proof.
  intros Hp Hready. cbv zeta.
  pose proof (render_gui_spec s) as (_ & _ & _ & Hbinds & H).
  destruct (H p Hp Hready) as (_ & Hcommands).
  destruct (gui_objects_drawn (textures s) (meshes s "gui")) as (Hd & Hm).
  split_and!.
  - rewrite drawn_commands, Hcommands. unfold drawn in *.
    rewrite !omap_app, Hd.
    unfold Shader.get_uniform_location.
    by destruct (Shader.uniform_locations p !! "gbufferModel").
  - done.
  - rewrite matrix_uploads_commands, Hcommands. unfold matrix_uploads in *.
    rewrite !omap_app, Hm.
    unfold Shader.get_uniform_location.
    by destruct (Shader.uniform_locations p !! "gbufferModel").
  - intros k g s0 Hdata. by rewrite (process_renderable_skip k g s0 Hdata).
Qed.

(** ** The reaction to a configuration change *)

Lemma link_up_entries_spec (entries : list (string * Shader.gl_shader_program)) s :
  wp (for_each entries (λ entry,
        let shader := Shader.copy_construct entry.2 in
        emit [ERegisterAllBuffers (Shader.gl_name shader)] ;;
        emit (Shader.destroy shader))) s
     (λ evs s' o,
        s' = s ∧ o = Returned tt
        ∧ evs = concat (map (λ entry : string * Shader.gl_shader_program,
                               ERegisterAllBuffers (Shader.gl_name entry.2)
                               :: Shader.destroy entry.2) entries)).
Proof.
  induction entries as [|[key p] entries IH].
  - by apply wp_ret.
  - rewrite for_each_cons. cbv zeta. wp_steps.
    eapply wp_mono; [apply IH|]. cbv beta. intros evs s' o (-> & -> & ->).
    by destruct p.
Qed.

Lemma link_up_uniform_buffers_spec shaders s :
  wp (link_up_uniform_buffers shaders) s
     (λ evs s' o, s' = s ∧ o = Returned tt ∧ evs = wiring_events shaders).
Proof. apply link_up_entries_spec. Qed.

Lemma wiring_events_selected shaders :
  commands (wiring_events shaders) = wiring_events shaders
  ∧ loads (wiring_events shaders) = []
  ∧ built (wiring_events shaders) = []
  ∧ registered (wiring_events shaders)
    = map (λ entry, Shader.gl_name entry.2) (map_to_list shaders).
Proof.
  unfold wiring_events.
  induction (map_to_list shaders) as [|[key p] entries (IHc & IHl & IHb & IHr)];
    [done|].
  cbn [map concat]. unfold commands, loads, built, registered in *.
  rewrite !omap_app, IHc, IHl, IHb, IHr. unfold Shader.destroy. cbn.
  by destruct (Shader.gl_name p =? 0).
Qed.

Lemma loads_commands evs : loads evs = loads (commands evs).
Proof.
  unfold loads, commands.
  induction evs as [|e evs IH]; [done|].
  destruct e; cbn; rewrite ?IH; done.
Qed.

Lemma registered_commands evs : registered evs = registered (commands evs).
Proof.
  unfold registered, commands.
  induction evs as [|e evs IH]; [done|].
  destruct e; cbn; rewrite ?IH; done.
Qed.

Lemma built_commands evs : built evs = built (commands evs).
Proof.
  unfold built, commands.
  induction evs as [|e evs IH]; [done|].
  destruct e; cbn; rewrite ?IH; done.
Qed.

Lemma reloaded_ext name s (r r' : result unit) :
  commands (events r') = commands (events r) → final r' = final r →
  reloaded name s r → reloaded name s r'.
Proof.
  unfold reloaded. intros Hc Hf.
  rewrite (loads_commands (events r)), (loads_commands (events r')).
  rewrite (registered_commands (events r)), (registered_commands (events r')).
  rewrite (built_commands (events r)), (built_commands (events r')).
  by rewrite Hc, Hf.
Qed.

Lemma load_new_shaderpack_spec name s :
  wp (load_new_shaderpack name) s (λ evs s' o,
    o = Returned tt ∧ reloaded name s (Result evs s' o)).
Proof.
  unfold load_new_shaderpack, create_framebuffers_from_shaderpack, build_framebuffer,
    set_main_framebuffer_builder, set_shadow_framebuffer_builder,
    set_main_framebuffer, set_shadow_framebuffer.
  unfold_calls. cbn [build enable_color_attachment set_framebuffer_size
                     builder_size builder_attachments].
  wp_steps.
  eapply wp_mono; [apply link_up_uniform_buffers_spec|]. cbv beta.
  all: try (intros evs s' o (-> & -> & ->); wp_steps).
  all: cbn [loaded_shaderpack meshes textures render_settings player_camera
            main_framebuffer_builder shadow_framebuffer_builder
            main_framebuffer shadow_framebuffer] in *.
  all: simplify_eq.
  split; [done|].
  unfold reloaded, main_framebuffer_of, shadow_framebuffer_of.
  cbn [events final loaded_shaderpack main_framebuffer shadow_framebuffer].
  destruct (wiring_events_selected (loaded_shaders (load_shaderpack name)))
    as (Hc & Hl & Hb & Hr).
  unfold commands, loads, built, registered in *.
  rewrite !omap_app, Hc, Hl, Hb, Hr. cbn.
  rewrite !app_nil_r. done.
Qed.

(** C1. A configuration-change notification that names a shaderpack
    always returns; if no shaderpack is loaded, or the loaded one has
    another name, it loads the named shaderpack once, then wires the uniform
    buffer store once over the loaded programs, then builds the main and the
    shadow framebuffer once each, in that order; if the loaded shaderpack
    has that name it sends no command and changes nothing. *)
Theorem on_config_change_reloads_iff_new name s :
  let r := on_config_change (json_string name) s in
  outcome_of r = Returned tt
  ∧ match loaded_shaderpack s with
    | None => reloaded name s r
    | Some loaded =>
        if decide (pack_name loaded = name) then untouched s r else reloaded name s r
    end.
Proof.
  cbv zeta.
  change (wp (on_config_change (json_string name)) s (λ evs s' o,
    o = Returned tt
    ∧ match loaded_shaderpack s with
      | None => reloaded name s (Result evs s' o)
      | Some loaded =>
          if decide (pack_name loaded = name)
          then untouched s (Result evs s' o)
          else reloaded name s (Result evs s' o)
      end)).
  unfold on_config_change, json_to_string, json_ne_string, LOG. wp_steps.
  all: try (eapply wp_mono; [apply load_new_shaderpack_spec|]; cbv beta;
            intros evsL sL oL (-> & HL); wp_steps).
  all: split; [done|].
  - destruct (decide (pack_name s0 = name)) as [<-|_].
    + by rewrite String.eqb_refl in *.
    + eapply reloaded_ext; [| |exact HL]; [|done].
      cbn [events]. unfold commands. rewrite !omap_app. cbn.
      by rewrite app_nil_r.
  - destruct (decide (pack_name s0 = name)) as [_|Hne]; [done|].
    exfalso. apply Hne. symmetry. apply String.eqb_eq.
    by apply negb_false_iff.
  - eapply reloaded_ext; [| |exact HL]; [|done].
    cbn [events]. unfold commands. by rewrite !omap_app.
Qed.
(** [tauto] on the goal and its hypotheses, the section's functions left
    out. *)
Ltac prop_tauto :=
  try clear glGetUniformLocation; try clear load_shaderpack;
  try clear upload_new_geometry; try clear recalculate_frustum; tauto.


(** ** What rendering changes, and what it costs *)

Lemma program_grows_refl p : program_grows p p.
Proof. by unfold program_grows. Qed.

Lemma program_grows_trans p1 p2 p3 :
  program_grows p1 p2 → program_grows p2 p3 → program_grows p1 p3.
Proof.
  unfold program_grows. intros (? & ? & ? & ? & ?) (? & ? & ? & ? & ?).
  split_and!; [congruence..|]. by etrans.
Qed.

Lemma only_caches_grow_refl s : only_caches_grow s s.
Proof.
  unfold only_caches_grow. split_and!; [done..|].
  destruct (loaded_shaderpack s) as [pack|]; [|done].
  split_and!; [done..|]. intros k.
  destruct (loaded_shaders pack !! k); constructor. apply program_grows_refl.
Qed.

Lemma only_caches_grow_trans s1 s2 s3 :
  only_caches_grow s1 s2 → only_caches_grow s2 s3 → only_caches_grow s1 s3.
Proof.
  unfold only_caches_grow.
  intros (? & ? & ? & ? & ? & ? & ? & ? & H12) (? & ? & ? & ? & ? & ? & ? & ? & H23).
  split_and!; [congruence..|].
  destruct (loaded_shaderpack s1) as [pack1|], (loaded_shaderpack s2) as [pack2|],
    (loaded_shaderpack s3) as [pack3|]; try done.
  destruct H12 as (? & ? & H12), H23 as (? & ? & H23).
  split_and!; [congruence..|]. intros k.
  specialize (H12 k). specialize (H23 k).
  destruct H12 as [p1 p2 Hp12|]; inversion H23; subst; constructor.
  by eapply program_grows_trans.
Qed.

Lemma only_caches_grow_insert s pack k p p' :
  loaded_shaderpack s = Some pack →
  loaded_shaders pack !! k = Some p →
  program_grows p p' →
  only_caches_grow s
    {| loaded_shaderpack :=
         Some {| pack_name := pack_name pack;
                 loaded_shaders := <[k := p']> (loaded_shaders pack);
                 passes := passes pack |};
       meshes := meshes s;
       textures := textures s;
       render_settings := render_settings s;
       player_camera := player_camera s;
       main_framebuffer_builder := main_framebuffer_builder s;
       shadow_framebuffer_builder := shadow_framebuffer_builder s;
       main_framebuffer := main_framebuffer s;
       shadow_framebuffer := shadow_framebuffer s |}.
Proof.
  intros Hpack Hk Hgrows. unfold only_caches_grow. cbn. rewrite Hpack.
  split_and!; [done..|]. intros k'.
  destruct (decide (k = k')) as [<-|Hne].
  - rewrite lookup_insert_eq, Hk. by constructor.
  - rewrite lookup_insert_ne by done.
    destruct (loaded_shaders pack !! k'); constructor. apply program_grows_refl.
Qed.

Lemma only_caches_grow_same_handles s s' :
  only_caches_grow s s' → same_handles s s'.
Proof.
  unfold only_caches_grow, same_handles.
  intros (? & ? & ? & _ & _ & _ & _ & _ & H). split_and!; [done..|].
  destruct (loaded_shaderpack s), (loaded_shaderpack s'); try done.
  destruct H as (_ & _ & H). intros k. specialize (H k).
  destruct H as [p p' (Hh & Hn & _)|]; [|done].
  cbn. unfold handle_of. by rewrite Hh, Hn.
Qed.

Lemma only_caches_grow_pending s s' k :
  only_caches_grow s s' → (pending s' k ≤ pending s k)%nat.
Proof.
  unfold only_caches_grow, pending.
  intros (_ & _ & _ & _ & _ & _ & _ & _ & H).
  destruct (loaded_shaderpack s), (loaded_shaderpack s'); try done.
  destruct H as (_ & _ & H). specialize (H k).
  destruct H as [p p' (_ & _ & _ & _ & Hsub)|]; [|done].
  destruct (Shader.uniform_locations p !! "gbufferModel") as [l|] eqn:Hl; [|
    destruct (Shader.uniform_locations p' !! "gbufferModel"); lia].
  by rewrite (lookup_weaken _ _ _ _ Hl Hsub).
Qed.

Lemma only_caches_grow_loaded_handle s s' h :
  only_caches_grow s s' → loaded_handle s' h → loaded_handle s h.
Proof.
  unfold only_caches_grow, loaded_handle, has_shader.
  intros (_ & _ & _ & _ & _ & _ & _ & _ & H) (k & p' & (pack' & Hpack' & Hp') & Hh).
  rewrite Hpack' in H. destruct (loaded_shaderpack s) as [pack|]; [|done].
  destruct H as (_ & _ & H). specialize (H k). rewrite Hp' in H.
  inversion H as [p ? (Hg & _) Hp|]; subst.
  exists k, p. split; [eauto|done].
Qed.

Lemma pass_effect_refl k s : pass_effect k s [] s.
Proof.
  unfold pass_effect. split_and!; [apply only_caches_grow_refl|constructor..|done].
Qed.

Lemma pass_effect_app k s1 evs1 s2 evs2 s3 :
  pass_effect k s1 evs1 s2 → pass_effect k s2 evs2 s3 →
  pass_effect k s1 (evs1 ++ evs2) s3.
Proof.
  unfold pass_effect. intros (Hg1 & Hu1 & Hr1 & Hb1) (Hg2 & Hu2 & Hr2 & Hb2).
  split_and!.
  - by eapply only_caches_grow_trans.
  - unfold used_programs in *. rewrite omap_app. apply Forall_app_2; [done|].
    eapply Forall_impl; [exact Hu2|]. intros h. by apply only_caches_grow_loaded_handle.
  - by apply Forall_app_2.
  - unfold Shader.native_lookups in *. rewrite omap_app, length_app. lia.
Qed.

(** A loop whose body has an effect [J] that composes. *)
Lemma wp_for_each_joint {A : Type}
  (J : nova_renderer → list event → nova_renderer → Prop)
  (body : A → M unit) (xs : list A) :
  (∀ s, J s [] s) →
  (∀ s1 evs1 s2 evs2 s3, J s1 evs1 s2 → J s2 evs2 s3 → J s1 (evs1 ++ evs2) s3) →
  (∀ x s, wp (body x) s (λ evs s' _, J s evs s')) →
  ∀ s, wp (for_each xs body) s (λ evs s' _, J s evs s').
Proof.
  intros Jnil Japp Hbody. induction xs as [|x xs IH]; intros s.
  - apply wp_ret. apply Jnil.
  - rewrite for_each_cons. apply wp_bind.
    eapply wp_mono; [apply (Hbody x s)|]. cbv beta.
    intros evs s' o HJ. destruct o as [[]|e]; [|done].
    eapply wp_mono; [apply (IH s')|]. cbv beta. eauto.
Qed.

(** Proves the effect of a run whose events and final renderer are known. *)
Ltac pass_effect_goal :=
  unfold pass_effect; split_and!;
  [ first [ apply only_caches_grow_refl
          | eapply only_caches_grow_insert; [eassumption..|];
            unfold program_grows; cbn; split_and!; [done..|];
            first [done | by apply insert_subseteq] ]
  | cbn; repeat constructor
  | cbn; repeat constructor
  | unfold pending; cbn; rewrite_eqs; rewrite ?lookup_insert_eq; cbn;
    rewrite_eqs; rewrite ?lookup_insert_eq; cbn; lia ].

Lemma process_renderable_effect k g s :
  wp (process_renderable k g) s (λ evs s' _, pass_effect k s evs s').
Proof.
  unfold process_renderable. unfold_calls. wp_steps; uniform_lookup.
  all: pass_effect_goal.
Qed.

Lemma process_all_effect k gs s :
  wp (for_each gs (process_renderable k)) s (λ evs s' _, pass_effect k s evs s').
Proof.
  apply (wp_for_each_joint (pass_effect k)).
  - apply pass_effect_refl.
  - apply pass_effect_app.
  - apply process_renderable_effect.
Qed.

Lemma pass_effect_cons k s e evs s' :
  pass_effect k s [e] s → pass_effect k s evs s' → pass_effect k s (e :: evs) s'.
Proof. apply (pass_effect_app k s [e] s evs s'). Qed.

(** The effect of one event that is no native lookup and changes nothing. *)
Ltac pass_effect_event :=
  unfold pass_effect; split_and!;
  [ apply only_caches_grow_refl
  | cbn;
    repeat first
      [ apply Forall_nil_2
      | apply Forall_cons_2;
        [eexists _, _; split; [eexists; split; eassumption|reflexivity]|] ]
  | cbn; repeat constructor
  | cbn; lia ].

Lemma process_renderable_drawn k g s p :
  has_shader s k p → renderable_ready (textures s) g = true →
  wp (process_renderable k g) s (λ evs _ o,
    o = Returned tt
    ∧ drawn evs = if has_data (geometry g) then [mesh_id (geometry g)] else []).
Proof.
  intros (pack & Hpack & Hk) Hready.
  unfold process_renderable. unfold_calls. wp_steps; uniform_lookup.
  all: try congruence.
  all: try (not_ready Hready).
  all: split; [done|]; cbn; by rewrite_eqs.
Qed.

Lemma drawn_of_bucket_concat gs :
  concat (map (λ g, if has_data (geometry g) then [mesh_id (geometry g)] else []) gs)
  = drawn_of_bucket gs.
Proof.
  unfold drawn_of_bucket. induction gs as [|g gs IH]; [done|]. cbn.
  rewrite IH. by destruct (has_data (geometry g)).
Qed.

Lemma process_all_drawn k gs s p :
  has_shader s k p →
  forallb (renderable_ready (textures s)) gs = true →
  wp (for_each gs (process_renderable k)) s (λ evs _ o,
    o = Returned tt ∧ drawn evs = drawn_of_bucket gs).
Proof.
  intros Hk Hready. rewrite forallb_forall in Hready.
  rewrite <- drawn_of_bucket_concat.
  eapply wp_mono.
  - apply (wp_for_each
             (λ e, match e with EDraw m => Some m | _ => None end)
             (λ g, if has_data (geometry g) then [mesh_id (geometry g)] else [])
             (same_handles s) (process_renderable k) gs); [|apply same_handles_refl].
    intros g s1 Hg Hs1.
    destruct (same_handles_has_shader _ _ _ _ Hs1 Hk) as (p1 & Hk1 & _).
    pose proof (process_renderable_quiet k g s1) as (Hsame & _).
    assert (renderable_ready (textures s1) g = true) as Hready1.
    { destruct Hs1 as (_ & -> & _). by apply Hready, list_elem_of_In. }
    pose proof (process_renderable_drawn k g s1 p1 Hk1 Hready1) as (Hret & Hdrawn).
    split_and!; [by eapply same_handles_trans|done..].
  - cbv beta. by intros evs s' o (_ & ? & ?).
Qed.

Lemma process_all_drawn_if_ready k gs s p :
  has_shader s k p →
  wp (for_each gs (process_renderable k)) s (λ evs _ o,
    forallb (renderable_ready (textures s)) gs = true →
    o = Returned tt ∧ drawn evs = drawn_of_bucket gs).
Proof. intros Hk. unfold wp. intros H. exact (process_all_drawn k gs s p Hk H). Qed.

(** Peels the events of a run off the front of a [pass_effect] goal. *)
Ltac pass_effect_peel :=
  cbn [app]; rewrite ?app_nil_r;
  repeat (apply pass_effect_cons; [pass_effect_event|]).

Lemma render_shader_effect k s :
  wp (render_shader k) s (λ evs s' o,
    pass_effect k s evs s'
    ∧ ∀ p, has_shader s k p → shader_ready s k = true →
        o = Returned tt ∧ drawn evs = drawn_of_bucket (meshes s (Shader.name p))).
Proof.
  unfold render_shader. unfold_calls. wp_steps; simplify_eq.
  2-3: split; [pass_effect_goal|intros p (pack & ? & ?); congruence].
  eapply wp_mono;
    [apply wp_and; [apply process_all_effect|
                    eapply process_all_drawn_if_ready; has_shader_goal]|].
  cbv beta. intros evs s' o [Heffect Hdrawn].
  destruct o as [[]|e]; wp_steps.
  - split.
    + pass_effect_peel.
      eapply pass_effect_app; [exact Heffect|]. pass_effect_peel.
      apply pass_effect_refl.
    + intros p (pack & ? & ?) Hready. simplify_eq.
      revert Hready. unfold shader_ready. rewrite_eqs. intros Hready.
      destruct (Hdrawn Hready) as (_ & Hd). split; [done|].
      unfold drawn in *. rewrite !omap_app, Hd. cbn. by rewrite ?app_nil_r.
  - split.
    + pass_effect_peel. exact Heffect.
    + intros p (pack & ? & ?) Hready. simplify_eq.
      revert Hready. unfold shader_ready. rewrite_eqs. intros Hready.
      by destruct (Hdrawn Hready).
Qed.

Lemma only_caches_grow_pending_sum s s' keys :
  only_caches_grow s s' →
  (sum_list_with (pending s') keys ≤ sum_list_with (pending s) keys)%nat.
Proof.
  intros Hg. induction keys as [|k keys IH]; [done|]. cbn.
  pose proof (only_caches_grow_pending s s' k Hg). lia.
Qed.

Lemma pass_effect_frame_effect k keys s evs s' :
  k ∈ keys → pass_effect k s evs s' → frame_effect keys s evs s'.
Proof.
  intros Hk (Hg & Hu & Hr & Hb). unfold frame_effect. split_and!; [done..|].
  apply list_elem_of_split in Hk as (l1 & l2 & ->).
  rewrite !sum_list_with_app. cbn.
  pose proof (only_caches_grow_pending_sum s s' l1 Hg).
  pose proof (only_caches_grow_pending_sum s s' l2 Hg). lia.
Qed.

Lemma frame_effect_refl keys s : frame_effect keys s [] s.
Proof.
  unfold frame_effect. split_and!; [apply only_caches_grow_refl|constructor..|done].
Qed.

Lemma frame_effect_app keys s1 evs1 s2 evs2 s3 :
  frame_effect keys s1 evs1 s2 → frame_effect keys s2 evs2 s3 →
  frame_effect keys s1 (evs1 ++ evs2) s3.
Proof.
  unfold frame_effect. intros (Hg1 & Hu1 & Hr1 & Hb1) (Hg2 & Hu2 & Hr2 & Hb2).
  split_and!.
  - by eapply only_caches_grow_trans.
  - unfold used_programs in *. rewrite omap_app. apply Forall_app_2; [done|].
    eapply Forall_impl; [exact Hu2|]. intros h. by apply only_caches_grow_loaded_handle.
  - by apply Forall_app_2.
  - unfold Shader.native_lookups in *. rewrite omap_app, length_app. lia.
Qed.

Lemma only_caches_grow_shader_ready s s' k :
  only_caches_grow s s' → shader_ready s' k = shader_ready s k.
Proof. intros H. by apply same_handles_shader_ready, only_caches_grow_same_handles. Qed.

Lemma render_gbuffers_effect s :
  wp render_gbuffers s (λ evs s' o,
    frame_effect ["gbuffers_terrain"; "gbuffers_water"] s evs s'
    ∧ ∀ terrain water,
        has_shader s "gbuffers_terrain" terrain →
        has_shader s "gbuffers_water" water →
        shader_ready s "gbuffers_terrain" = true →
        shader_ready s "gbuffers_water" = true →
        o = Returned tt
        ∧ drawn evs = drawn_of_bucket (meshes s (Shader.name terrain))
                      ++ drawn_of_bucket (meshes s (Shader.name water))).
Proof.
  unfold render_gbuffers, get_shader, the_shaderpack, LOG. wp_steps.
  2-3: split;
    [apply (pass_effect_frame_effect "gbuffers_terrain"); [by repeat constructor|];
     pass_effect_peel; apply pass_effect_refl
    |intros terrain water (pack & ? & ?); congruence].
  eapply wp_mono; [apply render_shader_effect|].
  cbv beta. intros evsA sA oA [HeA HdA].
  assert (frame_effect ["gbuffers_terrain"; "gbuffers_water"] s
            (ELog TRACE [Text "Rendering gbuffer pass"] :: evsA) sA) as HfA.
  { apply (pass_effect_frame_effect "gbuffers_terrain"); [by repeat constructor|].
    apply pass_effect_cons; [pass_effect_event|done]. }
  pose proof HeA as (HgA & _).
  destruct oA as [[]|eA]; wp_steps.
  - eapply wp_mono; [apply render_shader_effect|].
    cbv beta. intros evsB sB oB [HeB HdB].
    split.
    + cbn [app]. rewrite ?app_nil_r.
      apply (frame_effect_app _ s (_ :: evsA) sA evsB sB); [done|].
      apply (pass_effect_frame_effect "gbuffers_water"); [by repeat constructor|done].
    + intros terrain water Ht Hw Hrt Hrw.
      destruct (HdA terrain Ht Hrt) as (_ & HdrawnA).
      destruct (same_handles_has_shader _ _ _ _
                  (only_caches_grow_same_handles _ _ HgA) Hw) as (waterA & HwA & Hh).
      rewrite <- (only_caches_grow_shader_ready _ _ _ HgA) in Hrw.
      destruct (HdB waterA HwA Hrw) as [HretB HdrawnB].
      split; [exact HretB|].
      unfold handle_of in Hh. injection Hh as _ Hname.
      destruct HgA as (Hmeshes & _). rewrite Hmeshes, Hname in HdrawnB.
      unfold drawn in *. rewrite !omap_app, HdrawnA, HdrawnB. cbn.
      by rewrite ?app_nil_r.
  - split; [cbn [app]; by rewrite ?app_nil_r|].
    intros terrain water Ht Hw Hrt Hrw. exfalso.
    destruct (same_handles_has_shader _ _ _ _
                (only_caches_grow_same_handles _ _ HgA) Hw)
      as (waterA & (packA & ? & ?) & _). congruence.
  - split; [cbn [app]; by rewrite ?app_nil_r|].
    intros terrain water Ht Hw Hrt Hrw. exfalso.
    destruct (same_handles_has_shader _ _ _ _
                (only_caches_grow_same_handles _ _ HgA) Hw)
      as (waterA & (packA & ? & ?) & _). congruence.
  - split; [cbn [app]; by rewrite ?app_nil_r|].
    intros terrain water Ht Hw Hrt Hrw.
    by destruct (HdA terrain Ht Hrt).
Qed.

Lemma upload_gui_model_matrix_effect k s :
  wp (upload_gui_model_matrix k) s (λ evs s' o,
    pass_effect k s evs s' ∧ (o = Returned tt → pending s' k = 0%nat)).
Proof.
  unfold upload_gui_model_matrix. unfold_calls. wp_steps; uniform_lookup.
  all: split; [pass_effect_goal|try done].
  all: intros _; unfold pending; cbn; by rewrite lookup_insert_eq; cbn; rewrite_eqs;
         rewrite ?lookup_insert_eq.
Qed.

Lemma render_gui_object_effect k g s :
  wp (render_gui_object g) s (λ evs s' _, pass_effect k s evs s').
Proof.
  unfold render_gui_object. unfold_calls. wp_steps.
  all: pass_effect_goal.
Qed.

Lemma render_gui_objects_effect k gs s :
  wp (for_each gs render_gui_object) s (λ evs s' _, pass_effect k s evs s').
Proof.
  apply (wp_for_each_joint (pass_effect k)).
  - apply pass_effect_refl.
  - apply pass_effect_app.
  - intros g s0. apply render_gui_object_effect.
Qed.

Lemma render_gui_effect s :
  wp render_gui s (λ evs s' o,
    pass_effect "gui" s evs s' ∧ (o = Returned tt → pending s' "gui" = 0%nat)).
Proof.
  unfold render_gui, get_shader, shader_bind, read_shader, the_shaderpack,
    get_meshes_for_shader, LOG.
  wp_steps; simplify_eq.
  2-3: split; [pass_effect_peel; apply pass_effect_refl|done].
  eapply wp_mono; [apply upload_gui_model_matrix_effect|].
  cbv beta. intros evsU sU oU [HeU HpU].
  destruct oU as [[]|eU]; wp_steps.
  - eapply wp_mono; [apply (render_gui_objects_effect "gui")|].
    cbv beta. intros evsL sL oL HeL. split.
    + pass_effect_peel. eapply pass_effect_app; [exact HeU|].
      pass_effect_peel. exact HeL.
    + intros _. destruct HeL as (HgL & _).
      pose proof (only_caches_grow_pending _ _ "gui" HgL). specialize (HpU eq_refl). lia.
  - split; [|done]. pass_effect_peel. exact HeU.
Qed.

Lemma render_gui_drawn s p :
  has_shader s "gui" p → gui_ready s = true →
  wp render_gui s (λ evs _ o,
    o = Returned tt ∧ drawn evs = map (λ g, mesh_id (geometry g)) (meshes s "gui")).
Proof.
  intros Hp Hready. unfold wp.
  pose proof (render_gui_spec s) as (_ & _ & _ & _ & H).
  destruct (H p Hp Hready) as (Hret & Hcommands). split; [done|].
  destruct (gui_objects_drawn (textures s) (meshes s "gui")) as (Hd & _).
  rewrite drawn_commands, Hcommands. unfold drawn in *.
  rewrite !omap_app, Hd. unfold Shader.get_uniform_location.
  by destruct (Shader.uniform_locations p !! "gbufferModel").
Qed.

Lemma only_caches_grow_gui_ready s s' :
  only_caches_grow s s' → gui_ready s' = gui_ready s.
Proof. intros H. by apply same_handles_gui_ready, only_caches_grow_same_handles. Qed.

Lemma frame_effect_cons keys s e evs s' :
  frame_effect keys s [e] s → frame_effect keys s evs s' →
  frame_effect keys s (e :: evs) s'.
Proof. apply (frame_effect_app keys s [e] s evs s'). Qed.

(** The effect of one event that uses no program, is no native lookup and
    changes nothing. *)
Ltac frame_effect_event :=
  unfold frame_effect; split_and!;
  [apply only_caches_grow_refl|cbn; constructor|cbn; repeat constructor|cbn; lia].

Ltac frame_effect_peel :=
  cbn [app]; rewrite ?app_nil_r;
  repeat (apply frame_effect_cons; [frame_effect_event|]).

Lemma bucket_of_has_shader s k p :
  has_shader s k p → bucket_of s k = meshes s (Shader.name p).
Proof. intros (pack & Hpack & Hp). unfold bucket_of. by rewrite Hpack, Hp. Qed.

Lemma render_frame_effect s :
  wp render_frame s (λ evs s' o,
    frame_effect frame_keys (frame_start s) evs s'
    ∧ (clears evs = [(true, true)] ∨ clears evs = [(true, true); (false, true)])
    ∧ (o = Returned tt →
       clears evs = [(true, true); (false, true)] ∧ pending s' "gui" = 0%nat)
    ∧ (frame_ready s = true → drawn evs = frame_draws s)).
Proof.
  unfold render_frame, mesh_upload_new_geometry, render_shadow_pass,
    render_composite_passes, render_final_pass. unfold_calls.
  wp_steps.
  match goal with |- wp render_gbuffers ?s0 _ => change s0 with (frame_start s) end.
  eapply wp_mono;
    [apply wp_and; [apply render_gbuffers_effect|apply render_gbuffers_spec]|].
  cbv beta. intros evsG sG oG [[HeG HdG] (_ & _ & HclG & HretG)].
  pose proof HeG as (HgG & _).
  assert (frame_effect frame_keys (frame_start s) evsG sG) as HfG.
  { destruct HeG as (? & ? & ? & Hb). unfold frame_effect, frame_keys.
    split_and!; [done..|].
    pose proof (only_caches_grow_pending _ _ "gui" HgG). cbn in *. lia. }
  assert (frame_ready s = true →
          oG = Returned tt ∧ gui_ready sG = true
          ∧ drawn evsG = drawn_of_bucket (bucket_of (after_upload s) "gbuffers_terrain")
                         ++ drawn_of_bucket (bucket_of (after_upload s) "gbuffers_water"))
    as HreadyG.
  { unfold frame_ready, passes_ready.
    intros [[Ht Hw]%andb_prop Hg]%andb_prop.
    destruct (shader_ready_has_shader _ _ Ht) as (terrain & Hterrain).
    destruct (shader_ready_has_shader _ _ Hw) as (water & Hwater).
    destruct (HdG terrain water Hterrain Hwater Ht Hw) as (Hret & Hdrawn).
    rewrite (bucket_of_has_shader _ _ _ Hterrain), (bucket_of_has_shader _ _ _ Hwater).
    split_and!; [done| |done].
    by rewrite (only_caches_grow_gui_ready _ _ HgG). }
  destruct oG as [[]|eG]; wp_steps.
  - eapply wp_mono;
      [apply wp_and; [apply wp_and; [apply render_gui_effect|apply render_gui_spec]|
         apply (wp_mono _ _ (λ evs s' o, ∀ p, has_shader sG "gui" p → gui_ready sG = true →
                  o = Returned tt
                  ∧ drawn evs = map (λ g, mesh_id (geometry g)) (meshes sG "gui"))
                  (λ evs s' o, ∀ p, has_shader sG "gui" p → gui_ready sG = true →
                  o = Returned tt
                  ∧ drawn evs = map (λ g, mesh_id (geometry g)) (meshes sG "gui")));
           [unfold wp; intros p Hp Hr; exact (render_gui_drawn sG p Hp Hr)|done]]|].
    cbv beta. intros evsU sU oU [[[HeU HpU] (_ & _ & HclU & _)] HdU].
    assert (frame_effect frame_keys sG evsU sU) as HfU.
    { apply (pass_effect_frame_effect "gui"); [by repeat constructor|done]. }
    assert (frame_ready s = true →
            oU = Returned tt
            ∧ drawn evsG ++ drawn evsU = frame_draws s) as HreadyU.
    { intros Hready. destruct (HreadyG Hready) as (_ & Hgui & Hdrawn).
      destruct (gui_ready_has_shader _ Hgui) as (p & Hp).
      destruct (HdU p Hp Hgui) as [HretU HdrawnU]. split; [exact HretU|].
      unfold frame_draws. destruct HgG as (Hm & _).
      change (meshes (frame_start s)) with (meshes (after_upload s)) in Hm.
      rewrite <- Hm.
      by rewrite Hdrawn, HdrawnU, <- app_assoc. }
    destruct oU as [[]|eU]; wp_steps.
    + split_and!.
      * frame_effect_peel. eapply frame_effect_app; [exact HfG|].
        frame_effect_peel. eapply frame_effect_app; [exact HfU|].
        frame_effect_peel. apply frame_effect_refl.
      * right. unfold clears in *. rewrite !omap_app, HclG, HclU. done.
      * intros _. split; [|by apply HpU].
        unfold clears in *. rewrite !omap_app, HclG, HclU. done.
      * intros Hready. destruct (HreadyU Hready) as (_ & <-).
        unfold drawn. rewrite !omap_app. cbn. by rewrite app_nil_r.
    + split_and!.
      * frame_effect_peel. eapply frame_effect_app; [exact HfG|].
        frame_effect_peel. exact HfU.
      * right. unfold clears in *. rewrite !omap_app, HclG, HclU. done.
      * done.
      * intros Hready. by destruct (HreadyU Hready).
  - split_and!.
    + frame_effect_peel. exact HfG.
    + left. unfold clears in *. rewrite !omap_app, HclG. done.
    + done.
    + intros Hready. by destruct (HreadyG Hready).
Qed.

Lemma pending_le_1 s k : (pending s k ≤ 1)%nat.
Proof. unfold pending. repeat case_match; lia. Qed.

Lemma pending_after_upload s k : pending (after_upload s) k = pending s k.
Proof. reflexivity. Qed.

Lemma render_only_selected evs :
  Forall render_only evs →
  loads evs = [] ∧ registered evs = [] ∧ built evs = [] ∧ Shader.released evs = [].
Proof.
  unfold loads, registered, built, Shader.released.
  induction 1 as [|e evs He _ (IH1 & IH2 & IH3 & IH4)]; [done|].
  destruct e; cbn in *; done.
Qed.

Lemma render_frame_budget s :
  (length (Shader.native_lookups (events (render_frame s)))
   + sum_list_with (pending (final (render_frame s))) frame_keys
   ≤ sum_list_with (pending s) frame_keys)%nat.
Proof.
  pose proof (render_frame_effect s) as ((_ & _ & _ & Hb) & _).
  assert (sum_list_with (pending (frame_start s)) frame_keys
          = sum_list_with (pending s) frame_keys) as Heq by reflexivity.
  by rewrite Heq in Hb.
Qed.

Lemma render_frame_budget_two s :
  pending s "gui" = 0%nat →
  (length (Shader.native_lookups (events (render_frame s))) ≤ 2)%nat.
Proof.
  intros Hgui. pose proof (render_frame_budget s) as Hb.
  generalize dependent (Shader.native_lookups (events (render_frame s))).
  generalize (final (render_frame s)). intros s' lookups Hb.
  cbn [frame_keys sum_list_with] in Hb. rewrite Hgui in Hb.
  pose proof (pending_le_1 s "gbuffers_terrain").
  pose proof (pending_le_1 s "gbuffers_water"). lia.
Qed.

(** X1. A gbuffer-style pass whose program is loaded and whose bucket is
    ready returns normally and issues its draw calls for exactly the
    renderables of the bucket that have uploaded data, in the order of the
    bucket; the bucket is the one stored under the program's name. *)
Theorem render_shader_draws_bucket_in_order k s p :
  has_shader s k p →
  shader_ready s k = true →
  outcome_of (render_shader k s) = Returned tt
  ∧ drawn (events (render_shader k s)) = drawn_of_bucket (meshes s (Shader.name p))
  ∧ fetched_buckets (events (render_shader k s)) = [Shader.name p].
Proof.
  intros Hp Hready.
  pose proof (render_shader_effect k s) as (_ & H).
  pose proof (render_shader_spec k s p Hp) as (_ & _ & _ & _ & Hfetched & _).
  destruct (H p Hp Hready) as (Hret & Hdrawn). done.
Qed.

(** X2. A frame whose passes are ready draws, in this order: the
    renderables with data of the terrain bucket, those of the water bucket,
    then every renderable of the GUI bucket, all taken from the buckets as
    they are after the upload of new geometry. *)
Theorem render_frame_draw_order s :
  frame_ready s = true →
  drawn (events (render_frame s)) = frame_draws s.
Proof.
  intros Hready. pose proof (render_frame_effect s) as (_ & _ & _ & H). by apply H.
Qed.

(** X3. Whether it returns or throws, a frame whose behaviour is defined
    changes the renderer in three ways only: the camera is as
    recalculate_frustum left it, the mesh store is as the upload of new
    geometry left it, and uniform-location caches of loaded programs have
    gained entries. The textures, the settings, both framebuffers and their
    builders, the shaderpack's name and passes, and every program's handle,
    name and filter are as before, and no cached location is lost or
    changed. *)
Theorem render_frame_only_fills_caches s :
  outcome_of (render_frame s) ≠ Undefined →
  player_camera (final (render_frame s)) = recalculate_frustum (player_camera s)
  ∧ meshes (final (render_frame s)) = upload_new_geometry (meshes s)
  ∧ only_caches_grow (frame_start s) (final (render_frame s)).
Proof.
  intros _. pose proof (render_frame_effect s) as ((Hgrow & _) & _).
  pose proof Hgrow as (Hmeshes & _ & _ & Hcamera & _).
  split_and!; [exact Hcamera|exact Hmeshes|exact Hgrow].
Qed.

(** X4. Whether it returns or throws, a frame never loads a shaderpack,
    never wires uniform buffers, never deletes a program and never builds
    a framebuffer; every program it binds is a program of the loaded
    shaderpack; and it clears the colour buffer exactly once: its clears
    are the clear of colour and depth, followed, if the GUI pass is
    reached, by one clear of depth only. *)
Theorem render_frame_only_renders s :
  let evs := events (render_frame s) in
  Forall render_only evs
  ∧ loads evs = [] ∧ registered evs = [] ∧ built evs = [] ∧ Shader.released evs = []
  ∧ Forall (loaded_handle s) (used_programs evs)
  ∧ (clears evs = [(true, true)] ∨ clears evs = [(true, true); (false, true)])
  ∧ (outcome_of (render_frame s) = Returned tt →
     clears evs = [(true, true); (false, true)]).
Proof.
  cbv zeta.
  pose proof (render_frame_effect s) as ((_ & Hused & Honly & _) & Hclears & Hret & _).
  destruct (render_only_selected _ Honly) as (? & ? & ? & ?).
  split_and!; [done..| |done|].
  - eapply Forall_impl; [exact Hused|]. intros h (k & p & Hk & Hh).
    exists k, p. split; [|done]. exact Hk.
  - intros Ho. by destruct (Hret Ho).
Qed.

(** X5. Native uniform-location lookups of a frame are paid for by
    pending lookups: each of the three programs a frame uses can cause one
    lookup of "gbufferModel" while that location is not in its cache and
    none afterwards. So a frame issues at most three native lookups, and
    none when the three locations are cached. *)
Theorem render_frame_native_lookups s :
  let r := render_frame s in
  (length (Shader.native_lookups (events r))
   + sum_list_with (pending (final r)) frame_keys
   ≤ sum_list_with (pending s) frame_keys)%nat
  ∧ (length (Shader.native_lookups (events r)) ≤ 3)%nat
  ∧ (sum_list_with (pending s) frame_keys = 0%nat →
     Shader.native_lookups (events r) = []).
Proof.
  cbv zeta. pose proof (render_frame_budget s) as Hb.
  assert (sum_list_with (pending s) frame_keys ≤ 3)%nat as Hle.
  { cbn [frame_keys sum_list_with]. pose proof (pending_le_1 s "gbuffers_terrain").
    pose proof (pending_le_1 s "gbuffers_water").
    pose proof (pending_le_1 s "gui"). lia. }
  split_and!; [done|lia|].
  intros H0. apply length_zero_iff_nil. lia.
Qed.

(** X6. After a frame that returned, the location of "gbufferModel" is
    cached for the GUI program, so the next frame issues at most two native
    lookups, and none for the GUI program's share. *)
Theorem next_frame_native_lookups s :
  outcome_of (render_frame s) = Returned tt →
  pending (final (render_frame s)) "gui" = 0%nat
  ∧ (length (Shader.native_lookups
               (events (render_frame (final (render_frame s))))) ≤ 2)%nat.
Proof.
  intros Hret.
  pose proof (render_frame_effect s) as (_ & _ & H & _).
  destruct (H Hret) as (_ & Hgui). split; [done|].
  by apply render_frame_budget_two.
Qed.

(** ** More on the reaction to a configuration change *)

Lemma on_config_change_named name s :
  wp (on_config_change (json_string name)) s (λ evs s' o,
    o = Returned tt
    ∧ match loaded_shaderpack s with
      | None => reloaded name s (Result evs s' o)
      | Some loaded =>
          if decide (pack_name loaded = name)
          then untouched s (Result evs s' o)
          else reloaded name s (Result evs s' o)
      end).
Proof.
  unfold on_config_change, json_to_string, json_ne_string, LOG. wp_steps.
  all: try (eapply wp_mono; [apply load_new_shaderpack_spec|]; cbv beta;
            intros evsL sL oL [-> HL]; wp_steps).
  all: split; [done|].
  - case_decide as Hname.
    + subst name. by rewrite String.eqb_refl in *.
    + eapply reloaded_ext; [| |exact HL]; [|done].
      cbn [events]. unfold commands. rewrite !omap_app. cbn.
      by rewrite app_nil_r.
  - case_decide as Hname; [done|].
    exfalso. apply Hname. symmetry. apply String.eqb_eq.
    by apply negb_false_iff.
  - eapply reloaded_ext; [| |exact HL]; [|done].
    cbn [events]. unfold commands. by rewrite !omap_app.
Qed.

(** The shaderpack loaded after a notification that names [name]. *)
Lemma on_config_change_loaded name s :
  ∃ pack, loaded_shaderpack (final (on_config_change (json_string name) s)) = Some pack
          ∧ (pack_name pack = name ∨ pack = load_shaderpack name).
Proof.
  pose proof (on_config_change_named name s) as (_ & H). unfold wp in H.
  generalize dependent (on_config_change (json_string name) s). intros r H.
  destruct (loaded_shaderpack s) as [loaded|] eqn:Hloaded.
  - case_decide as Hname.
    + destruct H as (_ & Hfinal). cbn in Hfinal. exists loaded.
      rewrite <- Hloaded. split; [by f_equal|by left].
    + destruct H as (_ & _ & _ & _ & Hpack & _). cbn in Hpack. eauto.
  - destruct H as (_ & _ & _ & _ & Hpack & _). cbn in Hpack. eauto.
Qed.

(** X7. Notifications are idempotent when the loader names a shaderpack as
    it was asked: after a notification that names a shaderpack, whatever
    was loaded before, a second notification with the same name returns,
    sends no command and changes nothing. *)
Theorem on_config_change_twice name s :
  pack_name (load_shaderpack name) = name →
  let r1 := on_config_change (json_string name) s in
  let r2 := on_config_change (json_string name) (final r1) in
  outcome_of r2 = Returned tt
  ∧ commands (events r2) = []
  ∧ final r2 = final r1.
Proof.
  intros Hloader. cbv zeta.
  destruct (on_config_change_loaded name s) as (pack & Hpack & Hname).
  assert (pack_name pack = name) as Hpn by (destruct Hname; by subst).
  generalize dependent (final (on_config_change (json_string name) s)).
  intros s1 Hpack.
  pose proof (on_config_change_named name s1) as (Hret & H). unfold wp in H, Hret.
  generalize dependent (on_config_change (json_string name) s1). intros r2 Hret H.
  rewrite Hpack in H. rewrite decide_True in H by done.
  destruct H as (Hcommands & Hfinal). done.
Qed.

(** X8. A notification whose "loadedShaderpack" is not a string throws the
    conversion error, whether a shaderpack is loaded or not: nothing is
    loaded, wired or built, no command is sent and the renderer is left as
    it was. *)
Theorem on_config_change_not_a_string j s :
  (∀ name, j ≠ json_string name) →
  let r := on_config_change j s in
  outcome_of r = Thrown json_type_error
  ∧ commands (events r) = []
  ∧ final r = s.
Proof.
  intros Hj. cbv zeta.
  change (wp (on_config_change j) s (λ evs s' o,
    o = Thrown json_type_error ∧ commands evs = [] ∧ s' = s)).
  unfold on_config_change, json_to_string, json_ne_string, LOG.
  destruct j as [|b|q|name| |]; try (by wp_steps). by destruct (Hj name).
Qed.

Lemma create_framebuffers_from_shaderpack_run s :
  create_framebuffers_from_shaderpack s
  = Result [EBuildFramebuffer main_fb (main_framebuffer_of s);
            EBuildFramebuffer shadow_fb (shadow_framebuffer_of s)]
      {| loaded_shaderpack := loaded_shaderpack s;
         meshes := meshes s;
         textures := textures s;
         render_settings := render_settings s;
         player_camera := player_camera s;
         main_framebuffer_builder :=
           {| builder_size := Some (fb_width (main_framebuffer_of s),
                                    fb_height (main_framebuffer_of s));
              builder_attachments := fb_attachments (main_framebuffer_of s) |};
         shadow_framebuffer_builder :=
           {| builder_size := Some (fb_width (shadow_framebuffer_of s),
                                    fb_height (shadow_framebuffer_of s));
              builder_attachments := fb_attachments (shadow_framebuffer_of s) |};
         main_framebuffer := Some (main_framebuffer_of s);
         shadow_framebuffer := Some (shadow_framebuffer_of s) |}
      (Returned tt).
Proof.
  apply wp_run.
  unfold create_framebuffers_from_shaderpack, build_framebuffer,
    set_main_framebuffer_builder, set_shadow_framebuffer_builder,
    set_main_framebuffer, set_shadow_framebuffer.
  cbn [build enable_color_attachment set_framebuffer_size
       builder_size builder_attachments].
  by wp_steps.
Qed.

(** X9. When create_framebuffers_from_shaderpack returns (it reads the
    view width, the view height and the shadow-map resolution from the
    settings, taken here as configured numbers), it has built the main
    framebuffer and then the shadow framebuffer and nothing else: the main
    one at view width by view height with colour attachments 0 to 7
    enabled, the shadow one with 0 to 3. The builders keep what they
    accumulated, so running it again with the same settings builds the same
    two framebuffers and leaves the renderer as the first run left it. *)
Theorem create_framebuffers_is_idempotent s :
  let r1 := create_framebuffers_from_shaderpack s in
  let r2 := create_framebuffers_from_shaderpack (final r1) in
  outcome_of r1 = Returned tt →
  built (events r1)
  = [(main_fb, main_framebuffer_of s); (shadow_fb, shadow_framebuffer_of s)]
  ∧ (fb_width (main_framebuffer_of s), fb_height (main_framebuffer_of s))
    = (viewWidth (render_settings s), viewHeight (render_settings s))
  ∧ (∀ i, 0 ≤ i ≤ 7 → i ∈ fb_attachments (main_framebuffer_of s))
  ∧ (∀ i, 0 ≤ i ≤ 3 → i ∈ fb_attachments (shadow_framebuffer_of s))
  ∧ events r2 = events r1
  ∧ final r2 = final r1.
Proof.
  cbv zeta. intros _. rewrite !create_framebuffers_from_shaderpack_run.
  cbn [events final outcome_of].
  assert (main_framebuffer_of (final (create_framebuffers_from_shaderpack s))
          = main_framebuffer_of s) as Hmain.
  { rewrite create_framebuffers_from_shaderpack_run.
    unfold main_framebuffer_of. cbn. f_equal. set_unfold. intros x. prop_tauto. }
  assert (shadow_framebuffer_of (final (create_framebuffers_from_shaderpack s))
          = shadow_framebuffer_of s) as Hshadow.
  { rewrite create_framebuffers_from_shaderpack_run.
    unfold shadow_framebuffer_of. cbn. f_equal. set_unfold. intros x. prop_tauto. }
  rewrite create_framebuffers_from_shaderpack_run in Hmain, Hshadow.
  cbn [final] in Hmain, Hshadow. rewrite !Hmain, !Hshadow.
  split_and!; [done..| | |done|done].
  - intros i Hi. unfold main_framebuffer_of. cbn.
    assert (i = 0 ∨ i = 1 ∨ i = 2 ∨ i = 3 ∨ i = 4 ∨ i = 5 ∨ i = 6 ∨ i = 7) by lia.
    set_unfold. prop_tauto.
  - intros i Hi. unfold shadow_framebuffer_of. cbn.
    assert (i = 0 ∨ i = 1 ∨ i = 2 ∨ i = 3) by lia.
    set_unfold. prop_tauto.
Qed.

(** ** The wiring pass and the programs it releases *)

Lemma released_entries (entries : list (string * Shader.gl_shader_program)) k p :
  (k, p) ∈ entries → Shader.gl_name p ≠ 0 →
  Shader.gl_name p
  ∈ Shader.released
      (concat (map (λ entry : string * Shader.gl_shader_program,
                      ERegisterAllBuffers (Shader.gl_name entry.2)
                      :: Shader.destroy entry.2) entries)).
Proof.
  intros Hin Hlive. unfold Shader.released.
  induction entries as [|[k' p'] entries IH]; [by apply elem_of_nil in Hin|].
  cbn [map concat]. rewrite omap_app. apply elem_of_app.
  apply elem_of_cons in Hin as [Heq|Hin].
  - left. injection Heq as <- <-. unfold Shader.destroy. cbn.
    destruct (Shader.gl_name p =? 0) eqn:Hz; [by apply Z.eqb_eq in Hz|].
    cbn. by left.
  - right. by apply IH.
Qed.

Lemma wiring_events_released shaders k p :
  shaders !! k = Some p → Shader.gl_name p ≠ 0 →
  Shader.gl_name p ∈ Shader.released (wiring_events shaders).
Proof.
  intros Hk. apply (released_entries _ k). by apply elem_of_map_to_list.
Qed.

(** X10. The wiring pass returns, leaves the renderer as it was and
    registers one copy of every loaded program, as many registrations as
    there are programs. Each copy is destroyed when its registration
    returns, so the pass also releases the GPU program of every loaded
    program whose handle is not null, while the shaderpack still holds
    that handle. *)
Theorem link_up_uniform_buffers_releases_programs shaders s :
  let r := link_up_uniform_buffers shaders s in
  outcome_of r = Returned tt
  ∧ final r = s
  ∧ registered (events r) = map (λ entry, Shader.gl_name entry.2) (map_to_list shaders)
  ∧ length (registered (events r)) = size shaders
  ∧ ∀ k p, shaders !! k = Some p → Shader.gl_name p ≠ 0 →
      Shader.gl_name p ∈ Shader.released (events r).
Proof.
  cbv zeta. pose proof (link_up_uniform_buffers_spec shaders s) as (Hs & Ho & He).
  rewrite He, Hs, Ho.
  destruct (wiring_events_selected shaders) as (_ & _ & _ & Hr). rewrite Hr.
  split_and!; [done..| |].
  - by rewrite length_map, length_map_to_list.
  - apply wiring_events_released.
Qed.

Lemma released_commands evs : Shader.released evs = Shader.released (commands evs).
Proof.
  unfold Shader.released, commands.
  induction evs as [|e evs IH]; [done|].
  destruct e; cbn; rewrite ?IH; done.
Qed.

(** X11. After a notification that reloads the shaderpack, every program
    that the next frame binds, unless its handle is null, has already been
    released on the GPU by the wiring pass of the reload. *)
Theorem frame_binds_released_programs name s :
  (∀ loaded, loaded_shaderpack s = Some loaded → pack_name loaded ≠ name) →
  let r1 := on_config_change (json_string name) s in
  let r2 := render_frame (final r1) in
  ∀ h, h ∈ used_programs (events r2) → h ≠ 0 → h ∈ Shader.released (events r1).
Proof.
  intros Hnew. cbv zeta.
  pose proof (on_config_change_named name s) as (_ & H). unfold wp in H.
  assert (reloaded name s (on_config_change (json_string name) s)) as Hreloaded.
  { rewrite (result_eta (on_config_change (json_string name) s)).
    destruct (loaded_shaderpack s) as [loaded|] eqn:Hloaded; [|done].
    rewrite decide_False in H by (by apply Hnew). done. }
  clear H. destruct Hreloaded as (Hcommands & _ & _ & _ & Hpack & _).
  generalize dependent (on_config_change (json_string name) s).
  intros r1 Hcommands Hpack.
  pose proof (render_frame_effect (final r1)) as ((_ & Hused & _) & _).
  generalize dependent (events (render_frame (final r1))). intros evs2 Hused.
  intros h Hh Hlive.
  rewrite Forall_forall in Hused.
  destruct (Hused h Hh) as (k & p & (pack & Hpack' & Hp) & <-).
  change (loaded_shaderpack (frame_start (final r1)))
    with (loaded_shaderpack (final r1)) in Hpack'.
  rewrite Hpack in Hpack'. injection Hpack' as <-.
  rewrite released_commands, Hcommands.
  unfold Shader.released. rewrite !omap_app. apply elem_of_app. right.
  apply elem_of_app. left. by eapply wiring_events_released.
Qed.

(** ** Passes whose program is missing *)

(** What the lookup of a program that is not loaded throws. *)
Lemma not_has_shader s k :
  (∀ p, ¬ has_shader s k p) →
  loaded_shaderpack s = None
  ∨ ∃ pack, loaded_shaderpack s = Some pack ∧ loaded_shaders pack !! k = None.
Proof.
  intros Hno. destruct (loaded_shaderpack s) as [pack|] eqn:Hpack; [|by left].
  right. exists pack. split; [done|].
  destruct (loaded_shaders pack !! k) as [p|] eqn:Hp; [|done].
  destruct (Hno p). by exists pack.
Qed.

Lemma same_handles_no_shader s s' k :
  same_handles s s' → (∀ p, ¬ has_shader s k p) → ∀ p, ¬ has_shader s' k p.
Proof.
  intros (_ & _ & _ & Hh) Hno p' (pack' & Hpack' & Hp').
  rewrite Hpack' in Hh. destruct (loaded_shaderpack s) as [pack|] eqn:Hpack; [|done].
  specialize (Hh k). rewrite Hp' in Hh.
  destruct (loaded_shaders pack !! k) as [p|] eqn:Hp; [|done].
  destruct (Hno p). by exists pack.
Qed.

(** X12. The water program is looked up only after the terrain pass has
    run: with the terrain program loaded and its bucket ready but no
    "gbuffers_water" program, the gbuffer step binds the terrain program,
    draws the terrain bucket and only then throws the lookup's not-found
    error. *)
Theorem render_gbuffers_without_water s terrain :
  has_shader s "gbuffers_terrain" terrain →
  shader_ready s "gbuffers_terrain" = true →
  (∀ p, ¬ has_shader s "gbuffers_water" p) →
  let r := render_gbuffers s in
  outcome_of r = Thrown (shader_not_found "gbuffers_water")
  ∧ used_programs (events r) = [Shader.gl_name terrain]
  ∧ drawn (events r) = drawn_of_bucket (meshes s (Shader.name terrain)).
Proof.
  intros Ht Hready Hno. cbv zeta.
  change (wp render_gbuffers s (λ evs _ o,
    o = Thrown (shader_not_found "gbuffers_water")
    ∧ used_programs evs = [Shader.gl_name terrain]
    ∧ drawn evs = drawn_of_bucket (meshes s (Shader.name terrain)))).
  pose proof Ht as (pack & Hpack & Hterrain).
  unfold render_gbuffers, get_shader, the_shaderpack, LOG. wp_steps; try congruence.
  eapply wp_mono;
    [apply wp_and; [apply render_shader_effect|apply (render_shader_spec _ s terrain Ht)]|].
  cbv beta.
  intros evsA sA oA [[HeA HdA] (Hsame & _ & _ & Hused & _ & _)].
  destruct (HdA terrain Ht Hready) as [-> Hdrawn].
  wp_steps.
  - exfalso. eapply (same_handles_no_shader _ _ _ Hsame Hno). has_shader_goal.
  - split; [done|]. unfold used_programs, drawn in *.
    rewrite !omap_app, Hused, Hdrawn. cbn. by rewrite ?app_nil_r.
  - exfalso.
    destruct (same_handles_has_shader _ _ _ _ Hsame Ht) as (p' & (pack' & ? & _) & _).
    congruence.
Qed.

(** X13. With a shaderpack loaded that holds no program under the name a
    pass asks for, the pass throws the lookup's not-found error before it
    binds or draws anything and leaves the renderer as it was: the gbuffer
    step without "gbuffers_terrain" sends no command at all; the GUI pass
    without "gui" has by then cleared the depth buffer, and sent nothing
    else. With no shaderpack loaded both passes dereference the empty
    pointer: their behaviour is undefined, no exception is thrown. *)
Theorem passes_without_program s :
  (∀ pack, loaded_shaderpack s = Some pack →
     loaded_shaders pack !! "gbuffers_terrain" = None →
     outcome_of (render_gbuffers s) = Thrown (shader_not_found "gbuffers_terrain")
     ∧ commands (events (render_gbuffers s)) = []
     ∧ final (render_gbuffers s) = s)
  ∧ (∀ pack, loaded_shaderpack s = Some pack →
       loaded_shaders pack !! "gui" = None →
       outcome_of (render_gui s) = Thrown (shader_not_found "gui")
       ∧ commands (events (render_gui s)) = [EClear false true]
       ∧ final (render_gui s) = s)
  ∧ (loaded_shaderpack s = None →
     outcome_of (render_gbuffers s) = Undefined
     ∧ outcome_of (render_gui s) = Undefined).
Proof.
  split_and!.
  - intros pack Hpack Hno.
    change (wp render_gbuffers s (λ evs s' o,
      o = Thrown (shader_not_found "gbuffers_terrain")
      ∧ commands evs = [] ∧ s' = s)).
    unfold render_gbuffers, get_shader, the_shaderpack, LOG.
    wp_steps; simplify_eq. done.
  - intros pack Hpack Hno.
    change (wp render_gui s (λ evs s' o,
      o = Thrown (shader_not_found "gui")
      ∧ commands evs = [EClear false true] ∧ s' = s)).
    unfold render_gui, get_shader, the_shaderpack, LOG.
    wp_steps; simplify_eq. done.
  - intros Hnone. split.
    + change (wp render_gbuffers s (λ _ _ o, o = Undefined)).
      unfold render_gbuffers, get_shader, the_shaderpack, LOG.
      wp_steps; simplify_eq. done.
    + change (wp render_gui s (λ _ _ o, o = Undefined)).
      unfold render_gui, get_shader, the_shaderpack, LOG.
      wp_steps; simplify_eq. done.
Qed.

(** ** What a draw call sees *)

Lemma unit_at_draws_app binding bound evs1 evs2 :
  unit_at_draws binding bound (evs1 ++ evs2)
  = unit_at_draws binding bound evs1
    ++ unit_at_draws binding (bound_after binding bound evs1) evs2.
Proof.
  revert bound. induction evs1 as [|e evs1 IH]; intros bound; [done|].
  destruct e; cbn; rewrite ?IH; done.
Qed.

Lemma matrix_at_draws_app uploaded evs1 evs2 :
  matrix_at_draws uploaded (evs1 ++ evs2)
  = matrix_at_draws uploaded evs1
    ++ matrix_at_draws (matrix_after uploaded evs1) evs2.
Proof.
  revert uploaded. induction evs1 as [|e evs1 IH]; intros uploaded; [done|].
  destruct e; cbn; rewrite ?IH; done.
Qed.

Lemma lit_pass_refl s : lit_pass s [] s.
Proof. split; [apply same_handles_refl|]. intros bound. constructor. Qed.

Lemma lit_pass_app s1 evs1 s2 evs2 s3 :
  lit_pass s1 evs1 s2 → lit_pass s2 evs2 s3 → lit_pass s1 (evs1 ++ evs2) s3.
Proof.
  intros [Hs1 Hl1] [Hs2 Hl2]. split; [by eapply same_handles_trans|].
  intros bound. rewrite unit_at_draws_app. apply Forall_app_2; [done|].
  eapply Forall_impl; [apply Hl2|].
  intros draw. unfold sees_lightmap. destruct Hs1 as (_ & -> & _). done.
Qed.

Lemma process_renderable_lit k g s :
  wp (process_renderable k g) s (λ evs s' _, lit_pass s evs s').
Proof.
  unfold process_renderable. unfold_calls. wp_steps; uniform_lookup.
  all: split; [same_handles_goal|].
  all: intros bound; cbn; repeat constructor; cbn; by rewrite_eqs.
Qed.

Lemma lit_pass_cons s e evs s' :
  lit_pass s [e] s → lit_pass s evs s' → lit_pass s (e :: evs) s'.
Proof. apply (lit_pass_app s [e] s evs s'). Qed.

Ltac lit_pass_peel :=
  cbn [app]; rewrite ?app_nil_r;
  repeat (apply lit_pass_cons;
          [split; [apply same_handles_refl|intros ?; cbn; constructor]|]).

(** X14. Every draw call of a gbuffer-style pass is issued with the
    "lightmap" texture bound at binding point 3, whatever was bound there
    before the pass and whether the pass returns or throws later on: no
    renderable is drawn with a missing or stale texture at that binding
    point. *)
Theorem render_shader_draws_with_lightmap k s bound :
  Forall (sees_lightmap s) (unit_at_draws 3 bound (events (render_shader k s))).
Proof.
  revert bound.
  change (wp (render_shader k) s (λ evs _ _,
    ∀ bound, Forall (sees_lightmap s) (unit_at_draws 3 bound evs))).
  eapply (wp_mono _ _ (λ evs s' _, lit_pass s evs s')); [|by intros ? ? ? [_ ?]].
  unfold render_shader. unfold_calls. wp_steps.
  2-5: lit_pass_peel; apply lit_pass_refl.
  eapply wp_mono;
    [apply (wp_for_each_joint lit_pass);
     [apply lit_pass_refl|apply lit_pass_app|apply process_renderable_lit]|].
  cbv beta. intros evs s' o Hlit. destruct o as [[]|e]; wp_steps.
  - lit_pass_peel. eapply lit_pass_app; [exact Hlit|]. lit_pass_peel.
    apply lit_pass_refl.
  - lit_pass_peel. exact Hlit.
Qed.

Lemma own_matrices_cons g gs :
  own_matrices (g :: gs) = own_matrices [g] ++ own_matrices gs.
Proof. unfold own_matrices. cbn. by destruct (has_data (geometry g)). Qed.

Lemma process_renderable_matrix k g s :
  wp (process_renderable k g) s (λ evs _ o, ∀ uploaded,
    matrix_at_draws uploaded evs
    = match o with Returned _ => own_matrices [g] | Stopped _ => [] end).
Proof.
  unfold process_renderable. unfold_calls. wp_steps; uniform_lookup.
  all: intros uploaded; unfold own_matrices; cbn; by rewrite_eqs.
Qed.

Lemma process_all_matrix k gs s :
  wp (for_each gs (process_renderable k)) s (λ evs _ o, ∀ uploaded,
    matrix_at_draws uploaded evs `prefix_of` own_matrices gs
    ∧ (o = Returned tt → matrix_at_draws uploaded evs = own_matrices gs)).
Proof.
  revert s. induction gs as [|g gs IH]; intros s.
  - apply wp_ret. done.
  - rewrite for_each_cons. apply wp_bind.
    eapply wp_mono; [apply (process_renderable_matrix k g s)|]. cbv beta.
    intros evs s' o Hg. destruct o as [[]|e].
    + eapply wp_mono; [apply (IH s')|]. cbv beta.
      intros evs2 s2 o2 Hgs uploaded.
      rewrite (own_matrices_cons g gs), matrix_at_draws_app, Hg.
      destruct (Hgs (matrix_after uploaded evs)) as [Hpre Heq].
      split; [by apply prefix_app|]. intros Ho. by rewrite Heq.
    + intros uploaded. rewrite Hg. split; [apply prefix_nil|done].
Qed.

(** X15. In a gbuffer-style pass, the last matrix upload issued before each
    draw call is the model matrix of the renderable being drawn (the
    identity translated by its position), whatever was uploaded before the
    pass: the draw calls with their matrices are a prefix of those of the
    bucket's renderables with data, and all of them when the pass
    returns. *)
Theorem render_shader_draws_with_own_matrix k s uploaded :
  matrix_at_draws uploaded (events (render_shader k s))
    `prefix_of` own_matrices (bucket_of s k)
  ∧ (outcome_of (render_shader k s) = Returned tt →
     matrix_at_draws uploaded (events (render_shader k s))
     = own_matrices (bucket_of s k)).
Proof.
  revert uploaded.
  change (wp (render_shader k) s (λ evs _ o, ∀ uploaded,
    matrix_at_draws uploaded evs `prefix_of` own_matrices (bucket_of s k)
    ∧ (o = Returned tt → matrix_at_draws uploaded evs = own_matrices (bucket_of s k)))).
  unfold render_shader. unfold_calls. wp_steps.
  2-5: intros uploaded; cbn; split; [apply prefix_nil|done].
  eapply wp_mono; [apply process_all_matrix|].
  cbv beta. intros evs s' o Hgs.
  simplify_eq. unfold bucket_of. rewrite_eqs.
  destruct o as [[]|e]; wp_steps.
  all: intros uploaded; cbn; rewrite ?matrix_at_draws_app; cbn;
    rewrite ?app_nil_r; apply Hgs.
Qed.

Lemma render_gui_object_matrix g s :
  wp (render_gui_object g) s (λ evs _ o, ∀ uploaded,
    matrix_after uploaded evs = uploaded
    ∧ matrix_at_draws uploaded evs
      = match o with
        | Returned _ => [(mesh_id (geometry g), uploaded)]
        | Stopped _ => []
        end).
Proof. unfold render_gui_object. unfold_calls. wp_steps. all: done. Qed.

Lemma render_gui_objects_matrix gs s :
  wp (for_each gs render_gui_object) s (λ evs _ o, ∀ uploaded,
    matrix_at_draws uploaded evs
      `prefix_of` map (λ g, (mesh_id (geometry g), uploaded)) gs
    ∧ (o = Returned tt →
       matrix_at_draws uploaded evs = map (λ g, (mesh_id (geometry g), uploaded)) gs)).
Proof.
  revert s. induction gs as [|g gs IH]; intros s.
  - apply wp_ret. done.
  - rewrite for_each_cons. apply wp_bind.
    eapply wp_mono; [apply (render_gui_object_matrix g s)|]. cbv beta.
    intros evs s' o Hg. destruct o as [[]|e].
    + eapply wp_mono; [apply (IH s')|]. cbv beta.
      intros evs2 s2 o2 Hgs uploaded.
      destruct (Hg uploaded) as [Hafter Hdraw].
      destruct (Hgs uploaded) as [Hpre Heq].
      rewrite matrix_at_draws_app, Hafter, Hdraw. cbn.
      split; [by apply prefix_cons|]. intros Ho. by rewrite Heq.
    + intros uploaded. destruct (Hg uploaded) as [_ ->].
      split; [apply prefix_nil|done].
Qed.

(** X16. Every draw call of the GUI pass is issued with the GUI model matrix
    of the current settings as the last uploaded matrix, whatever was
    uploaded before the pass: the draw calls with their matrices are a
    prefix of those of the "gui" bucket, and all of them when the pass
    returns. No GUI renderable is drawn with the model matrix of a gbuffer
    renderable. *)
Theorem render_gui_draws_with_gui_matrix s uploaded :
  matrix_at_draws uploaded (events (render_gui s))
    `prefix_of` gui_matrices (render_settings s) (meshes s "gui")
  ∧ (outcome_of (render_gui s) = Returned tt →
     matrix_at_draws uploaded (events (render_gui s))
     = gui_matrices (render_settings s) (meshes s "gui")).
Proof.
  revert uploaded.
  change (wp render_gui s (λ evs _ o, ∀ uploaded,
    matrix_at_draws uploaded evs
      `prefix_of` gui_matrices (render_settings s) (meshes s "gui")
    ∧ (o = Returned tt →
       matrix_at_draws uploaded evs
       = gui_matrices (render_settings s) (meshes s "gui")))).
  unfold render_gui, upload_gui_model_matrix. unfold_calls.
  wp_steps; uniform_lookup.
  all: try (intros uploaded; cbn; split; [apply prefix_nil|done]).
  all: eapply wp_mono; [apply render_gui_objects_matrix|].
  all: cbv beta; intros evs s' o Hgs uploaded; cbn; apply Hgs.
Qed.

(** ** The exception of a failed link *)

Lemma string_length_append (s t : string) :
  String.length (s +:+ t) = (String.length s + String.length t)%nat.
Proof.
  induction s as [|a s IH]; [done|].
  change (String a s +:+ t) with (String a (s +:+ t)). cbn. f_equal. exact IH.
Qed.

Lemma string_append_cancel_r (s1 s2 t : string) : s1 +:+ t = s2 +:+ t → s1 = s2.
Proof.
  revert s2. induction s1 as [|a s1 IH]; intros [|b s2] H.
  - done.
  - apply (f_equal String.length) in H.
    rewrite !string_length_append in H. cbn in H. lia.
  - apply (f_equal String.length) in H.
    rewrite !string_length_append in H. cbn in H. lia.
  - change (String a (s1 +:+ t) = String b (s2 +:+ t)) in H.
    injection H as -> H. f_equal. by apply IH.
Qed.

Lemma c_str_app (s t : string) :
  c_str (s +:+ t) = if decide (c_str s = s) then s +:+ c_str t else c_str s.
Proof.
  induction s as [|a s IH]; [by rewrite decide_True|].
  change (String a s +:+ t) with (String a (s +:+ t)). cbn [c_str].
  destruct (Ascii.eqb a Ascii.zero) eqn:Ha; [by rewrite decide_False|].
  rewrite IH. destruct (decide (c_str s = s)) as [Hs|Hs].
  - rewrite decide_True by (by rewrite Hs). done.
  - rewrite decide_False; [done|]. intros Heq. apply Hs. by injection Heq.
Qed.

Lemma what_program_linking_failure name :
  what (program_linking_failure name)
  = "Program " +:+ (if decide (c_str name = name)
                    then name +:+ " failed to link"
                    else c_str name).
Proof.
  unfold what, program_linking_failure.
  rewrite (c_str_app "Program "), decide_True by reflexivity.
  rewrite (c_str_app name). by destruct (decide (c_str name = name)).
Qed.

(** X17. What a reader of [program_linking_failure] sees through [what()]:
    for a name without a NUL character it is "Program ", the name and
    " failed to link", 23 characters more than the name, and two such names
    that differ never give the same message. A name with a NUL character
    cuts the message short: it is then "Program " and the part of the name
    before the NUL, so the rest of the name is lost. *)
Theorem program_linking_failure_names_the_program name1 name2 :
  (c_str name1 = name1 →
   what (program_linking_failure name1) = "Program " +:+ name1 +:+ " failed to link"
   ∧ String.length (what (program_linking_failure name1))
     = (String.length name1 + 23)%nat
   ∧ (c_str name2 = name2 → name1 ≠ name2 →
      what (program_linking_failure name1) ≠ what (program_linking_failure name2)))
  ∧ (c_str name1 ≠ name1 →
     what (program_linking_failure name1) = "Program " +:+ c_str name1).
Proof.
  rewrite !what_program_linking_failure. split.
  - intros H1. rewrite decide_True by done. split_and!; [done| |].
    + rewrite !string_length_append. cbn. lia.
    + intros H2 Hne Heq. rewrite decide_True in Heq by done.
      apply (inj (String.append _)) in Heq.
      by apply string_append_cancel_r in Heq.
  - intros H1. by rewrite decide_False.
Qed.

(** ** The debug-output callback *)

Ltac switch_cases :=
  repeat match goal with
  | |- context [?a =? ?b] => destruct (Z.eqb_spec a b)
  | H : context [?a =? ?b] |- _ => destruct (Z.eqb_spec a b)
  end.

(** X18. The name [translate_debug_source] gives identifies the source: two
    sources with the same name are the same enumerator, or are both unknown
    ones; an unknown source gets the fallback name and a known one never
    does. *)
Theorem translate_debug_source_identifies a b :
  (translate_debug_source a = translate_debug_source b →
   a = b ∨ ((a ∉ known_sources) ∧ (b ∉ known_sources)))
  ∧ (translate_debug_source a = "something else somehow" ↔ (a ∉ known_sources)).
Proof.
  unfold translate_debug_source, known_sources. split; [intros H|].
  - switch_cases; try discriminate H; try (left; congruence).
    right. rewrite !elem_of_cons, !elem_of_nil. prop_tauto.
  - rewrite !elem_of_cons, !elem_of_nil.
    switch_cases; (split; [try discriminate; prop_tauto|prop_tauto]).
Qed.

(** X19. The description [translate_debug_type] gives identifies the type:
    two types with the same description are the same enumerator, or are both
    unknown ones; an unknown type gets the fallback description and a known
    one never does. *)
Theorem translate_debug_type_identifies a b :
  (translate_debug_type a = translate_debug_type b →
   a = b ∨ ((a ∉ known_types) ∧ (b ∉ known_types)))
  ∧ (translate_debug_type a = "something else somwhow" ↔ (a ∉ known_types)).
Proof.
  unfold translate_debug_type, known_types. split; [intros H|].
  - switch_cases; try discriminate H; try (left; congruence).
    right. rewrite !elem_of_cons, !elem_of_nil. prop_tauto.
  - rewrite !elem_of_cons, !elem_of_nil.
    switch_cases; (split; [try discriminate; prop_tauto|prop_tauto]).
Qed.

(** X20. [debug_logger] writes exactly one record per driver message,
    returns and leaves the renderer alone. The text of the record is the
    id, the name of the source, the description of the type and the
    message, whatever the severity. The level is decided by the severity
    alone: ERROR for a message of high severity, INFO for medium, DEBUG for
    low, TRACE for a notification, and INFO for a severity that is none of
    the four. (The four enumerators are distinct, as the labels of a switch
    must be.) *)
Theorem debug_logger_one_record source type id severity message s :
  NoDup [GL_DEBUG_SEVERITY_HIGH; GL_DEBUG_SEVERITY_MEDIUM; GL_DEBUG_SEVERITY_LOW;
         GL_DEBUG_SEVERITY_NOTIFICATION] →
  let r := debug_logger source type id severity message s in
  final r = s
  ∧ outcome_of r = Returned tt
  ∧ ∃ lvl,
      events r
      = [ELog lvl [Text (pretty id); Text " - Message from ";
                   Text (translate_debug_source source); Text " of type ";
                   Text (translate_debug_type type); Text ": "; Text message]]
      ∧ (severity = GL_DEBUG_SEVERITY_HIGH → lvl = ERROR)
      ∧ (severity = GL_DEBUG_SEVERITY_MEDIUM → lvl = INFO)
      ∧ (severity = GL_DEBUG_SEVERITY_LOW → lvl = DEBUG)
      ∧ (severity = GL_DEBUG_SEVERITY_NOTIFICATION → lvl = TRACE)
      ∧ (severity ∉ [GL_DEBUG_SEVERITY_HIGH; GL_DEBUG_SEVERITY_MEDIUM;
                     GL_DEBUG_SEVERITY_LOW; GL_DEBUG_SEVERITY_NOTIFICATION] →
         lvl = INFO).
Proof.
  intros Hdistinct. cbv zeta. unfold debug_logger.
  apply NoDup_cons in Hdistinct as [Hhigh Hdistinct].
  apply NoDup_cons in Hdistinct as [Hmedium Hdistinct].
  apply NoDup_cons in Hdistinct as [Hlow _].
  repeat rewrite not_elem_of_cons in Hhigh.
  repeat rewrite not_elem_of_cons in Hmedium.
  repeat rewrite not_elem_of_cons in Hlow.
  destruct Hhigh as (? & ? & ? & _), Hmedium as (? & ? & _), Hlow as (? & _).
  switch_cases; (split_and!; [done..|]); eexists; (split; [reflexivity|]);
    split_and!; intros; subst;
    first [done | rewrite !elem_of_cons, !elem_of_nil in *; prop_tauto].
Qed.

End Renderer.

(** * The renderer on the small scene *)

(** The ordering of the spec on pass indices 5, 1, 1, 3: the two passes of
    index 1 keep their discovery order. *)
Example sort_passes_is_stable :
  map (λ m, (Materials.name m, Materials.pass_index m))
      (sort_passes [Scene.pass "a" "" 5; Scene.pass "b" "" 1;
                    Scene.pass "c" "" 1; Scene.pass "d" "" 3])
  = [("b", 1); ("c", 1); ("d", 3); ("a", 5)].
Proof. reflexivity. Qed.

(** Copy-construction of a live program: the copy is not the bare
    descriptor of the spec, it holds the handle of the original, and
    destroying both releases that handle twice. *)
Lemma copy_construct_shares_the_handle :
  Shader.copy_construct Scene.terrain ≠ Shader.spec_copy_construct Scene.terrain
  ∧ Shader.gl_name (Shader.copy_construct Scene.terrain) = 1
  ∧ Shader.gl_name (Shader.spec_copy_construct Scene.terrain) = 0
  ∧ Shader.released (Shader.destroy (Shader.copy_construct Scene.terrain)
                     ++ Shader.destroy Scene.terrain) = [1; 1].
Proof. split; [discriminate|]. by vm_compute. Qed.

(** The gbuffer step on the scene: by pass index the spec runs water (2),
    terrain (1), entities (5) and fetches by filter; the code runs terrain
    then water, never entities, and fetches by name. *)
Lemma render_gbuffers_ignores_pass_index :
  let evs := events (render_gbuffers Scene.driver Scene.ready) in
  map Shader.gl_name (spec_gbuffer_programs (Scene.pack "A")) = [2; 1; 5]
  ∧ used_programs evs = [1; 2]
  ∧ used_programs evs ≠ map Shader.gl_name (spec_gbuffer_programs (Scene.pack "A"))
  ∧ map Shader.filter (spec_gbuffer_programs (Scene.pack "A"))
    = ["geometry_type::block AND transparent"; "geometry_type::block";
       "geometry_type::entity"]
  ∧ fetched_buckets evs = ["gbuffers_terrain"; "gbuffers_water"]
  ∧ fetched_buckets evs ≠ map Shader.filter (spec_gbuffer_programs (Scene.pack "A")).
Proof. by vm_compute. Qed.

Lemma render_gbuffers_two_fixed_passes_witness :
  has_shader Scene.ready "gbuffers_terrain" Scene.terrain
  ∧ has_shader Scene.ready "gbuffers_water" Scene.water
  ∧ shader_ready Scene.ready "gbuffers_terrain" = true
  ∧ shader_ready Scene.ready "gbuffers_water" = true
  ∧ let r := render_gbuffers Scene.driver Scene.ready in
    outcome_of r = Returned tt
    ∧ used_programs (events r) = [1; 2]
    ∧ fetched_buckets (events r) = ["gbuffers_terrain"; "gbuffers_water"].
Proof.
  assert (has_shader Scene.ready "gbuffers_terrain" Scene.terrain) as Ht
    by (eexists; split; reflexivity).
  assert (has_shader Scene.ready "gbuffers_water" Scene.water) as Hw
    by (eexists; split; reflexivity).
  assert (shader_ready Scene.ready "gbuffers_terrain" = true) as Hrt by reflexivity.
  assert (shader_ready Scene.ready "gbuffers_water" = true) as Hrw by reflexivity.
  split_and!; [done..|].
  exact (render_gbuffers_two_fixed_passes Scene.driver Scene.ready
           Scene.terrain Scene.water Ht Hw Hrt Hrw).
Defined.

Lemma get_uniform_location_one_native_lookup_witness :
  Shader.uniform_locations Scene.terrain !! "gbufferModel" = None
  ∧ Shader.uniform_locations Scene.terrain !! "noSuchUniform" = None
  ∧ (0 < 3)%nat
  ∧ (let r := Shader.get_uniform_location_times Scene.driver 3 Scene.terrain "gbufferModel" in
     r.1.1 = [EGetUniformLocation 1 "gbufferModel"] ∧ r.2 = [4; 4; 4])
  ∧ (let r := Shader.get_uniform_location_times Scene.driver 3 Scene.terrain "noSuchUniform" in
     r.1.1 = [EGetUniformLocation 1 "noSuchUniform"] ∧ r.2 = [-1; -1; -1]).
Proof.
  assert (Shader.uniform_locations Scene.terrain !! "gbufferModel" = None) as H1
    by reflexivity.
  assert (Shader.uniform_locations Scene.terrain !! "noSuchUniform" = None) as H2
    by reflexivity.
  split_and!; [done|done|exact (Nat.lt_0_succ 2)| |].
  - destruct (get_uniform_location_one_native_lookup Scene.driver Scene.terrain
                "gbufferModel" 3 H1 (Nat.lt_0_succ 2)) as (_ & Hevs & _ & Hlocs & _).
    split; [exact Hevs|exact Hlocs].
  - destruct (get_uniform_location_one_native_lookup Scene.driver Scene.terrain
                "noSuchUniform" 3 H2 (Nat.lt_0_succ 2)) as (_ & Hevs & _ & Hlocs & _).
    split; [exact Hevs|exact Hlocs].
Defined.

Lemma renderable_without_data_is_skipped_witness :
  let pending := Scene.chunk 101 false "atlas.terrain" None None in
  let before := [Scene.chunk 100 true "atlas.terrain" (Some "atlas.normals") None] in
  let after := [Scene.chunk 102 true "" None (Some "atlas.data")] in
  let body := process_renderable Scene.driver "gbuffers_terrain" in
  has_data (geometry pending) = false
  ∧ outcome_of (body pending Scene.ready) = Returned tt
  ∧ final (body pending Scene.ready) = Scene.ready
  ∧ drawn (events (for_each (before ++ pending :: after) body Scene.ready)) = [100; 102]
  ∧ commands (events (for_each (before ++ pending :: after) body Scene.ready))
    = commands (events (for_each (before ++ after) body Scene.ready)).
Proof.
  cbv zeta.
  destruct (renderable_without_data_is_skipped Scene.driver "gbuffers_terrain"
              (Scene.chunk 101 false "atlas.terrain" None None)
              [Scene.chunk 100 true "atlas.terrain" (Some "atlas.normals") None]
              [Scene.chunk 102 true "" None (Some "atlas.data")]
              Scene.ready eq_refl) as (Hskip & Hcommands & _).
  refine (conj eq_refl (conj _ (conj _ (conj _ Hcommands)))).
  - by rewrite Hskip.
  - by rewrite Hskip.
  - by vm_compute.
Defined.

Lemma drawn_renderable_bindings_witness :
  let g := Scene.chunk 100 true "atlas.terrain" (Some "atlas.normals") None in
  let dark := Scene.renderer (Some (Scene.pack "A")) (delete "lightmap" Scene.known_textures) in
  has_data (geometry g) = true
  ∧ has_shader Scene.ready "gbuffers_terrain" Scene.terrain
  ∧ has_shader dark "gbuffers_terrain" Scene.terrain
  ∧ (let r := process_renderable Scene.driver "gbuffers_terrain" g Scene.ready in
     outcome_of r = Returned tt
     ∧ commands (events r)
       = [EBindTexture 0 11; EBindTexture 1 12; EBindTexture 3 10;
          EGetUniformLocation 1 "gbufferModel";
          EUniformMatrix4fv 4 (glm_translate (mat4_diag (lit 1)) (position g));
          ESetActive 100; EDraw 100])
  ∧ (let r := process_renderable Scene.driver "gbuffers_terrain" g dark in
     outcome_of r = Thrown (texture_not_found "lightmap")
     ∧ commands (events r) = [EBindTexture 0 11; EBindTexture 1 12]).
Proof.
  cbv zeta.
  assert (has_shader Scene.ready "gbuffers_terrain" Scene.terrain) as Hp
    by (eexists; split; reflexivity).
  assert (has_shader (Scene.renderer (Some (Scene.pack "A"))
                        (delete "lightmap" Scene.known_textures))
            "gbuffers_terrain" Scene.terrain) as Hp'
    by (eexists; split; reflexivity).
  refine (conj eq_refl (conj Hp (conj Hp' (conj _ _)))).
  - exact (drawn_renderable_bindings Scene.driver "gbuffers_terrain"
             (Scene.chunk 100 true "atlas.terrain" (Some "atlas.normals") None)
             Scene.ready Scene.terrain eq_refl Hp).
  - exact (drawn_renderable_bindings Scene.driver "gbuffers_terrain"
             (Scene.chunk 100 true "atlas.terrain" (Some "atlas.normals") None)
             _ Scene.terrain eq_refl Hp').
Defined.

(** A renderable that names a normal map the texture manager does not know,
    in a frame where the lightmap and every other texture are known: the
    lookup of the optional texture throws, the renderable is not drawn and
    the frame ends there, without the GUI pass and without presenting. *)
Lemma unknown_optional_texture_stops_the_frame :
  let g := Scene.chunk 103 true "atlas.terrain" (Some "atlas.missing") None in
  let s := {| loaded_shaderpack := Some (Scene.pack "A");
              meshes := λ name, if String.eqb name "gbuffers_terrain" then [g] else [];
              textures := Scene.known_textures;
              render_settings := render_settings Scene.ready;
              player_camera := player_camera Scene.ready;
              main_framebuffer_builder := Scene.empty_builder;
              shadow_framebuffer_builder := Scene.empty_builder;
              main_framebuffer := None;
              shadow_framebuffer := None |} in
  has_data (geometry g) = true
  ∧ textures s !! "lightmap" = Some 10
  ∧ textures s !! "atlas.terrain" = Some 11
  ∧ normalmap g = Some "atlas.missing"
  ∧ textures s !! "atlas.missing" = None
  ∧ (let r := process_renderable Scene.driver "gbuffers_terrain" g s in
     outcome_of r = Thrown (texture_not_found "atlas.missing")
     ∧ commands (events r) = [EBindTexture 0 11]
     ∧ drawn (events r) = [])
  ∧ (let r := render_frame Scene.driver Scene.upload Scene.recalculate s in
     outcome_of r = Thrown (texture_not_found "atlas.missing")
     ∧ drawn (events r) = []
     ∧ steps (events r)
       = [UploadNewGeometry; ShadowPass; ClearMainTargets; UpdateFrameUniforms;
          GBufferPasses]).
Proof. by vm_compute. Qed.



(** A frame with no shaderpack loaded dereferences the empty pointer in
    the gbuffer step: its behaviour is undefined. *)
Example render_frame_without_shaderpack :
  outcome_of (render_frame Scene.driver Scene.upload Scene.recalculate
                (Scene.renderer None Scene.known_textures))
  = Undefined.
Proof. by vm_compute. Qed.

Lemma render_gui_commands_witness :
  has_shader Scene.ready "gui" Scene.gui
  ∧ gui_ready Scene.ready = true
  ∧ viewWidth (render_settings Scene.ready) ≠ 0
  ∧ viewHeight (render_settings Scene.ready) ≠ 0
  ∧ ∃ transform,
      (let r := render_gui Scene.driver Scene.ready in
       outcome_of r = Returned tt
       ∧ clears (events r) = [(false, true)]
       ∧ commands (events r)
         = [EClear false true; EUseProgram 3; EGetUniformLocation 3 "gbufferModel";
            EUniformMatrix4fv 4 transform;
            EGetMeshesForShader "gui";
            EBindTexture 0 14; ESetActive 300; EDraw 300;
            ESetActive 301; EDraw 301])
      ∧ same_point (mat4_apply transform (0, 0, 0, 1)%Q) (-1, 1, 0, 1)%Q
      ∧ same_point (mat4_apply transform (1920, 1080, 0, 1)%Q) (1, -1, 0, 1)%Q.
Proof.
  assert (has_shader Scene.ready "gui" Scene.gui) as Hp
    by (eexists; split; reflexivity).
  assert (viewWidth (render_settings Scene.ready) ≠ 0) as Hw by discriminate.
  assert (viewHeight (render_settings Scene.ready) ≠ 0) as Hh by discriminate.
  refine (conj Hp (conj eq_refl (conj Hw (conj Hh _)))).
  destruct (render_gui_commands Scene.driver Scene.ready Scene.gui Hp eq_refl)
    as (transform & Hret & Hclears & Hcommands & Hpoint).
  exists transform.
  refine (conj (conj Hret (conj Hclears Hcommands)) (conj _ _)).
  - destruct (Hpoint Hw Hh 0%Q 0%Q 0%Q) as (Hx & Hy & Hz & Hone).
    exact (conj (Qeq_trans _ _ (-1)%Q Hx eq_refl)
             (conj (Qeq_trans _ _ 1%Q Hy eq_refl) (conj Hz Hone))).
  - destruct (Hpoint Hw Hh 1920%Q 1080%Q 0%Q) as (Hx & Hy & Hz & Hone).
    exact (conj (Qeq_trans _ _ 1%Q Hx eq_refl)
             (conj (Qeq_trans _ _ (-1)%Q Hy eq_refl) (conj Hz Hone))).
Defined.

Lemma render_gui_draws_unconditionally_witness :
  has_shader Scene.ready "gui" Scene.gui
  ∧ gui_ready Scene.ready = true
  ∧ map (λ g, has_data (geometry g)) (meshes Scene.ready "gui") = [false; true]
  ∧ drawn (events (render_gui Scene.driver Scene.ready)) = [300; 301]
  ∧ matrix_uploads (events (render_gui Scene.driver Scene.ready))
    = [(4, gui_model_matrix (render_settings Scene.ready))].
Proof.
  assert (has_shader Scene.ready "gui" Scene.gui) as Hp
    by (eexists; split; reflexivity).
  destruct (render_gui_draws_unconditionally Scene.driver Scene.ready Scene.gui
              Hp eq_refl) as (Hdrawn & _ & Huploads & _).
  split_and!; [exact Hp|reflexivity|reflexivity|exact Hdrawn|exact Huploads].
Defined.


(** Switching the configured shaderpack from the loaded "A" to "B": one
    load, one wiring pass over the four programs in the iteration order of
    the map (each registered through a copy, whose destruction releases the
    program), one build of each framebuffer. *)
Example config_change_to_another_shaderpack :
  commands (events (on_config_change Scene.pack (json_string "B") Scene.ready))
  = ELoadShaderpack "B"
    :: wiring_events (loaded_shaders (Scene.pack "B"))
    ++ [EBuildFramebuffer main_fb (main_framebuffer_of Scene.ready);
        EBuildFramebuffer shadow_fb (shadow_framebuffer_of Scene.ready)]
  ∧ registered (wiring_events (loaded_shaders (Scene.pack "B"))) = [3; 2; 5; 1]
  ∧ Shader.released (wiring_events (loaded_shaders (Scene.pack "B"))) = [3; 2; 5; 1].
Proof. by vm_compute. Qed.

(** Switching to the name of the loaded shaderpack does nothing. *)
Example config_change_to_the_loaded_shaderpack :
  commands (events (on_config_change Scene.pack (json_string "A") Scene.ready)) = []
  ∧ final (on_config_change Scene.pack (json_string "A") Scene.ready) = Scene.ready.
Proof. by vm_compute. Qed.

(** A configuration whose "loadedShaderpack" is not a string loads
    nothing: the conversion to a string throws. *)
Example config_change_without_a_name :
  let r := on_config_change Scene.pack json_null (Scene.renderer None Scene.known_textures) in
  outcome_of r = Thrown json_type_error ∧ commands (events r) = [].
Proof. by vm_compute. Qed.

(** ** The extra properties, on the demo scene *)

Lemma render_shader_draws_bucket_in_order_witness :
  has_shader Scene.ready "gbuffers_terrain" Scene.terrain
  ∧ shader_ready Scene.ready "gbuffers_terrain" = true
  ∧ outcome_of (render_shader Scene.driver "gbuffers_terrain" Scene.ready) = Returned tt
  ∧ drawn (events (render_shader Scene.driver "gbuffers_terrain" Scene.ready)) = [100; 102]
  ∧ fetched_buckets (events (render_shader Scene.driver "gbuffers_terrain" Scene.ready))
    = ["gbuffers_terrain"].
Proof.
  assert (has_shader Scene.ready "gbuffers_terrain" Scene.terrain) as Hp
    by (eexists; split; reflexivity).
  refine (conj Hp (conj eq_refl _)).
  exact (render_shader_draws_bucket_in_order Scene.driver "gbuffers_terrain"
           Scene.ready Scene.terrain Hp eq_refl).
Defined.

Lemma render_frame_draw_order_witness :
  frame_ready Scene.upload Scene.ready = true
  ∧ drawn (events (render_frame Scene.driver Scene.upload Scene.recalculate Scene.ready))
    = [100; 102; 200; 300; 301].
Proof.
  refine (conj eq_refl _).
  exact (render_frame_draw_order Scene.driver Scene.upload Scene.recalculate Scene.ready eq_refl).
Defined.

Lemma render_frame_only_renders_witness :
  outcome_of (render_frame Scene.driver Scene.upload Scene.recalculate Scene.ready) = Returned tt
  ∧ clears (events (render_frame Scene.driver Scene.upload Scene.recalculate Scene.ready))
    = [(true, true); (false, true)]
  ∧ Shader.released (events (render_frame Scene.driver Scene.upload Scene.recalculate Scene.ready)) = [].
Proof.
  assert (outcome_of (render_frame Scene.driver Scene.upload Scene.recalculate Scene.ready) = Returned tt)
    as Hret by (vm_compute; reflexivity).
  pose proof (render_frame_only_renders Scene.driver Scene.upload Scene.recalculate Scene.ready) as H.
  cbv zeta in H. destruct H as (_ & _ & _ & _ & Hreleased & _ & _ & Hclears).
  exact (conj Hret (conj (Hclears Hret) Hreleased)).
Defined.

Lemma render_frame_native_lookups_witness :
  let s1 := final (render_frame Scene.driver Scene.upload Scene.recalculate Scene.ready) in
  sum_list_with (pending Scene.ready) frame_keys = 3%nat
  ∧ sum_list_with (pending s1) frame_keys = 0%nat
  ∧ Shader.native_lookups (events (render_frame Scene.driver Scene.upload Scene.recalculate s1)) = [].
Proof.
  cbv zeta.
  assert (sum_list_with
            (pending (final (render_frame Scene.driver Scene.upload Scene.recalculate Scene.ready)))
            frame_keys = 0%nat) as Hsum by (vm_compute; reflexivity).
  pose proof (render_frame_native_lookups Scene.driver Scene.upload Scene.recalculate
                (final (render_frame Scene.driver Scene.upload Scene.recalculate Scene.ready))) as H.
  cbv zeta in H. destruct H as (_ & _ & Hnone).
  exact (conj eq_refl (conj Hsum (Hnone Hsum))).
Defined.

Lemma next_frame_native_lookups_witness :
  outcome_of (render_frame Scene.driver Scene.upload Scene.recalculate Scene.ready) = Returned tt
  ∧ pending (final (render_frame Scene.driver Scene.upload Scene.recalculate Scene.ready)) "gui" = 0%nat
  ∧ (length (Shader.native_lookups
               (events (render_frame Scene.driver Scene.upload Scene.recalculate
                          (final (render_frame Scene.driver Scene.upload Scene.recalculate Scene.ready)))))
     ≤ 2)%nat.
Proof.
  assert (outcome_of (render_frame Scene.driver Scene.upload Scene.recalculate Scene.ready) = Returned tt)
    as Hret by (vm_compute; reflexivity).
  exact (conj Hret (next_frame_native_lookups Scene.driver Scene.upload Scene.recalculate Scene.ready Hret)).
Defined.

Lemma on_config_change_twice_witness :
  pack_name (Scene.pack "B") = "B"
  ∧ (let r1 := on_config_change Scene.pack (json_string "B") Scene.ready in
     let r2 := on_config_change Scene.pack (json_string "B") (final r1) in
     outcome_of r2 = Returned tt
     ∧ commands (events r2) = []
     ∧ final r2 = final r1).
Proof.
  refine (conj eq_refl _).
  exact (on_config_change_twice Scene.pack "B" Scene.ready eq_refl).
Defined.

Lemma on_config_change_not_a_string_witness :
  (∀ name, json_number (Qmake 7 1) ≠ json_string name)
  ∧ (let r := on_config_change Scene.pack (json_number (Qmake 7 1)) Scene.ready in
     outcome_of r = Thrown json_type_error
     ∧ commands (events r) = []
     ∧ final r = Scene.ready).
Proof.
  assert (∀ name, json_number (Qmake 7 1) ≠ json_string name) as Hj
    by (intros name; discriminate).
  refine (conj Hj _).
  exact (on_config_change_not_a_string Scene.pack (json_number (Qmake 7 1))
           Scene.ready Hj).
Defined.

Lemma link_up_uniform_buffers_releases_programs_witness :
  loaded_shaders (Scene.pack "A") !! "gbuffers_terrain" = Some Scene.terrain
  ∧ Shader.gl_name Scene.terrain ≠ 0
  ∧ length (registered (events (link_up_uniform_buffers (loaded_shaders (Scene.pack "A"))
                                  Scene.ready))) = 4%nat
  ∧ 1 ∈ Shader.released (events (link_up_uniform_buffers (loaded_shaders (Scene.pack "A"))
                                   Scene.ready)).
Proof.
  assert (Shader.gl_name Scene.terrain ≠ 0) as Hlive by (intros H; discriminate H).
  pose proof (link_up_uniform_buffers_releases_programs
                (loaded_shaders (Scene.pack "A")) Scene.ready) as H.
  cbv zeta in H. destruct H as (_ & _ & _ & Hsize & Hreleased).
  refine (conj eq_refl (conj Hlive (conj Hsize _))).
  exact (Hreleased "gbuffers_terrain" Scene.terrain eq_refl Hlive).
Defined.

Lemma frame_binds_released_programs_witness :
  let r1 := on_config_change Scene.pack (json_string "B") Scene.ready in
  let r2 := render_frame Scene.driver Scene.upload Scene.recalculate (final r1) in
  (∀ loaded, loaded_shaderpack Scene.ready = Some loaded → pack_name loaded ≠ "B")
  ∧ used_programs (events r2) = [1; 2; 3]
  ∧ 1 ∈ Shader.released (events r1)
  ∧ 2 ∈ Shader.released (events r1)
  ∧ 3 ∈ Shader.released (events r1).
Proof.
  cbv zeta.
  assert (∀ loaded, loaded_shaderpack Scene.ready = Some loaded → pack_name loaded ≠ "B")
    as Hother by (intros loaded Hloaded; injection Hloaded as <-; discriminate).
  assert (used_programs
            (events (render_frame Scene.driver Scene.upload Scene.recalculate
                       (final (on_config_change Scene.pack (json_string "B") Scene.ready))))
          = [1; 2; 3]) as Hused by (vm_compute; reflexivity).
  pose proof (frame_binds_released_programs Scene.driver Scene.pack Scene.upload Scene.recalculate "B"
                Scene.ready Hother) as H.
  cbv zeta in H. rewrite Hused in H.
  refine (conj Hother (conj Hused (conj _ (conj _ _)))).
  - apply (H 1); [by left|discriminate].
  - apply (H 2); [by right; left|discriminate].
  - apply (H 3); [by right; right; left|discriminate].
Defined.

Lemma render_gbuffers_without_water_witness :
  let dry := Scene.renderer
               (Some {| pack_name := "A";
                        loaded_shaders :=
                          delete "gbuffers_water" (loaded_shaders (Scene.pack "A"));
                        passes := passes (Scene.pack "A") |})
               Scene.known_textures in
  has_shader dry "gbuffers_terrain" Scene.terrain
  ∧ shader_ready dry "gbuffers_terrain" = true
  ∧ (∀ p, ¬ has_shader dry "gbuffers_water" p)
  ∧ outcome_of (render_gbuffers Scene.driver dry) = Thrown (shader_not_found "gbuffers_water")
  ∧ used_programs (events (render_gbuffers Scene.driver dry)) = [1]
  ∧ drawn (events (render_gbuffers Scene.driver dry)) = [100; 102].
Proof.
  cbv zeta.
  set (dry := Scene.renderer _ _).
  assert (has_shader dry "gbuffers_terrain" Scene.terrain) as Hp
    by (eexists; split; reflexivity).
  assert (∀ p, ¬ has_shader dry "gbuffers_water" p) as Hno.
  { intros p (pack & Hpack & Hk). injection Hpack as <-. discriminate Hk. }
  refine (conj Hp (conj eq_refl (conj Hno _))).
  exact (render_gbuffers_without_water Scene.driver dry Scene.terrain Hp eq_refl Hno).
Defined.

Lemma passes_without_program_witness :
  let bare := {| pack_name := "A";
                 loaded_shaders := {[ "gbuffers_entities" := Scene.entities ]};
                 passes := passes (Scene.pack "A") |} in
  let s := Scene.renderer (Some bare) Scene.known_textures in
  loaded_shaderpack s = Some bare
  ∧ loaded_shaders bare !! "gbuffers_terrain" = None
  ∧ loaded_shaders bare !! "gui" = None
  ∧ outcome_of (render_gbuffers Scene.driver s) = Thrown (shader_not_found "gbuffers_terrain")
  ∧ commands (events (render_gbuffers Scene.driver s)) = []
  ∧ final (render_gbuffers Scene.driver s) = s
  ∧ outcome_of (render_gui Scene.driver s) = Thrown (shader_not_found "gui")
  ∧ commands (events (render_gui Scene.driver s)) = [EClear false true]
  ∧ final (render_gui Scene.driver s) = s.
Proof.
  cbv zeta.
  set (bare := {| pack_name := "A";
                  loaded_shaders := {[ "gbuffers_entities" := Scene.entities ]};
                  passes := passes (Scene.pack "A") |}).
  destruct (passes_without_program Scene.driver
              (Scene.renderer (Some bare) Scene.known_textures))
    as (Hgbuffers & Hgui & _).
  destruct (Hgbuffers bare eq_refl eq_refl) as (Ho1 & Hc1 & Hf1).
  destruct (Hgui bare eq_refl eq_refl) as (Ho2 & Hc2 & Hf2).
  exact (conj eq_refl (conj eq_refl (conj eq_refl
           (conj Ho1 (conj Hc1 (conj Hf1 (conj Ho2 (conj Hc2 Hf2)))))))).
Defined.

Lemma render_shader_draws_with_own_matrix_witness :
  outcome_of (render_shader Scene.driver "gbuffers_terrain" Scene.ready) = Returned tt
  ∧ matrix_at_draws None
      (events (render_shader Scene.driver "gbuffers_terrain" Scene.ready))
    = [(100, Some (glm_translate (mat4_diag (lit 1)) (Vec3 (lit 1600) (lit 64) (lit 0))));
       (102, Some (glm_translate (mat4_diag (lit 1)) (Vec3 (lit 1632) (lit 64) (lit 0))))].
Proof.
  assert (outcome_of (render_shader Scene.driver "gbuffers_terrain" Scene.ready)
          = Returned tt) as Hret by (vm_compute; reflexivity).
  destruct (render_shader_draws_with_own_matrix Scene.driver "gbuffers_terrain"
              Scene.ready None) as [_ Hall].
  exact (conj Hret (Hall Hret)).
Defined.

Lemma render_gui_draws_with_gui_matrix_witness :
  outcome_of (render_gui Scene.driver Scene.ready) = Returned tt
  ∧ matrix_at_draws None (events (render_gui Scene.driver Scene.ready))
    = [(300, Some (gui_model_matrix (render_settings Scene.ready)));
       (301, Some (gui_model_matrix (render_settings Scene.ready)))].
Proof.
  assert (outcome_of (render_gui Scene.driver Scene.ready) = Returned tt) as Hret
    by (vm_compute; reflexivity).
  destruct (render_gui_draws_with_gui_matrix Scene.driver Scene.ready None) as [_ Hall].
  exact (conj Hret (Hall Hret)).
Defined.

Lemma render_frame_only_fills_caches_witness :
  let r := render_frame Scene.driver Scene.upload Scene.recalculate Scene.ready in
  outcome_of r ≠ Undefined
  ∧ player_camera (final r)
    = {| projection_matrix := mat4_diag (lit 1);
         view_matrix := mat4_diag (lit 1);
         frustum := Some (mat4_diag (lit 1), mat4_diag (lit 1)) |}
  ∧ meshes (final r) = Scene.buckets
  ∧ only_caches_grow (frame_start Scene.upload Scene.recalculate Scene.ready) (final r).
Proof.
  cbv zeta.
  assert (outcome_of (render_frame Scene.driver Scene.upload Scene.recalculate Scene.ready)
          ≠ Undefined) as Hdefined by (vm_compute; discriminate).
  exact (conj Hdefined
           (render_frame_only_fills_caches Scene.driver Scene.upload Scene.recalculate
              Scene.ready Hdefined)).
Defined.

Lemma create_framebuffers_is_idempotent_witness :
  let r1 := create_framebuffers_from_shaderpack Scene.ready in
  let r2 := create_framebuffers_from_shaderpack (final r1) in
  outcome_of r1 = Returned tt
  ∧ built (events r1)
    = [(main_fb, main_framebuffer_of Scene.ready);
       (shadow_fb, shadow_framebuffer_of Scene.ready)]
  ∧ (fb_width (main_framebuffer_of Scene.ready),
     fb_height (main_framebuffer_of Scene.ready)) = (1920, 1080)
  ∧ (fb_width (shadow_framebuffer_of Scene.ready),
     fb_height (shadow_framebuffer_of Scene.ready)) = (2048, 2048)
  ∧ events r2 = events r1
  ∧ final r2 = final r1.
Proof.
  cbv zeta.
  assert (outcome_of (create_framebuffers_from_shaderpack Scene.ready) = Returned tt)
    as Hret by reflexivity.
  pose proof (create_framebuffers_is_idempotent Scene.ready) as H.
  cbv zeta in H. destruct (H Hret) as (Hbuilt & Hsize & _ & _ & Hevents & Hfinal).
  exact (conj Hret (conj Hbuilt (conj Hsize (conj eq_refl (conj Hevents Hfinal))))).
Defined.

Lemma program_linking_failure_names_the_program_witness :
  let cut := "a" +:+ String Ascii.zero "b" in
  c_str "gui" = "gui"
  ∧ c_str "gbuffers_water" = "gbuffers_water"
  ∧ "gui" ≠ "gbuffers_water"
  ∧ what (program_linking_failure "gui") = "Program gui failed to link"
  ∧ what (program_linking_failure "gui") ≠ what (program_linking_failure "gbuffers_water")
  ∧ c_str cut ≠ cut
  ∧ what (program_linking_failure cut) = "Program a".
Proof.
  cbv zeta.
  assert ("gui" ≠ "gbuffers_water") as Hne by discriminate.
  assert (c_str ("a" +:+ String Ascii.zero "b")
          ≠ "a" +:+ String Ascii.zero "b") as Hcut
    by discriminate.
  destruct (program_linking_failure_names_the_program "gui" "gbuffers_water")
    as (Hfree & _).
  destruct (Hfree eq_refl) as (Hwhat & _ & Hdiffer).
  destruct (program_linking_failure_names_the_program
              ("a" +:+ String Ascii.zero "b") "gui")
    as (_ & Hnul).
  exact (conj eq_refl (conj eq_refl (conj Hne (conj Hwhat
           (conj (Hdiffer eq_refl Hne) (conj Hcut (Hnul Hcut))))))).
Defined.

(** The callback with the severities of the OpenGL registry: a message of
    high severity is logged at ERROR, whatever its source and type. *)
Lemma debug_logger_one_record_witness :
  NoDup [37190; 37191; 37192; 33387]
  ∧ ∃ lvl,
      events (debug_logger 33350 33351 33352 33353 33354 33355
                33356 33357 33358 33359 33360 33384 33385 33386 33361
                37190 37191 37192 33387
                33352 33356 1282 37190 "link failed" Scene.ready)
      = [ELog lvl [Text (pretty 1282%N); Text " - Message from ";
                   Text "shader compiler"; Text " of type "; Text "error";
                   Text ": "; Text "link failed"]]
      ∧ lvl = ERROR.
Proof.
  assert (NoDup [37190; 37191; 37192; 33387]) as Hdistinct
    by (apply (bool_decide_unpack _); vm_compute; exact I).
  refine (conj Hdistinct _).
  pose proof (debug_logger_one_record 33350 33351 33352 33353 33354 33355
                33356 33357 33358 33359 33360 33384 33385 33386 33361
                37190 37191 37192 33387
                33352 33356 1282 37190 "link failed" Scene.ready Hdistinct) as H.
  cbv zeta in H. destruct H as (_ & _ & lvl & Hevents & Hhigh & _).
  exists lvl. exact (conj Hevents (Hhigh eq_refl)).
Defined.

(** The callback with the enumerator values of the OpenGL registry: a
    message of high severity from the shader compiler. *)
Example debug_logger_high_severity :
  events (debug_logger 33350 33351 33352 33353 33354 33355
            33356 33357 33358 33359 33360 33384 33385 33386 33361
            37190 37191 37192 33387
            33352 33356 1282 37190 "link failed" Scene.ready)
  = [ELog ERROR [Text "1282"; Text " - Message from "; Text "shader compiler";
                 Text " of type "; Text "error"; Text ": "; Text "link failed"]].
Proof. by vm_compute. Qed.

(** A severity the callback does not know is logged like a medium one. *)
Example debug_logger_unknown_severity :
  events (debug_logger 33350 33351 33352 33353 33354 33355
            33356 33357 33358 33359 33360 33384 33385 33386 33361
            37190 37191 37192 33387
            1 2 0 3 "?" Scene.ready)
  = [ELog INFO [Text "0"; Text " - Message from "; Text "something else somehow";
                Text " of type "; Text "something else somwhow"; Text ": "; Text "?"]].
Proof. by vm_compute. Qed.
